(** * Pebble Snowy display controller (hw/display/pebble_snowy_display.c)

    A shallow embedding of the SPI display model: the controller record
    [PSDisplayGlobals], the byte-transfer state machine, the pin
    callbacks, the command-set detector and the bitmap blit, followed by
    the properties established about them.

    Conventions.
    - C integers are [Z]; [u32] and [u8] write out the wrap-around of
      [uint32_t] and [uint8_t] where the code relies on a conversion.
    - Arrays are lists; a store through [fb_store] outside the array is a
      [Fault OutOfBounds] (undefined behaviour in C).
    - [qemu_set_irq], [fprintf(stderr, ...)] and [dpy_gfx_update] are
      recorded, in program order, in an output trace of [event]s.
    - [abort()] is [Fault AbortCalled]; a loop that is given an
      iteration budget faults with [OutOfFuel] when it exhausts it, which
      is shown not to happen. *)

From Stdlib Require Import ZArith Lia List String Ascii Bool.
From stdpp Require Import base list.
Import ListNotations.
Local Open Scope Z_scope.

(** ** Geometry and colours *)

Definition SNOWY_NUM_ROWS : Z := 172.
Definition SNOWY_NUM_COLS : Z := 148.
Definition SNOWY_BYTES_PER_ROW : Z := SNOWY_NUM_COLS.
Definition SNOWY_ROWS_SKIPPED_AT_TOP : Z := 17.
Definition SNOWY_ROWS_SKIPPED_AT_BOTTOM : Z := 16.
Definition SNOWY_LINE_DATA_LEN : Z :=
  SNOWY_ROWS_SKIPPED_AT_TOP + SNOWY_NUM_ROWS + SNOWY_ROWS_SKIPPED_AT_BOTTOM.

Definition SNOWY_COLOR_BLACK : Z := 0.
Definition SNOWY_COLOR_WHITE : Z := 0xFC.
Definition SNOWY_COLOR_RED : Z := 0xC0.
Definition SNOWY_COLOR_GREEN : Z := 0x30.
Definition SNOWY_COLOR_BLUE : Z := 0x0C.

(** [sizeof(s->framebuffer)] and [sizeof(s->prog_header)]. *)
Definition FRAMEBUFFER_SIZE : Z := SNOWY_NUM_ROWS * SNOWY_BYTES_PER_ROW.
Definition PROG_HEADER_SIZE : Z := 256.

Definition u8 (z : Z) : Z := z mod 256.
Definition u32 (z : Z) : Z := z mod 4294967296.

(** ** Enumerations *)

Inductive PSDisplayState : Set :=
| PSDISPLAYSTATE_PROGRAMMING
| PSDISPLAYSTATE_ACCEPTING_CMD
| PSDISPLAYSTATE_ACCEPTING_PARAM
| PSDISPLAYSTATE_ACCEPTING_SCENE_BYTE
| PSDISPLAYSTATE_ACCEPTING_LINENO
| PSDISPLAYSTATE_ACCEPTING_DATA.

Inductive PDisplayCmdSet : Set :=
| PSDISPLAY_CMD_SET_UNKNOWN
| PSDISPLAY_CMD_SET_0
| PSDISPLAY_CMD_SET_1.

Definition PSDISPLAYCMD0_NULL : Z := 0.
Definition PSDISPLAYCMD0_SET_PARAMETER : Z := 1.
Definition PSDISPLAYCMD0_DISPLAY_OFF : Z := 2.
Definition PSDISPLAYCMD0_DISPLAY_ON : Z := 3.
Definition PSDISPLAYCMD0_DRAW_SCENE : Z := 4.

Definition PSDISPLAYCMD1_FRAME_BEGIN : Z := 0.
Definition PSDISPLAYCMD1_FRAME_DATA : Z := 1.
Definition PSDISPLAYCMD1_FRAME_END : Z := 2.

Definition PSDISPLAYSCENE_BLACK : Z := 0.
Definition PSDISPLAYSCENE_SPLASH : Z := 1.
Definition PSDISPLAYSCENE_UPDATE : Z := 2.
Definition PSDISPLAYSCENE_ERROR : Z := 3.

(** ** The controller record

    The fields of [PSDisplayGlobals] that the code reads or writes; the
    bus handle, the console and the two irq handles are the environment's
    and appear only through the output trace. *)

Record PSDisplayGlobals : Type := {
  redraw : bool;
  framebuffer : list Z;
  col_index : Z;
  row_index : Z;
  state : PSDisplayState;
  cmd : Z;
  parameter : Z;
  parameter_byte_offset : Z;
  scene : Z;
  sclk_value : bool;
  cs_value : bool;
  sclk_count_with_cs_high : Z;
  prog_header : list Z;
  prog_byte_offset : Z;
  cmd_set : PDisplayCmdSet
}.

(** Assignment to one field, [s->field = v]. *)
Definition set_redraw (v : bool) (s : PSDisplayGlobals) : PSDisplayGlobals :=
  {| redraw := v; framebuffer := framebuffer s; col_index := col_index s;
     row_index := row_index s; state := state s; cmd := cmd s;
     parameter := parameter s;
     parameter_byte_offset := parameter_byte_offset s; scene := scene s;
     sclk_value := sclk_value s; cs_value := cs_value s;
     sclk_count_with_cs_high := sclk_count_with_cs_high s;
     prog_header := prog_header s; prog_byte_offset := prog_byte_offset s;
     cmd_set := cmd_set s |}.

Definition set_framebuffer (v : list Z) (s : PSDisplayGlobals) : PSDisplayGlobals :=
  {| redraw := redraw s; framebuffer := v; col_index := col_index s;
     row_index := row_index s; state := state s; cmd := cmd s;
     parameter := parameter s;
     parameter_byte_offset := parameter_byte_offset s; scene := scene s;
     sclk_value := sclk_value s; cs_value := cs_value s;
     sclk_count_with_cs_high := sclk_count_with_cs_high s;
     prog_header := prog_header s; prog_byte_offset := prog_byte_offset s;
     cmd_set := cmd_set s |}.

Definition set_col_index (v : Z) (s : PSDisplayGlobals) : PSDisplayGlobals :=
  {| redraw := redraw s; framebuffer := framebuffer s; col_index := v;
     row_index := row_index s; state := state s; cmd := cmd s;
     parameter := parameter s;
     parameter_byte_offset := parameter_byte_offset s; scene := scene s;
     sclk_value := sclk_value s; cs_value := cs_value s;
     sclk_count_with_cs_high := sclk_count_with_cs_high s;
     prog_header := prog_header s; prog_byte_offset := prog_byte_offset s;
     cmd_set := cmd_set s |}.

Definition set_row_index (v : Z) (s : PSDisplayGlobals) : PSDisplayGlobals :=
  {| redraw := redraw s; framebuffer := framebuffer s;
     col_index := col_index s; row_index := v; state := state s;
     cmd := cmd s; parameter := parameter s;
     parameter_byte_offset := parameter_byte_offset s; scene := scene s;
     sclk_value := sclk_value s; cs_value := cs_value s;
     sclk_count_with_cs_high := sclk_count_with_cs_high s;
     prog_header := prog_header s; prog_byte_offset := prog_byte_offset s;
     cmd_set := cmd_set s |}.

Definition set_state (v : PSDisplayState) (s : PSDisplayGlobals) : PSDisplayGlobals :=
  {| redraw := redraw s; framebuffer := framebuffer s;
     col_index := col_index s; row_index := row_index s; state := v;
     cmd := cmd s; parameter := parameter s;
     parameter_byte_offset := parameter_byte_offset s; scene := scene s;
     sclk_value := sclk_value s; cs_value := cs_value s;
     sclk_count_with_cs_high := sclk_count_with_cs_high s;
     prog_header := prog_header s; prog_byte_offset := prog_byte_offset s;
     cmd_set := cmd_set s |}.

Definition set_cmd (v : Z) (s : PSDisplayGlobals) : PSDisplayGlobals :=
  {| redraw := redraw s; framebuffer := framebuffer s;
     col_index := col_index s; row_index := row_index s; state := state s;
     cmd := v; parameter := parameter s;
     parameter_byte_offset := parameter_byte_offset s; scene := scene s;
     sclk_value := sclk_value s; cs_value := cs_value s;
     sclk_count_with_cs_high := sclk_count_with_cs_high s;
     prog_header := prog_header s; prog_byte_offset := prog_byte_offset s;
     cmd_set := cmd_set s |}.

Definition set_parameter (v : Z) (s : PSDisplayGlobals) : PSDisplayGlobals :=
  {| redraw := redraw s; framebuffer := framebuffer s;
     col_index := col_index s; row_index := row_index s; state := state s;
     cmd := cmd s; parameter := v;
     parameter_byte_offset := parameter_byte_offset s; scene := scene s;
     sclk_value := sclk_value s; cs_value := cs_value s;
     sclk_count_with_cs_high := sclk_count_with_cs_high s;
     prog_header := prog_header s; prog_byte_offset := prog_byte_offset s;
     cmd_set := cmd_set s |}.

Definition set_parameter_byte_offset (v : Z) (s : PSDisplayGlobals) : PSDisplayGlobals :=
  {| redraw := redraw s; framebuffer := framebuffer s;
     col_index := col_index s; row_index := row_index s; state := state s;
     cmd := cmd s; parameter := parameter s; parameter_byte_offset := v;
     scene := scene s; sclk_value := sclk_value s; cs_value := cs_value s;
     sclk_count_with_cs_high := sclk_count_with_cs_high s;
     prog_header := prog_header s; prog_byte_offset := prog_byte_offset s;
     cmd_set := cmd_set s |}.

Definition set_scene (v : Z) (s : PSDisplayGlobals) : PSDisplayGlobals :=
  {| redraw := redraw s; framebuffer := framebuffer s;
     col_index := col_index s; row_index := row_index s; state := state s;
     cmd := cmd s; parameter := parameter s;
     parameter_byte_offset := parameter_byte_offset s; scene := v;
     sclk_value := sclk_value s; cs_value := cs_value s;
     sclk_count_with_cs_high := sclk_count_with_cs_high s;
     prog_header := prog_header s; prog_byte_offset := prog_byte_offset s;
     cmd_set := cmd_set s |}.

Definition set_sclk_value (v : bool) (s : PSDisplayGlobals) : PSDisplayGlobals :=
  {| redraw := redraw s; framebuffer := framebuffer s;
     col_index := col_index s; row_index := row_index s; state := state s;
     cmd := cmd s; parameter := parameter s;
     parameter_byte_offset := parameter_byte_offset s; scene := scene s;
     sclk_value := v; cs_value := cs_value s;
     sclk_count_with_cs_high := sclk_count_with_cs_high s;
     prog_header := prog_header s; prog_byte_offset := prog_byte_offset s;
     cmd_set := cmd_set s |}.

Definition set_cs_value (v : bool) (s : PSDisplayGlobals) : PSDisplayGlobals :=
  {| redraw := redraw s; framebuffer := framebuffer s;
     col_index := col_index s; row_index := row_index s; state := state s;
     cmd := cmd s; parameter := parameter s;
     parameter_byte_offset := parameter_byte_offset s; scene := scene s;
     sclk_value := sclk_value s; cs_value := v;
     sclk_count_with_cs_high := sclk_count_with_cs_high s;
     prog_header := prog_header s; prog_byte_offset := prog_byte_offset s;
     cmd_set := cmd_set s |}.

Definition set_sclk_count_with_cs_high (v : Z) (s : PSDisplayGlobals) : PSDisplayGlobals :=
  {| redraw := redraw s; framebuffer := framebuffer s;
     col_index := col_index s; row_index := row_index s; state := state s;
     cmd := cmd s; parameter := parameter s;
     parameter_byte_offset := parameter_byte_offset s; scene := scene s;
     sclk_value := sclk_value s; cs_value := cs_value s;
     sclk_count_with_cs_high := v; prog_header := prog_header s;
     prog_byte_offset := prog_byte_offset s; cmd_set := cmd_set s |}.

Definition set_prog_header (v : list Z) (s : PSDisplayGlobals) : PSDisplayGlobals :=
  {| redraw := redraw s; framebuffer := framebuffer s;
     col_index := col_index s; row_index := row_index s; state := state s;
     cmd := cmd s; parameter := parameter s;
     parameter_byte_offset := parameter_byte_offset s; scene := scene s;
     sclk_value := sclk_value s; cs_value := cs_value s;
     sclk_count_with_cs_high := sclk_count_with_cs_high s; prog_header := v;
     prog_byte_offset := prog_byte_offset s; cmd_set := cmd_set s |}.

Definition set_prog_byte_offset (v : Z) (s : PSDisplayGlobals) : PSDisplayGlobals :=
  {| redraw := redraw s; framebuffer := framebuffer s;
     col_index := col_index s; row_index := row_index s; state := state s;
     cmd := cmd s; parameter := parameter s;
     parameter_byte_offset := parameter_byte_offset s; scene := scene s;
     sclk_value := sclk_value s; cs_value := cs_value s;
     sclk_count_with_cs_high := sclk_count_with_cs_high s;
     prog_header := prog_header s; prog_byte_offset := v;
     cmd_set := cmd_set s |}.

Definition set_cmd_set (v : PDisplayCmdSet) (s : PSDisplayGlobals) : PSDisplayGlobals :=
  {| redraw := redraw s; framebuffer := framebuffer s;
     col_index := col_index s; row_index := row_index s; state := state s;
     cmd := cmd s; parameter := parameter s;
     parameter_byte_offset := parameter_byte_offset s; scene := scene s;
     sclk_value := sclk_value s; cs_value := cs_value s;
     sclk_count_with_cs_high := sclk_count_with_cs_high s;
     prog_header := prog_header s; prog_byte_offset := prog_byte_offset s;
     cmd_set := v |}.

(** ** Outputs, faults and the controller monad *)

(** The diagnostics written to stderr, one constructor per format
    string, with the values printed. *)
Inductive message : Set :=
| MsgDataWithoutCS
| MsgUnimplementedCmdSet
| MsgTooManyParamBytes
| MsgInvalidColumn (data : Z)
| MsgUnsupportedScene (scene : Z)
| MsgWrongState (st : PSDisplayState)
| MsgUnsupportedCmd (cmd : Z)
| MsgUnknownDate (cs : PDisplayCmdSet)
| MsgNoDateString (cs : PDisplayCmdSet).

(** What the controller does to its environment.  The last event is not
    an output: it marks each call of [ps_display_determine_command_set],
    so that calls can be counted on the trace. *)
Inductive event : Set :=
| IrqDone (level : bool)      (* qemu_set_irq(s->done_output, level) *)
| IrqIntn (level : bool)      (* qemu_set_irq(s->intn_output, level) *)
| Stderr (m : message)        (* fprintf(stderr, ...) *)
| GfxUpdate                   (* dpy_gfx_update(s->con, ...) *)
| EnterDetermineCommandSet.   (* entry of ps_display_determine_command_set *)

Inductive fault : Set :=
| AbortCalled
| OutOfBounds
| OutOfFuel.

Inductive outcome (A : Type) : Type :=
| Ok (a : A) (s : PSDisplayGlobals) (out : list event)
| Fault (f : fault) (out : list event).
Arguments Ok {A} a s out.
Arguments Fault {A} f out.

Definition M (A : Type) : Type := PSDisplayGlobals -> outcome A.

Definition ret {A} (a : A) : M A := fun s => Ok a s [].

Definition bind {A B} (m : M A) (k : A -> M B) : M B :=
  fun s =>
    match m s with
    | Ok a s1 o1 =>
      match k a s1 with
      | Ok b s2 o2 => Ok b s2 (o1 ++ o2)
      | Fault f o2 => Fault f (o1 ++ o2)
      end
    | Fault f o1 => Fault f o1
    end.
Arguments ret {A} a _ /.
Arguments bind {A B} m k _ /.

Declare Scope psd_scope.
Delimit Scope psd_scope with psd.
Notation "x <- m ;; k" := (bind m (fun x => k))
  (at level 100, m at next level, right associativity) : psd_scope.
Notation "m ;; k" := (bind m (fun _ => k))
  (at level 100, right associativity) : psd_scope.
Local Open Scope psd_scope.

Definition get : M PSDisplayGlobals := fun s => Ok s s [].
Definition modify (f : PSDisplayGlobals -> PSDisplayGlobals) : M unit :=
  fun s => Ok tt (f s) [].
Definition emit (e : event) : M unit := fun s => Ok tt s [e].
Definition raise {A} (f : fault) : M A := fun _ => Fault f [].
Arguments get _ /.
Arguments modify f _ /.
Arguments emit e _ /.
Arguments raise {A} f _ /.

Definition qemu_set_irq_intn (level : bool) : M unit := emit (IrqIntn level).
Definition qemu_set_irq_done (level : bool) : M unit := emit (IrqDone level).
Definition fprintf_stderr (m : message) : M unit := emit (Stderr m).
Definition abort {A} : M A := raise AbortCalled.

(** Projections of an outcome. *)
Definition final_state {A} (r : outcome A) : option PSDisplayGlobals :=
  match r with Ok _ s _ => Some s | Fault _ _ => None end.
Definition events {A} (r : outcome A) : list event :=
  match r with Ok _ _ o => o | Fault _ o => o end.
Definition faulted {A} (r : outcome A) : option fault :=
  match r with Ok _ _ _ => None | Fault f _ => Some f end.

(** ** Framebuffer *)

(** [s->framebuffer[idx] = v]; outside the array the C store is undefined. *)
Definition fb_store (idx v : Z) : M unit :=
  fun s =>
    if (0 <=? idx) && (idx <? FRAMEBUFFER_SIZE)
    then Ok tt (set_framebuffer (<[Z.to_nat idx := v]> (framebuffer s)) s) []
    else Fault OutOfBounds [].

(** [memset(s->framebuffer, c, sizeof(s->framebuffer))]. *)
Definition fb_memset (c : Z) : M unit :=
  modify (set_framebuffer (replicate (Z.to_nat FRAMEBUFFER_SIZE) c)).

Definition ps_display_set_pixel (x y pixel_byte : Z) : M unit :=
  fb_store (u32 (y * SNOWY_BYTES_PER_ROW + x)) pixel_byte.

(** One iteration of the loop of [ps_display_draw_bitmap], at index [i]. *)
Definition draw_bitmap_pixel (bits : list Z)
    (x_offset y_offset width : Z) (i : Z) : M unit :=
  match bits !! Z.to_nat (i / 8) with
  | None => raise OutOfBounds
  | Some b =>
    let value := negb (Z.land b (Z.shiftl 1 (i mod 8)) =? 0) in
    let x := u8 (x_offset + i mod width) in
    let y := u8 (y_offset + i / width) in
    if value then ps_display_set_pixel x y 0xC0
    else ps_display_set_pixel x y 0x00
  end.

(** The loop [for (...; i < pixels; ++i)], entered at index [i] with [n]
    iterations to go. *)
Fixpoint draw_bitmap_loop (n : nat) (bits : list Z)
    (x_offset y_offset width : Z) (i : Z) : M unit :=
  match n with
  | O => ret tt
  | S n' =>
    draw_bitmap_pixel bits x_offset y_offset width i ;;
    draw_bitmap_loop n' bits x_offset y_offset width (i + 1)
  end.

Definition ps_display_draw_bitmap (bits : list Z)
    (x_offset y_offset width height : Z) : M unit :=
  let pixels := u32 (width * height) in
  draw_bitmap_loop (Z.to_nat pixels) bits x_offset y_offset width 0.

(** The 128 x 32 splash bitmap, 512 bytes. *)
Definition ps_display_get_pebble_logo : list Z :=
  [
    0x00; 0x00; 0x00; 0x00; 0x00; 0x00; 0x38; 0x00; 0x00; 0x1c; 0x00; 0x00; 0x0e; 0x00; 0x00; 0x00;
    0x00; 0x00; 0x00; 0x00; 0x00; 0x00; 0x38; 0x00; 0x00; 0x1c; 0x00; 0x00; 0x0e; 0x00; 0x00; 0x00;
    0x00; 0x00; 0x00; 0x00; 0x00; 0x00; 0x38; 0x00; 0x00; 0x1c; 0x00; 0x00; 0x0e; 0x00; 0x00; 0x00;
    0x00; 0x00; 0x00; 0x00; 0x00; 0x00; 0x38; 0x00; 0x00; 0x1c; 0x00; 0x00; 0x0e; 0x00; 0x00; 0x00;
    0x00; 0x00; 0x00; 0x00; 0x00; 0x00; 0x38; 0x00; 0x00; 0x1c; 0x00; 0x00; 0x0e; 0x00; 0x00; 0x00;
    0x00; 0x00; 0x00; 0x00; 0x00; 0x00; 0x38; 0x00; 0x00; 0x1c; 0x00; 0x00; 0x0e; 0x00; 0x00; 0x00;
    0x00; 0x00; 0x00; 0x00; 0x00; 0x00; 0x38; 0x00; 0x00; 0x1c; 0x00; 0x00; 0x0e; 0x00; 0x00; 0x00;
    0x00; 0x00; 0x07; 0x00; 0xe0; 0x01; 0x38; 0x70; 0x00; 0x1c; 0x38; 0x00; 0x0e; 0xc0; 0x03; 0x00;
    0x80; 0xe3; 0x3f; 0x00; 0xfc; 0x0f; 0x38; 0xfe; 0x03; 0x1c; 0xff; 0x01; 0x0e; 0xf8; 0x1f; 0x00;
    0x80; 0xf3; 0x7f; 0x00; 0xfe; 0x1f; 0x38; 0xff; 0x0f; 0x9c; 0xff; 0x07; 0x0e; 0xfc; 0x3f; 0x00;
    0x80; 0x3b; 0xf0; 0x00; 0x0f; 0x3c; 0xb8; 0x03; 0x1f; 0xdc; 0x81; 0x0f; 0x0e; 0x1e; 0x78; 0x00;
    0x80; 0x0f; 0xe0; 0x81; 0x03; 0x78; 0xf8; 0x01; 0x1c; 0xfc; 0x00; 0x0e; 0x0e; 0x07; 0xf0; 0x00;
    0x80; 0x0f; 0xc0; 0x83; 0x03; 0x70; 0xf8; 0x00; 0x3c; 0x7c; 0x00; 0x1e; 0x0e; 0x07; 0xe0; 0x00;
    0x80; 0x07; 0x80; 0xc3; 0x01; 0x70; 0x78; 0x00; 0x38; 0x3c; 0x00; 0x1c; 0x8e; 0x03; 0xe0; 0x00;
    0x80; 0x03; 0x80; 0xc3; 0x01; 0x7e; 0x38; 0x00; 0x30; 0x1c; 0x00; 0x18; 0x8e; 0x03; 0xfc; 0x00;
    0x80; 0x03; 0x00; 0xc7; 0xc1; 0x1f; 0x38; 0x00; 0x70; 0x1c; 0x00; 0x38; 0x8e; 0x83; 0x3f; 0x00;
    0x80; 0x03; 0x00; 0xc7; 0xf9; 0x03; 0x38; 0x00; 0x70; 0x1c; 0x00; 0x38; 0x8e; 0xf3; 0x07; 0x00;
    0x80; 0x03; 0x00; 0xc7; 0x7f; 0x00; 0x38; 0x00; 0x70; 0x1c; 0x00; 0x38; 0x8e; 0xff; 0x00; 0x00;
    0x80; 0x03; 0x00; 0xc7; 0x0f; 0x00; 0x38; 0x00; 0x70; 0x1c; 0x00; 0x38; 0x8e; 0x1f; 0x00; 0x00;
    0x80; 0x03; 0x80; 0xc3; 0x01; 0x00; 0x38; 0x00; 0x30; 0x1c; 0x00; 0x18; 0x8e; 0x03; 0x00; 0x00;
    0x80; 0x07; 0x80; 0xc3; 0x01; 0x00; 0x78; 0x00; 0x38; 0x3c; 0x00; 0x1c; 0x8e; 0x03; 0x00; 0x00;
    0x80; 0x0f; 0xc0; 0x83; 0x03; 0x00; 0xf8; 0x00; 0x38; 0x7c; 0x00; 0x1c; 0x0e; 0x07; 0x00; 0x00;
    0x80; 0x0f; 0xc0; 0x81; 0x07; 0x70; 0xf8; 0x01; 0x1c; 0xfc; 0x00; 0x0e; 0x0e; 0x0f; 0xe0; 0x00;
    0x80; 0x3f; 0xf0; 0x00; 0x0f; 0x78; 0xb8; 0x03; 0x1f; 0xdc; 0x81; 0x0f; 0x0e; 0x1e; 0xf0; 0x00;
    0x80; 0xf3; 0x7f; 0x00; 0xfe; 0x3f; 0x38; 0xff; 0x07; 0x9c; 0xff; 0x03; 0x0e; 0xfc; 0x7f; 0x00;
    0x80; 0xe3; 0x3f; 0x00; 0xf8; 0x0f; 0x38; 0xfe; 0x03; 0x1c; 0xff; 0x01; 0x0e; 0xf0; 0x1f; 0x00;
    0x80; 0x03; 0x07; 0x00; 0xc0; 0x01; 0x00; 0x70; 0x00; 0x00; 0x38; 0x00; 0x00; 0x80; 0x03; 0x00;
    0x80; 0x03; 0x00; 0x00; 0x00; 0x00; 0x00; 0x00; 0x00; 0x00; 0x00; 0x00; 0x00; 0x00; 0x00; 0x00;
    0x80; 0x03; 0x00; 0x00; 0x00; 0x00; 0x00; 0x00; 0x00; 0x00; 0x00; 0x00; 0x00; 0x00; 0x00; 0x00;
    0x80; 0x03; 0x00; 0x00; 0x00; 0x00; 0x00; 0x00; 0x00; 0x00; 0x00; 0x00; 0x00; 0x00; 0x00; 0x00;
    0x80; 0x03; 0x00; 0x00; 0x00; 0x00; 0x00; 0x00; 0x00; 0x00; 0x00; 0x00; 0x00; 0x00; 0x00; 0x00;
    0x80; 0x03; 0x00; 0x00; 0x00; 0x00; 0x00; 0x00; 0x00; 0x00; 0x00; 0x00; 0x00; 0x00; 0x00; 0x00
  ]%Z.

(** ** C strings

    A C string is the list of its bytes; a read past the end of the list
    yields the terminating NUL. *)

Definition c_str (s : string) : list Z :=
  map (fun c => Z.of_N (N_of_ascii c)) (list_ascii_of_string s).

Fixpoint strlen (s : list Z) : Z :=
  match s with
  | [] => 0
  | c :: r => if c =? 0 then 0 else 1 + strlen r
  end.

Fixpoint strncmp (s1 s2 : list Z) (n : nat) : Z :=
  match n with
  | O => 0
  | S n' =>
    let c1 := hd 0 s1 in
    let c2 := hd 0 s2 in
    if negb (c1 =? c2) then c1 - c2
    else if c1 =? 0 then 0
    else strncmp (tl s1) (tl s2) n'
  end.

(** ** Command-set detection *)

(** Table of programming header dates and command sets. *)
Definition cmd_sets : list (string * PDisplayCmdSet) :=
  [ ("Date: Dec 10 2014 08:30"%string, PSDISPLAY_CMD_SET_0);
    ("Date: Sep 12 2014 16:56:21"%string, PSDISPLAY_CMD_SET_1) ].

(** The inner [for (n = 0; n < n_cmd_sets; n++)]: first entry whose date
    string is a prefix of [str_p]. *)
Fixpoint find_cmd_set (str_p : list Z)
    (tbl : list (string * PDisplayCmdSet)) : option PDisplayCmdSet :=
  match tbl with
  | [] => None
  | (date_str, cs) :: tbl' =>
    if strncmp str_p (c_str date_str) (Z.to_nat (strlen (c_str date_str))) =? 0
    then Some cs
    else find_cmd_set str_p tbl'
  end.

(** The outer [for (i = 2; i < s->prog_byte_offset; i++)], entered at
    index [i]; [fuel] bounds the number of iterations. *)
Fixpoint scan_prog_header (fuel : nat) (i : Z) : M unit :=
  match fuel with
  | O => raise OutOfFuel
  | S fuel' =>
    s <- get ;;
    if i <? prog_byte_offset s then
      let str_p := drop (Z.to_nat i) (prog_header s) in
      if strncmp str_p (c_str "Date:") 5 =? 0 then
        match find_cmd_set str_p cmd_sets with
        | Some cs => modify (set_cmd_set cs)
        | None => fprintf_stderr (MsgUnknownDate (cmd_set s))
        end
      else
        scan_prog_header fuel' (i + strlen str_p + 1)
    else
      fprintf_stderr (MsgNoDateString (cmd_set s))
  end.

Definition ps_display_determine_command_set : M unit :=
  emit EnterDetermineCommandSet ;;
  (* Make sure prog_header is null terminated *)
  s <- get ;;
  (if PROG_HEADER_SIZE <=? prog_byte_offset s
   then modify (set_prog_byte_offset (PROG_HEADER_SIZE - 1))
   else ret tt) ;;
  modify (fun s =>
    set_prog_header (<[Z.to_nat (prog_byte_offset s) := 0]> (prog_header s)) s) ;;
  (* Default one to use *)
  modify (set_cmd_set PSDISPLAY_CMD_SET_1) ;;
  (* Skip first two bytes which contain 0xFF 00 *)
  scan_prog_header (Z.to_nat PROG_HEADER_SIZE) 2.

(** ** Command execution *)

Definition ps_display_reset_state (assert_done : bool) : M unit :=
  (if assert_done then qemu_set_irq_intn false else ret tt) ;;
  modify (set_state PSDISPLAYSTATE_ACCEPTING_CMD) ;;
  modify (set_parameter_byte_offset 0).

(** The [switch (s->scene)] of the draw-scene command. *)
Definition draw_scene (sc : Z) : M unit :=
  if sc =? PSDISPLAYSCENE_BLACK then fb_memset SNOWY_COLOR_BLACK
  else if sc =? PSDISPLAYSCENE_SPLASH then
    ps_display_draw_bitmap ps_display_get_pebble_logo 8 68 128 32
  else if sc =? PSDISPLAYSCENE_UPDATE then fb_memset SNOWY_COLOR_GREEN
  else if sc =? PSDISPLAYSCENE_ERROR then fb_memset SNOWY_COLOR_BLUE
  else fprintf_stderr (MsgUnsupportedScene sc).

Definition ps_display_execute_current_cmd_set0 : M unit :=
  s <- get ;;
  if cmd s =? PSDISPLAYCMD0_NULL then
    ps_display_reset_state true
  else if cmd s =? PSDISPLAYCMD0_SET_PARAMETER then
    modify (set_state PSDISPLAYSTATE_ACCEPTING_PARAM) ;;
    modify (set_parameter_byte_offset 0)
  else if cmd s =? PSDISPLAYCMD0_DISPLAY_OFF then
    ps_display_reset_state true
  else if cmd s =? PSDISPLAYCMD0_DISPLAY_ON then
    ps_display_reset_state true
  else if cmd s =? PSDISPLAYCMD0_DRAW_SCENE then
    match state s with
    | PSDISPLAYSTATE_ACCEPTING_CMD =>
      modify (set_state PSDISPLAYSTATE_ACCEPTING_SCENE_BYTE)
    | PSDISPLAYSTATE_ACCEPTING_SCENE_BYTE =>
      draw_scene (scene s) ;;
      ps_display_reset_state true ;;
      modify (set_redraw true)
    | st =>
      fprintf_stderr (MsgWrongState st) ;;
      ps_display_reset_state true
    end
  else
    fprintf_stderr (MsgUnsupportedCmd (cmd s)) ;;
    ps_display_reset_state true.

Definition ps_display_execute_current_cmd_set1 : M unit :=
  s <- get ;;
  if cmd s =? PSDISPLAYCMD1_FRAME_BEGIN then
    (* Basically ignore this, wait for the FRAME_DATA command to be sent *)
    ret tt
  else if cmd s =? PSDISPLAYCMD1_FRAME_DATA then
    modify (set_state PSDISPLAYSTATE_ACCEPTING_LINENO)
  else if cmd s =? PSDISPLAYCMD1_FRAME_END then
    modify (set_redraw true) ;;
    ps_display_reset_state true
  else
    fprintf_stderr (MsgUnsupportedCmd (cmd s)) ;;
    ps_display_reset_state true.

(** ** Byte transfer *)

(** The body of [case PSDISPLAYSTATE_ACCEPTING_PARAM]. *)
Definition accept_param (data_byte : Z) : M unit :=
  s <- get ;;
  (* Params are sent low byte first *)
  (if parameter_byte_offset s =? 0 then
     modify (set_parameter (Z.lor (Z.land (parameter s) 0xFFFFFF00) data_byte))
   else if parameter_byte_offset s =? 1 then
     modify (set_parameter
       (Z.lor (Z.land (parameter s) 0xFFFF00FF) (Z.shiftl data_byte 8)))
   else if parameter_byte_offset s =? 2 then
     modify (set_parameter
       (Z.lor (Z.land (parameter s) 0xFF00FFFF) (Z.shiftl data_byte 16)))
   else if parameter_byte_offset s =? 3 then
     modify (set_parameter
       (Z.lor (Z.land (parameter s) 0x00FFFFFF) (Z.shiftl data_byte 24)))
   else
     fprintf_stderr MsgTooManyParamBytes) ;;
  modify (fun s => set_parameter_byte_offset (u32 (parameter_byte_offset s + 1)) s) ;;
  s <- get ;;
  if 4 <=? parameter_byte_offset s then ps_display_reset_state true else ret tt.

(** The body of [case PSDISPLAYSTATE_ACCEPTING_LINENO]. *)
Definition accept_lineno (data : Z) : M unit :=
  (* Check for invalid column index *)
  data <- (if SNOWY_NUM_COLS <=? data
           then fprintf_stderr (MsgInvalidColumn data) ;; ret 0
           else ret data) ;;
  modify (set_col_index data) ;;
  (* The column data is sent from the bottom up *)
  modify (set_row_index (SNOWY_NUM_ROWS + SNOWY_ROWS_SKIPPED_AT_BOTTOM - 1)) ;;
  modify (set_state PSDISPLAYSTATE_ACCEPTING_DATA) ;;
  (* We are not done, deassert the interrupt *)
  qemu_set_irq_intn true.

(** The body of [case PSDISPLAYSTATE_ACCEPTING_DATA]. *)
Definition accept_data (data : Z) : M unit :=
  s <- get ;;
  if SNOWY_NUM_ROWS <=? row_index s then
    (* bottom padding area *)
    modify (set_row_index (row_index s - 1))
  else if 0 <=? row_index s then
    (* viewable area *)
    fb_store (row_index s * SNOWY_BYTES_PER_ROW + col_index s) (u8 data) ;;
    modify (set_row_index (row_index s - 1))
  else if - SNOWY_ROWS_SKIPPED_AT_TOP <? row_index s then
    (* top padding area *)
    modify (set_row_index (row_index s - 1))
  else
    (* last byte in the line *)
    modify (set_state PSDISPLAYSTATE_ACCEPTING_LINENO) ;;
    qemu_set_irq_intn false.

Definition ps_display_transfer (data : Z) : M Z :=
  let data := u32 data in
  let data_byte := Z.land data 0x00FF in
  s <- get ;;
  (* Ignore incoming data if our chip select is not asserted *)
  if cs_value s then
    (match state s with
     | PSDISPLAYSTATE_PROGRAMMING => ret tt
     | _ => fprintf_stderr MsgDataWithoutCS
     end) ;;
    ret 0
  else
    (match state s with
     | PSDISPLAYSTATE_PROGRAMMING =>
       (* Capture the start of the programming data *)
       if prog_byte_offset s <? PROG_HEADER_SIZE then
         modify (set_prog_header
           (<[Z.to_nat (prog_byte_offset s) := data_byte]> (prog_header s))) ;;
         modify (set_prog_byte_offset (prog_byte_offset s + 1))
       else ret tt
     | PSDISPLAYSTATE_ACCEPTING_CMD =>
       modify (set_cmd data_byte) ;;
       (* Start of a command. Deassert done interrupt *)
       qemu_set_irq_intn true ;;
       match cmd_set s with
       | PSDISPLAY_CMD_SET_0 => ps_display_execute_current_cmd_set0
       | PSDISPLAY_CMD_SET_1 => ps_display_execute_current_cmd_set1
       | PSDISPLAY_CMD_SET_UNKNOWN =>
         fprintf_stderr MsgUnimplementedCmdSet ;; abort
       end
     | PSDISPLAYSTATE_ACCEPTING_PARAM => accept_param data_byte
     | PSDISPLAYSTATE_ACCEPTING_SCENE_BYTE =>
       modify (set_scene data_byte) ;;
       ps_display_execute_current_cmd_set0
     | PSDISPLAYSTATE_ACCEPTING_LINENO => accept_lineno data
     | PSDISPLAYSTATE_ACCEPTING_DATA => accept_data data
     end) ;;
    ret 0.

(** ** Renderer boundary *)

(** The conversion of the framebuffer to the host surface is the
    renderer's; what the controller sees is the redraw flag. *)
Definition ps_display_update_display : M unit :=
  s <- get ;;
  if negb (redraw s) then ret tt
  else emit GfxUpdate ;; modify (set_redraw false).

Definition ps_display_invalidate_display : M unit :=
  modify (set_redraw true).

(** ** Colour conversion and the pixel loop

    [ps_display_update_display] with what the renderer does: each
    framebuffer byte is converted to a colour and stored on the host
    surface at its depth. *)

Record PSDisplayPixelColor : Set := { red : Z; green : Z; blue : Z }.

(** Maps an 8 bit value from the frame buffer into red, green, and blue
    components; the fields of the result are [uint8_t]. *)
Definition ps_display_get_rgb (pixel_value : Z) : PSDisplayPixelColor :=
  {| red := u8 (Z.shiftr (Z.land pixel_value 0xC0) 6 * 255 / 3);
     green := u8 (Z.shiftr (Z.land pixel_value 0x30) 4 * 255 / 3);
     blue := u8 (Z.shiftr (Z.land pixel_value 0x0C) 2 * 255 / 3) |}.








(** ** Pins *)

Definition ps_display_set_cs (value : bool) : M Z :=
  modify (set_cs_value value) ;;
  s <- get ;;
  (* When CS goes up (unasserted), reset our state *)
  (if value then
     match state s with
     | PSDISPLAYSTATE_PROGRAMMING => ret tt
     | _ => ps_display_reset_state true
     end
   else ret tt) ;;
  ret 0.

(** Both callbacks serve a single gpio line ([n = 0]). *)
Definition ps_display_set_reset_pin_cb (level : Z) : M unit :=
  let value := negb (level =? 0) in
  qemu_set_irq_done false ;;
  (* When reset is asserted, reset our state *)
  if negb value then
    qemu_set_irq_intn true ;;
    modify (set_sclk_count_with_cs_high 0) ;;
    modify (set_state PSDISPLAYSTATE_PROGRAMMING) ;;
    modify (set_prog_byte_offset 0)
  else ret tt.

Definition ps_display_set_sclk_pin_cb (level : Z) : M unit :=
  let new_value := negb (level =? 0) in
  s <- get ;;
  (if cs_value s then
     (if new_value && negb (eqb new_value (sclk_value s)) then
        modify (set_sclk_count_with_cs_high
                  (u32 (sclk_count_with_cs_high s + 1)))
      else ret tt) ;;
     (* After enough cycles of sclck, say we are done with programming mode *)
     s <- get ;;
     if 50 <? sclk_count_with_cs_high s then
       qemu_set_irq_done true ;;
       match state s with
       | PSDISPLAYSTATE_PROGRAMMING =>
         ps_display_reset_state true ;;
         ps_display_determine_command_set
       | _ => ret tt
       end
     else ret tt
   else ret tt) ;;
  (* Save new value *)
  modify (set_sclk_value new_value).

(** ** The controller as a reactive system *)

Inductive input : Set :=
| InTransfer (data : Z)
| InSetCs (value : bool)
| InResetPin (level : Z)
| InSclkPin (level : Z)
| InGfxUpdate
| InInvalidate.

Definition step (i : input) : M unit :=
  match i with
  | InTransfer data => ps_display_transfer data ;; ret tt
  | InSetCs value => ps_display_set_cs value ;; ret tt
  | InResetPin level => ps_display_set_reset_pin_cb level
  | InSclkPin level => ps_display_set_sclk_pin_cb level
  | InGfxUpdate => ps_display_update_display
  | InInvalidate => ps_display_invalidate_display
  end.

Fixpoint run (inputs : list input) : M unit :=
  match inputs with
  | [] => ret tt
  | i :: rest => step i ;; run rest
  end.

(** The instance as the object system hands it over: zero-filled. *)
Definition initial_state : PSDisplayGlobals :=
  {| redraw := false;
     framebuffer := replicate (Z.to_nat FRAMEBUFFER_SIZE) 0;
     col_index := 0; row_index := 0;
     state := PSDISPLAYSTATE_PROGRAMMING;
     cmd := 0; parameter := 0; parameter_byte_offset := 0; scene := 0;
     sclk_value := false; cs_value := false; sclk_count_with_cs_high := 0;
     prog_header := replicate (Z.to_nat PROG_HEADER_SIZE) 0;
     prog_byte_offset := 0;
     cmd_set := PSDISPLAY_CMD_SET_UNKNOWN |}.

Inductive reachable : PSDisplayGlobals -> Prop :=
| reachable_init : reachable initial_state
| reachable_step s i s' out :
    reachable s -> step i s = Ok tt s' out -> reachable s'.

(** * Vocabulary of the properties

    Predicates on states and traces, reference functions and the concrete
    inputs used below, ahead of the lemmas that speak of them. *)

(** Chip-select asserted (low), accepting a command, under a given set. *)
Definition accepting_cmd_under (cs : PDisplayCmdSet) (s : PSDisplayGlobals) : Prop :=
  state s = PSDISPLAYSTATE_ACCEPTING_CMD /\ cmd_set s = cs /\ cs_value s = false.

(** A state on which [accepting_cmd_under cs] holds, for the examples. *)
Definition idle_state (cs : PDisplayCmdSet) : PSDisplayGlobals :=
  set_cmd_set cs (set_state PSDISPLAYSTATE_ACCEPTING_CMD initial_state).

(** [m] does not end in [abort()], on any state. *)
Definition never_aborts {A} (m : M A) : Prop :=
  forall s, faulted (m s) <> Some AbortCalled.

(** The two diagnostics of the detector. *)
Definition is_detector_warning (e : event) : Prop :=
  exists cs, e = Stderr (MsgUnknownDate cs) \/ e = Stderr (MsgNoDateString cs).

(** The state on which the scan runs: terminator written at the clamped
    offset, default command set selected. *)
Definition terminator_offset (s : PSDisplayGlobals) : Z :=
  if PROG_HEADER_SIZE <=? prog_byte_offset s
  then PROG_HEADER_SIZE - 1 else prog_byte_offset s.

Definition terminated_header (s : PSDisplayGlobals) : list Z :=
  <[Z.to_nat (terminator_offset s) := 0]> (prog_header s).

Definition before_scan (s : PSDisplayGlobals) : PSDisplayGlobals :=
  set_cmd_set PSDISPLAY_CMD_SET_1
    (set_prog_header (terminated_header s)
       (set_prog_byte_offset (terminator_offset s) s)).

(** Events of a trace that satisfy [p], and the three kinds counted. *)
Fixpoint count_events (p : event -> bool) (out : list event) : nat :=
  match out with
  | [] => 0
  | e :: rest => (if p e then 1 else 0) + count_events p rest
  end.

Definition is_done_raise (e : event) : bool :=
  match e with IrqDone true => true | _ => false end.

Definition is_done_lower (e : event) : bool :=
  match e with IrqDone false => true | _ => false end.

Definition is_detect (e : event) : bool :=
  match e with EnterDetermineCommandSet => true | _ => false end.

(** Callbacks of [ps_display_set_sclk_pin_cb] that the code counts as a
    rising clock transition, the clock last seen at [prev]. *)
Definition new_sclk_value (level : Z) : bool := negb (level =? 0).

Definition is_rising (prev : bool) (level : Z) : bool :=
  new_sclk_value level && negb (eqb (new_sclk_value level) prev).

Fixpoint rising_edges (prev : bool) (levels : list Z) : nat :=
  match levels with
  | [] => 0
  | level :: rest =>
    (if is_rising prev level then 1 else 0)
    + rising_edges (new_sclk_value level) rest
  end.

(** The counter as the callback leaves it. *)
Definition sclk_next_count (s : PSDisplayGlobals) (level : Z) : Z :=
  if is_rising (sclk_value s) level
  then u32 (sclk_count_with_cs_high s + 1)
  else sclk_count_with_cs_high s.

(** Rising edges that are enough to bring a counter at [c] above 50; the
    counter is a [uint32_t] and wraps. *)
Definition edges_needed (c : Z) : nat :=
  if c =? 4294967295 then 52
  else if 50 <? c then 1
  else Z.to_nat (51 - c).

(** [n] clock pulses: the level goes to 1 and back to 0. *)
Definition clock_pulses (n : nat) : list Z :=
  concat (replicate n [1; 0]).

(** The framebuffer after the bytes [ds] are stored up column [col],
    the first at row [row], each next one a row higher on screen. *)
Fixpoint write_column (fb : list Z) (col row : Z) (ds : list Z) : list Z :=
  match ds with
  | [] => fb
  | d :: rest =>
    write_column
      (<[Z.to_nat (row * SNOWY_BYTES_PER_ROW + col) := d mod 256]> fb)
      col (row - 1) rest
  end.

(** Where pixel [i] of the 128 x 32 splash bitmap lands (row-major, at
    offset (8, 68)), and its colour when bit [i mod 8] of byte [i / 8]
    is read with bit 0 the least significant. *)
Definition splash_index (i : Z) : Z :=
  (68 + i / 128) * SNOWY_BYTES_PER_ROW + (8 + i mod 128).

Definition lsb_first_color (bits : list Z) (i : Z) : Z :=
  if Z.testbit (nth (Z.to_nat (i / 8)) bits 0) (i mod 8)
  then SNOWY_COLOR_RED else SNOWY_COLOR_BLACK.

(** The colour under the reading the claim gives: bit 7 first. *)
Definition msb_first_color (bits : list Z) (i : Z) : Z :=
  if Z.testbit (nth (Z.to_nat (i / 8)) bits 0) (7 - i mod 8)
  then SNOWY_COLOR_RED else SNOWY_COLOR_BLACK.

(** No NUL among the bytes of [l]. *)
Definition nul_free (l : list Z) : Prop := Forall (fun c => c <> 0) l.

(** [l] begins with the bytes of the literal [lit]. *)
Definition starts_with (lit : string) (l : list Z) : Prop :=
  take (length (c_str lit)) l = c_str lit.

(** The positions the scan visits in the header [hdr] with [off] bytes:
    index 2, then the byte after the NUL of each string that does not
    begin with the marker. *)
Inductive scanned (hdr : list Z) (off : Z) : Z -> Prop :=
| scanned_first : 2 < off -> scanned hdr off 2
| scanned_next i :
    scanned hdr off i ->
    strncmp (drop (Z.to_nat i) hdr) (c_str "Date:") 5 <> 0 ->
    i + strlen (drop (Z.to_nat i) hdr) + 1 < off ->
    scanned hdr off (i + strlen (drop (Z.to_nat i) hdr) + 1).

(** The state a run of inputs from power-on ends in. *)
Definition state_after (inputs : list input) : PSDisplayGlobals :=
  default initial_state (final_state (run inputs initial_state)).

(** The controller after a reset and the capture of [bytes]. *)
Definition capture (bytes : list Z) : PSDisplayGlobals :=
  state_after (InResetPin 0 :: map InTransfer bytes).

(** A full capture of 256 bytes that ends with the signature of command
    set 0, and the controller that captured it. *)
Definition header_with_signature_at_end : list Z :=
  [0xFF; 0x00] ++ replicate 230 0x41 ++ [0x00]
  ++ c_str "Date: Dec 10 2014 08:30".

Definition captured_signature_at_end : PSDisplayGlobals :=
  capture header_with_signature_at_end.

(** The programming header quoted in the source; one with a date the
    table lacks; one with no date at all. *)
Definition header_dec_2014 : list Z :=
  [0xFF; 0x00] ++ c_str "Lattice" ++ [0x00]
  ++ c_str "iCEcube2 2014.08.26723" ++ [0x00]
  ++ c_str "Part: iCE40LP1K-CM36" ++ [0x00]
  ++ c_str "Date: Dec 10 2014 08:30:" ++ [0x00; 0xFF]
  ++ c_str "18" ++ [0x00; 0x7E; 0xAA; 0x99; 0x7E; 0x51].

Definition header_unknown_date : list Z :=
  [0xFF; 0x00] ++ c_str "Date: Jan 01 2015 00:00:" ++ [0x00; 0x7E].

Definition header_no_date : list Z :=
  [0xFF; 0x00] ++ c_str "Lattice" ++ [0x00].

(** What every reachable state satisfies: the column cursor addresses a
    column of the display, a scene byte is awaited only for the draw-scene
    command of command set 0, and outside programming mode a command set
    has been selected. *)
Definition controller_invariant (s : PSDisplayGlobals) : Prop :=
  0 <= col_index s < SNOWY_NUM_COLS /\
  (state s = PSDISPLAYSTATE_ACCEPTING_SCENE_BYTE ->
   cmd s = PSDISPLAYCMD0_DRAW_SCENE /\ cmd_set s = PSDISPLAY_CMD_SET_0) /\
  (state s <> PSDISPLAYSTATE_PROGRAMMING ->
   cmd_set s <> PSDISPLAY_CMD_SET_UNKNOWN).

(** The diagnostic of the draw-scene handler run in a state other than
    accepting-command or accepting-scene-byte does not occur in [out]. *)
Definition no_wrong_state (out : list event) : Prop :=
  forall st, ~ In (Stderr (MsgWrongState st)) out.

(** Power-on, the programming header of the December 2014 boot ROM (or
    none), chip-select raised, 51 clock pulses, chip-select lowered. *)
Definition boot (header : list Z) : list input :=
  InResetPin 0 :: map InTransfer header
  ++ InSetCs true :: map InSclkPin (clock_pulses 51) ++ [InSetCs false].

(** ** Vocabulary of the further properties *)

(** The byte a transfer delivers: [data & 0x00FF]. *)
Definition data_byte (data : Z) : Z := Z.land (u32 data) 0x00FF.

(** The decoder back at the start of a command: what
    [ps_display_reset_state] leaves of [s]. *)
Definition command_done (s : PSDisplayGlobals) : PSDisplayGlobals :=
  set_parameter_byte_offset 0 (set_state PSDISPLAYSTATE_ACCEPTING_CMD s).

(** The diagnostics of [n] bytes received while chip-select is high:
    none in programming mode, one per byte otherwise. *)
Definition deselected_warnings (s : PSDisplayGlobals) (n : nat) : list event :=
  match state s with
  | PSDISPLAYSTATE_PROGRAMMING => []
  | _ => replicate n (Stderr MsgDataWithoutCS)
  end.

(** Opcodes that have a case in the [switch (s->cmd)] of a command set. *)
Definition supported_opcode (cmds : PDisplayCmdSet) (b : Z) : bool :=
  match cmds with
  | PSDISPLAY_CMD_SET_UNKNOWN => false
  | PSDISPLAY_CMD_SET_0 => b <=? PSDISPLAYCMD0_DRAW_SCENE
  | PSDISPLAY_CMD_SET_1 => b <=? PSDISPLAYCMD1_FRAME_END
  end.

(** The state a completed draw-scene command leaves, the framebuffer
    apart. *)
Definition scene_drawn (sc : Z) (s : PSDisplayGlobals) : PSDisplayGlobals :=
  set_redraw true
    (command_done (set_scene sc (set_cmd PSDISPLAYCMD0_DRAW_SCENE s))).

(** The decoder invariant: while parameter bytes are awaited fewer than
    four have been taken, and the framebuffer keeps its size. *)
Definition decoder_invariant (s : PSDisplayGlobals) : Prop :=
  (state s = PSDISPLAYSTATE_ACCEPTING_PARAM -> 0 <= parameter_byte_offset s < 4) /\
  Z.of_nat (length (framebuffer s)) = FRAMEBUFFER_SIZE.

(** The diagnostic of a fifth parameter byte does not occur in [out]. *)
Definition no_param_overflow (out : list event) : Prop :=
  ~ In (Stderr MsgTooManyParamBytes) out.

Definition keeps_decoder_invariant {A} (r : outcome A) : Prop :=
  match r with
  | Ok _ s' out => decoder_invariant s' /\ no_param_overflow out
  | Fault _ _ => True
  end.

(** A column as it is sent on the bus: its index, then the bytes of the
    bottom padding, of the visible rows (bottom row first) and of the top
    padding, the last of which closes the line. *)
Record column : Type := {
  col_no : Z;
  col_bottom : list Z;
  col_visible : list Z;
  col_top : list Z
}.

Definition column_bytes (k : column) : list Z :=
  col_no k :: col_bottom k ++ col_visible k ++ col_top k.

Definition valid_column (k : column) : Prop :=
  0 <= col_no k < SNOWY_NUM_COLS /\
  Z.of_nat (length (col_bottom k)) = SNOWY_ROWS_SKIPPED_AT_BOTTOM /\
  Z.of_nat (length (col_visible k)) = SNOWY_NUM_ROWS /\
  Z.of_nat (length (col_top k)) = SNOWY_ROWS_SKIPPED_AT_TOP.

(** The framebuffer with the visible bytes of [k] stored up its column. *)
Definition store_column (fb : list Z) (k : column) : list Z :=
  write_column fb (col_no k) (SNOWY_NUM_ROWS - 1) (col_visible k).

(** The interrupt line over one column: busy at the index byte, done at
    the closing byte. *)
Definition column_events (k : column) : list event :=
  [IrqIntn true; IrqIntn false].

(** Frame-data mode, what a byte received in it may change of [s], and
    what it may emit. *)
Definition in_frame_data (s : PSDisplayGlobals) : Prop :=
  state s = PSDISPLAYSTATE_ACCEPTING_LINENO \/
  state s = PSDISPLAYSTATE_ACCEPTING_DATA.

Definition frame_data_update (fb : list Z) (c r : Z) (st : PSDisplayState)
    (s : PSDisplayGlobals) : PSDisplayGlobals :=
  set_state st (set_row_index r (set_col_index c (set_framebuffer fb s))).

Definition is_frame_data_event (e : event) : Prop :=
  e = IrqIntn true \/ e = IrqIntn false \/
  exists v, e = Stderr (MsgInvalidColumn v).

(** One frame under command set 1: FrameBegin, FrameData, the columns,
    a chip-select pulse, FrameEnd, and the next display refresh. *)
Definition frame_script (cols : list column) : list input :=
  map InTransfer
    (PSDISPLAYCMD1_FRAME_BEGIN :: PSDISPLAYCMD1_FRAME_DATA
     :: concat (map column_bytes cols))
  ++ [InSetCs true; InSetCs false; InTransfer PSDISPLAYCMD1_FRAME_END;
      InGfxUpdate].

(** The clock level the controller remembers after the callbacks
    [levels], having started from [prev]. *)
Definition last_sclk_value (prev : bool) (levels : list Z) : bool :=
  fold_left (fun _ level => new_sclk_value level) levels prev.

(** Two byte strings that agree up to and including a NUL at index [m]. *)
Definition same_c_string (l1 l2 : list Z) (m : nat) : Prop :=
  l1 !! m = Some 0 /\ forall j : nat, (j <= m)%nat -> l1 !! j = l2 !! j.

(** What the caller of the detector observes of its outcome. *)
Definition verdict (r : outcome unit) : option PDisplayCmdSet * list event :=
  (option_map cmd_set (final_state r), events r).

(** Where pixel [i] of a bitmap [width] wide lands when it is drawn at
    ([x_offset], [y_offset]), and the index the code computes for it,
    its coordinates cut to 8 bits. *)
Definition blit_index (x_offset y_offset width i : Z) : Z :=
  (y_offset + i / width) * SNOWY_BYTES_PER_ROW + (x_offset + i mod width).

Definition blit_store_index (x_offset y_offset width i : Z) : Z :=
  u8 (y_offset + i / width) * SNOWY_BYTES_PER_ROW + u8 (x_offset + i mod width).

(** The bitmap rectangle lies on the screen and [bits] holds all of its
    pixels. *)
Definition blit_fits (bits : list Z) (x_offset y_offset width height : Z) : Prop :=
  0 <= x_offset /\ 0 <= y_offset /\ 0 < width /\ 0 <= height /\
  x_offset + width <= SNOWY_NUM_COLS /\ y_offset + height <= SNOWY_NUM_ROWS /\
  width * height <= 8 * Z.of_nat (length bits).



(** The values of a byte, and equality of colours as a test. *)
Definition byte_values : list Z := map Z.of_nat (seq 0 256).

Definition color_eqb (a b : PSDisplayPixelColor) : bool :=
  (red a =? red b) && (green a =? green b) && (blue a =? blue b).



Definition example_column (c : Z) : column :=
  {| col_no := c;
     col_bottom := replicate 16 0xAA;
     col_visible := map Z.of_nat (seq 0 172);
     col_top := replicate 17 0xBB |}.

Definition capture_with_stale_bytes : PSDisplayGlobals :=
  set_prog_header
    (<[0%nat := 0x55]> (<[200%nat := 0x44]> (prog_header (capture header_dec_2014))))
    (capture header_dec_2014).

(** * Properties *)

(** ** Symbolic execution helpers *)

(** Large constants stay folded under [simpl]. *)
Arguments replicate : simpl never.
Arguments ps_display_draw_bitmap : simpl never.
Arguments Z.to_nat : simpl never.

Lemma bind_Ok {A B} (m : M A) (k : A -> M B) s a s1 o1 :
  m s = Ok a s1 o1 ->
  bind m k s =
    match k a s1 with
    | Ok b s2 o2 => Ok b s2 (o1 ++ o2)
    | Fault f o2 => Fault f (o1 ++ o2)
    end.
Proof. intros H. unfold bind. rewrite H. reflexivity. Qed.

Lemma run_app xs ys s :
  run (xs ++ ys) s = (run xs ;; run ys) s.
Proof.
  revert s. induction xs as [|x xs IH]; intros s.
  - simpl. destruct (run ys s); reflexivity.
  - simpl. destruct (step x s) as [[] s1 o1|f o1]; [|reflexivity].
    rewrite IH. simpl.
    destruct (run xs s1) as [[] s2 o2|f o2]; [|reflexivity].
    destruct (run ys s2) as [[] s3 o3|f o3]; rewrite ?app_assoc; reflexivity.
Qed.

(** A state known to accept commands, as a record of its fields. *)
Ltac concrete_state s H :=
  destruct H as (?Hst & ?Hset & ?Hcs);
  destruct s as [rd fb col row st c p po sc sv cs cnt hdr off cset];
  cbn [state cmd_set cs_value] in *|-; subst.

(** ** The parameter accumulator *)

(** A value below [2 ^ n] and a value shifted left by [n] share no bit. *)
Lemma lor_shiftl_add low hi n :
  0 <= n -> 0 <= low < 2 ^ n ->
  Z.lor low (Z.shiftl hi n) = low + hi * 2 ^ n.
Proof.
  intros Hn Hlow.
  assert (Hdisj : Z.land low (Z.shiftl hi n) = 0).
  { apply Z.bits_inj'. intros m Hm. rewrite Z.land_spec, Z.bits_0.
    destruct (Z.lt_ge_cases m n) as [Hlt|Hge].
    - rewrite (Z.shiftl_spec_low hi n m Hlt). apply andb_false_r.
    - destruct (Z.eq_dec low 0) as [->|Hne]; [rewrite Z.bits_0; reflexivity|].
      rewrite (Z.bits_above_log2 low m); [reflexivity|lia|].
      apply Z.log2_lt_pow2; [lia|].
      apply Z.lt_le_trans with (2 ^ n); [lia|].
      apply Z.pow_le_mono_r; lia. }
  rewrite <- Z.lxor_lor, <- Z.add_nocarry_lxor by exact Hdisj.
  rewrite Z.shiftl_mul_pow2 by exact Hn. reflexivity.
Qed.

Lemma land_low_mask x n : 0 <= n -> 0 <= x < 2 ^ n -> Z.land x (Z.ones n) = x.
Proof. intros Hn Hx. rewrite Z.land_ones by exact Hn. apply Z.mod_small, Hx. Qed.

(** The four masked stores of the parameter branch, in sequence. *)
Lemma parameter_bytes p b0 b1 b2 b3 :
  0 <= b0 < 256 -> 0 <= b1 < 256 -> 0 <= b2 < 256 -> 0 <= b3 < 256 ->
  Z.lor (Z.land (Z.lor (Z.land (Z.lor (Z.land (Z.lor (Z.land p 0xFFFFFF00) b0)
    0xFFFF00FF) (Z.shiftl b1 8)) 0xFF00FFFF) (Z.shiftl b2 16)) 0x00FFFFFF)
    (Z.shiftl b3 24)
  = b0 + 256 * b1 + 65536 * b2 + 16777216 * b3.
Proof.
  intros H0 H1 H2 H3.
  rewrite !Z.land_lor_distr_l, <- !Z.land_assoc.
  change (Z.land 0xFFFFFF00 (Z.land 0xFFFF00FF (Z.land 0xFF00FFFF 0x00FFFFFF)))
    with 0.
  change (Z.land 0xFFFF00FF (Z.land 0xFF00FFFF 0x00FFFFFF)) with (Z.ones 8).
  change (Z.land 0xFF00FFFF 0x00FFFFFF) with (Z.ones 16).
  change 0x00FFFFFF with (Z.ones 24).
  rewrite Z.land_0_r, Z.lor_0_l.
  assert (E1 : Z.shiftl b1 8 = b1 * 256) by (apply Z.shiftl_mul_pow2; lia).
  assert (E2 : Z.shiftl b2 16 = b2 * 65536) by (apply Z.shiftl_mul_pow2; lia).
  rewrite (land_low_mask b0 8) by (change (2 ^ 8) with 256; lia).
  rewrite (land_low_mask (Z.shiftl b1 8) 16)
    by (rewrite ?E1; change (2 ^ 16) with 65536; lia).
  rewrite (land_low_mask (Z.shiftl b2 16) 24)
    by (rewrite ?E2; change (2 ^ 24) with 16777216; lia).
  rewrite (lor_shiftl_add b0 b1 8) by (change (2 ^ 8) with 256; lia).
  rewrite (lor_shiftl_add _ b2 16)
    by (change (2 ^ 8) with 256; change (2 ^ 16) with 65536; lia).
  rewrite (lor_shiftl_add _ b3 24)
    by (change (2 ^ 8) with 256; change (2 ^ 16) with 65536;
        change (2 ^ 24) with 16777216; lia).
  change (2 ^ 8) with 256; change (2 ^ 16) with 65536;
    change (2 ^ 24) with 16777216. lia.
Qed.

Lemma data_byte_range d : 0 <= Z.land (u32 d) 255 < 256.
Proof.
  change 255 with (Z.ones 8). rewrite Z.land_ones by lia.
  change (2 ^ 8) with 256. apply Z.mod_pos_bound. reflexivity.
Qed.

(** Four parameter bytes are assembled first byte least significant. *)
Lemma set_parameter_little_endian s d0 d1 d2 d3 :
  accepting_cmd_under PSDISPLAY_CMD_SET_0 s ->
  option_map parameter
    (final_state
       (run (map InTransfer [PSDISPLAYCMD0_SET_PARAMETER; d0; d1; d2; d3]) s))
  = Some (Z.land (u32 d0) 255 + 256 * Z.land (u32 d1) 255
          + 65536 * Z.land (u32 d2) 255 + 16777216 * Z.land (u32 d3) 255).
Proof.
  intros H. concrete_state s H.
  etransitivity;
    [|apply f_equal,
        (parameter_bytes p _ _ _ _ (data_byte_range d0)
           (data_byte_range d1) (data_byte_range d2) (data_byte_range d3))].
  reflexivity.
Qed.

(** C3. Under the Legacy dialect (command set 0), from the
    accepting-command state with chip-select asserted, the SetParameter
    opcode followed by the bytes 0x01, 0x02, 0x03, 0x04 leaves 0x04030201
    in the parameter accumulator whatever it held before (first byte least
    significant).  The done interrupt is deasserted by the opcode, stays so
    through the third parameter byte, and is asserted by the fourth, which
    also returns the decoder to the accepting-command state. *)
Theorem C3_set_parameter_little_endian (s : PSDisplayGlobals) :
  accepting_cmd_under PSDISPLAY_CMD_SET_0 s ->
  let upto3 :=
    run (map InTransfer [PSDISPLAYCMD0_SET_PARAMETER; 0x01; 0x02; 0x03]) s in
  let upto4 :=
    run (map InTransfer [PSDISPLAYCMD0_SET_PARAMETER; 0x01; 0x02; 0x03; 0x04]) s in
  events upto3 = [IrqIntn true] /\
  option_map state (final_state upto3) = Some PSDISPLAYSTATE_ACCEPTING_PARAM /\
  events upto4 = [IrqIntn true; IrqIntn false] /\
  option_map parameter (final_state upto4) = Some 0x04030201 /\
  option_map state (final_state upto4) = Some PSDISPLAYSTATE_ACCEPTING_CMD.
Proof.
  intros H upto3 upto4. subst upto3 upto4.
  pose proof (set_parameter_little_endian s 0x01 0x02 0x03 0x04 H) as Hpar.
  concrete_state s H. repeat split; try reflexivity. exact Hpar.
Qed.

(** C3 at the idle state of command set 0 over the power-on record. *)
Lemma C3_set_parameter_little_endian_witness :
  accepting_cmd_under PSDISPLAY_CMD_SET_0 (idle_state PSDISPLAY_CMD_SET_0) /\
  option_map parameter
    (final_state
       (run (map InTransfer [PSDISPLAYCMD0_SET_PARAMETER; 0x01; 0x02; 0x03; 0x04])
            (idle_state PSDISPLAY_CMD_SET_0)))
  = Some 0x04030201.
Proof.
  assert (H : accepting_cmd_under PSDISPLAY_CMD_SET_0 (idle_state PSDISPLAY_CMD_SET_0))
    by (repeat split; reflexivity).
  split; [exact H|].
  exact (proj1 (proj2 (proj2 (proj2
    (C3_set_parameter_little_endian (idle_state PSDISPLAY_CMD_SET_0) H))))).
Defined.

(** ** The draw-scene command *)

(** C4. Under the Legacy dialect, from the accepting-command state with
    chip-select asserted, the DrawScene opcode followed by the Black scene
    byte leaves a framebuffer of [FRAMEBUFFER_SIZE] bytes that are all the
    black encoding, sets the redraw (dirty) flag, asserts the done
    interrupt after the scene byte and returns the decoder to the
    accepting-command state. *)
Theorem C4_draw_scene_black (s : PSDisplayGlobals) :
  accepting_cmd_under PSDISPLAY_CMD_SET_0 s ->
  let r :=
    run (map InTransfer [PSDISPLAYCMD0_DRAW_SCENE; PSDISPLAYSCENE_BLACK]) s in
  (exists fb : list Z,
      option_map framebuffer (final_state r) = Some fb /\
      Z.of_nat (length fb) = FRAMEBUFFER_SIZE /\
      forall i : nat, (i < length fb)%nat -> fb !! i = Some SNOWY_COLOR_BLACK) /\
  option_map redraw (final_state r) = Some true /\
  events r = [IrqIntn true; IrqIntn false] /\
  option_map state (final_state r) = Some PSDISPLAYSTATE_ACCEPTING_CMD /\
  events (run (map InTransfer [PSDISPLAYCMD0_DRAW_SCENE]) s) = [IrqIntn true].
Proof.
  intros H r. subst r. concrete_state s H.
  repeat split; try reflexivity.
  exists (replicate (Z.to_nat FRAMEBUFFER_SIZE) SNOWY_COLOR_BLACK).
  split; [reflexivity|]. rewrite length_replicate. split.
  - rewrite Z2Nat.id; [reflexivity|]. discriminate.
  - intros i Hi. apply lookup_replicate_2. exact Hi.
Qed.

(** C4 at the idle state of command set 0 over the power-on record. *)
Lemma C4_draw_scene_black_witness :
  accepting_cmd_under PSDISPLAY_CMD_SET_0 (idle_state PSDISPLAY_CMD_SET_0) /\
  option_map redraw
    (final_state
       (run (map InTransfer [PSDISPLAYCMD0_DRAW_SCENE; PSDISPLAYSCENE_BLACK])
            (idle_state PSDISPLAY_CMD_SET_0)))
  = Some true.
Proof.
  assert (H : accepting_cmd_under PSDISPLAY_CMD_SET_0 (idle_state PSDISPLAY_CMD_SET_0))
    by (repeat split; reflexivity).
  split; [exact H|].
  exact (proj1 (proj2
    (C4_draw_scene_black (idle_state PSDISPLAY_CMD_SET_0) H))).
Defined.

(** ** Absence of [abort()] *)

Create HintDb psd.

Lemma never_aborts_ret {A} (a : A) : never_aborts (ret a).
Proof. intros s. discriminate. Qed.

Lemma never_aborts_get : never_aborts get.
Proof. intros s. discriminate. Qed.

Lemma never_aborts_modify f : never_aborts (modify f).
Proof. intros s. discriminate. Qed.

Lemma never_aborts_emit e : never_aborts (emit e).
Proof. intros s. discriminate. Qed.

Lemma never_aborts_raise {A} f : f <> AbortCalled -> never_aborts (@raise A f).
Proof. intros Hf s. simpl. congruence. Qed.

Lemma never_aborts_bind {A B} (m : M A) (k : A -> M B) :
  never_aborts m -> (forall a, never_aborts (k a)) -> never_aborts (bind m k).
Proof.
  intros Hm Hk s. specialize (Hm s). unfold bind.
  destruct (m s) as [a s1 o1|f o1]; [|exact Hm].
  specialize (Hk a s1). destruct (k a s1); [discriminate|exact Hk].
Qed.

Lemma never_aborts_if {A} (b : bool) (m1 m2 : M A) :
  never_aborts m1 -> never_aborts m2 -> never_aborts (if b then m1 else m2).
Proof. destruct b; auto. Qed.

Lemma never_aborts_fb_store idx v : never_aborts (fb_store idx v).
Proof. intros s. unfold fb_store. destruct (_ && _); discriminate. Qed.

#[export] Hint Resolve never_aborts_ret never_aborts_get never_aborts_modify
  never_aborts_emit never_aborts_bind never_aborts_if never_aborts_fb_store
  : psd.
#[export] Hint Extern 1 (never_aborts (raise _)) =>
  apply never_aborts_raise; discriminate : psd.
#[export] Hint Extern 1 (never_aborts (qemu_set_irq_intn _)) =>
  apply never_aborts_emit : psd.
#[export] Hint Extern 1 (never_aborts (qemu_set_irq_done _)) =>
  apply never_aborts_emit : psd.
#[export] Hint Extern 1 (never_aborts (fprintf_stderr _)) =>
  apply never_aborts_emit : psd.
#[export] Hint Extern 1 (never_aborts (fb_memset _)) =>
  apply never_aborts_modify : psd.
#[export] Hint Extern 2 (never_aborts (match ?x with _ => _ end)) =>
  destruct x : psd.

Lemma never_aborts_reset_state b : never_aborts (ps_display_reset_state b).
Proof. unfold ps_display_reset_state. auto 8 with psd. Qed.
#[export] Hint Resolve never_aborts_reset_state : psd.

Lemma never_aborts_set_pixel x y v : never_aborts (ps_display_set_pixel x y v).
Proof. unfold ps_display_set_pixel. auto with psd. Qed.
#[export] Hint Resolve never_aborts_set_pixel : psd.

Lemma never_aborts_draw_bitmap_loop n bits xo yo w i :
  never_aborts (draw_bitmap_loop n bits xo yo w i).
Proof.
  revert i. induction n as [|n IH]; intros i; simpl; [auto with psd|].
  apply never_aborts_bind; [|auto].
  unfold draw_bitmap_pixel. auto with psd.
Qed.

Lemma never_aborts_draw_scene sc : never_aborts (draw_scene sc).
Proof.
  unfold draw_scene, ps_display_draw_bitmap.
  auto 10 using never_aborts_draw_bitmap_loop with psd.
Qed.
#[export] Hint Resolve never_aborts_draw_scene : psd.

Lemma never_aborts_execute_current_cmd_set0 :
  never_aborts ps_display_execute_current_cmd_set0.
Proof. unfold ps_display_execute_current_cmd_set0. auto 12 with psd. Qed.

Lemma never_aborts_execute_current_cmd_set1 :
  never_aborts ps_display_execute_current_cmd_set1.
Proof. unfold ps_display_execute_current_cmd_set1. auto 10 with psd. Qed.

Lemma never_aborts_accept_param b : never_aborts (accept_param b).
Proof. unfold accept_param. auto 12 with psd. Qed.

Lemma never_aborts_accept_lineno d : never_aborts (accept_lineno d).
Proof. unfold accept_lineno. auto 12 with psd. Qed.

Lemma never_aborts_accept_data d : never_aborts (accept_data d).
Proof. unfold accept_data. auto 12 with psd. Qed.

#[export] Hint Resolve never_aborts_execute_current_cmd_set0
  never_aborts_execute_current_cmd_set1 never_aborts_accept_param
  never_aborts_accept_lineno never_aborts_accept_data : psd.

Lemma faulted_bind_get {B} (k : PSDisplayGlobals -> M B) s :
  faulted (bind get k s) = faulted (k s s).
Proof. simpl. destruct (k s s); reflexivity. Qed.

Lemma ps_display_transfer_unknown_set (s : PSDisplayGlobals) (d : Z) :
  accepting_cmd_under PSDISPLAY_CMD_SET_UNKNOWN s ->
  ps_display_transfer d s
  = Fault AbortCalled [IrqIntn true; Stderr MsgUnimplementedCmdSet].
Proof.
  intros (Hst & Hset & Hcs). unfold ps_display_transfer. simpl.
  rewrite Hcs, Hst, Hset. reflexivity.
Qed.

Lemma ps_display_transfer_known_set (s : PSDisplayGlobals) (d : Z) :
  cmd_set s <> PSDISPLAY_CMD_SET_UNKNOWN ->
  faulted (ps_display_transfer d s) <> Some AbortCalled.
Proof.
  intros Hset. unfold ps_display_transfer. cbv zeta.
  rewrite faulted_bind_get. destruct (cs_value s).
  - apply never_aborts_bind; [destruct (state s)|]; auto with psd.
  - apply never_aborts_bind; [|auto with psd].
    destruct (state s); auto 8 with psd.
    destruct (cmd_set s); [contradiction| |]; auto 8 with psd.
Qed.

(** C9. A byte received (chip-select asserted) in the accepting-command
    state while the command set is still unknown makes the transfer call
    [abort()], after the done interrupt has been deasserted and the
    diagnostic written, and no command is executed.  Under command set 0
    or 1 a transfer never calls [abort()], in whatever state and for
    whatever byte. *)
Theorem C9_abort_iff_unknown_command_set :
  (forall s d,
      accepting_cmd_under PSDISPLAY_CMD_SET_UNKNOWN s ->
      ps_display_transfer d s
      = Fault AbortCalled [IrqIntn true; Stderr MsgUnimplementedCmdSet]) /\
  (forall s d,
      cmd_set s <> PSDISPLAY_CMD_SET_UNKNOWN ->
      faulted (ps_display_transfer d s) <> Some AbortCalled).
Proof.
  split.
  - exact ps_display_transfer_unknown_set.
  - exact ps_display_transfer_known_set.
Qed.

(** C9 on the DrawScene opcode: with the command set unknown, and under
    command set 0. *)
Lemma C9_abort_iff_unknown_command_set_witness :
  ps_display_transfer PSDISPLAYCMD0_DRAW_SCENE
    (idle_state PSDISPLAY_CMD_SET_UNKNOWN)
  = Fault AbortCalled [IrqIntn true; Stderr MsgUnimplementedCmdSet] /\
  faulted (ps_display_transfer PSDISPLAYCMD0_DRAW_SCENE
             (idle_state PSDISPLAY_CMD_SET_0)) <> Some AbortCalled.
Proof.
  split.
  - apply (proj1 C9_abort_iff_unknown_command_set).
    repeat split; reflexivity.
  - apply (proj2 C9_abort_iff_unknown_command_set).
    simpl. discriminate.
Defined.

(** ** The clock counter *)

(** The claim of C8 that lowering chip-select clears the counter fails:
    raise chip-select during programming, clock once, lower chip-select;
    the counter still reads 1. *)
Lemma C8_count_survives_chip_select_low :
  let r := run [InSetCs true; InSclkPin 1; InSetCs false] initial_state in
  option_map cs_value (final_state r) = Some false /\
  option_map sclk_count_with_cs_high (final_state r) = Some 1 /\
  option_map sclk_count_with_cs_high (final_state r) <> Some 0.
Proof. repeat split; try reflexivity. simpl. discriminate. Qed.

(** C8 (amended). [sclk_count_with_cs_high] is cleared by the reset-pin
    callback when the pin is driven to 0 (asserted); a reset-pin callback
    with a non-zero level and every chip-select change, to either level,
    leave the counter as it was. *)
Theorem C8_count_cleared_by_reset_only (s : PSDisplayGlobals) :
  (forall level,
     option_map sclk_count_with_cs_high
       (final_state (ps_display_set_reset_pin_cb level s))
     = Some (if level =? 0 then 0 else sclk_count_with_cs_high s)) /\
  (forall value,
     option_map sclk_count_with_cs_high
       (final_state (ps_display_set_cs value s))
     = Some (sclk_count_with_cs_high s)).
Proof.
  split.
  - intros level. unfold ps_display_set_reset_pin_cb.
    destruct (level =? 0); reflexivity.
  - intros value. unfold ps_display_set_cs. simpl.
    destruct value; [destruct (state s)|]; reflexivity.
Qed.

(** ** The command-set detector terminates *)

Lemma strlen_nonneg l : 0 <= strlen l.
Proof.
  induction l as [|c l IH]; simpl; [lia|]. destruct (c =? 0); lia.
Qed.

Lemma set_cmd_set_same s : set_cmd_set (cmd_set s) s = s.
Proof. destruct s; reflexivity. Qed.

Lemma bind_get_eq {B} (k : PSDisplayGlobals -> M B) s : bind get k s = k s s.
Proof. unfold bind, get. destruct (k s s); reflexivity. Qed.

(** One iteration of the scan. *)
Lemma scan_prog_header_S fuel i s :
  scan_prog_header (S fuel) i s =
    if i <? prog_byte_offset s then
      let str_p := drop (Z.to_nat i) (prog_header s) in
      if strncmp str_p (c_str "Date:") 5 =? 0 then
        match find_cmd_set str_p cmd_sets with
        | Some cs => Ok tt (set_cmd_set cs s) []
        | None => Ok tt s [Stderr (MsgUnknownDate (cmd_set s))]
        end
      else scan_prog_header fuel (i + strlen str_p + 1) s
    else Ok tt s [Stderr (MsgNoDateString (cmd_set s))].
Proof.
  unfold scan_prog_header; fold scan_prog_header.
  rewrite bind_get_eq. cbv zeta.
  destruct (i <? prog_byte_offset s); [|reflexivity].
  destruct (strncmp _ _ 5 =? 0); [|reflexivity].
  destruct (find_cmd_set _ _); reflexivity.
Qed.

(** With fuel beyond the distance to the end of the captured bytes the
    scan returns; it changes nothing but [cmd_set] and emits nothing but
    diagnostics. *)
Lemma find_cmd_set_in_table l cs :
  find_cmd_set l cmd_sets = Some cs ->
  cs = PSDISPLAY_CMD_SET_0 \/ cs = PSDISPLAY_CMD_SET_1.
Proof.
  unfold cmd_sets, find_cmd_set.
  repeat match goal with
         | |- context [if ?c then _ else _] => destruct c
         end; intros [= <-]; auto.
Qed.

Lemma scan_prog_header_total fuel : forall i s,
  prog_byte_offset s - i < Z.of_nat fuel -> (0 < fuel)%nat ->
  exists cs out,
    scan_prog_header fuel i s = Ok tt (set_cmd_set cs s) out /\
    Forall is_detector_warning out /\
    (cs = cmd_set s \/ cs = PSDISPLAY_CMD_SET_0 \/ cs = PSDISPLAY_CMD_SET_1).
Proof.
  induction fuel as [|fuel IH]; intros i s Hd Hpos; [lia|].
  rewrite scan_prog_header_S. cbv zeta.
  destruct (Z.ltb_spec i (prog_byte_offset s)) as [Hlt|Hge].
  - destruct (strncmp _ _ 5 =? 0).
    + destruct (find_cmd_set _ _) as [cs|] eqn:Hfind.
      * exists cs, []. split; [reflexivity|]. split; [constructor|].
        right. exact (find_cmd_set_in_table _ _ Hfind).
      * exists (cmd_set s), [Stderr (MsgUnknownDate (cmd_set s))].
        rewrite set_cmd_set_same. split; [reflexivity|]. split; [|auto].
        repeat constructor. eexists; left; reflexivity.
    + pose proof (strlen_nonneg (drop (Z.to_nat i) (prog_header s))).
      destruct (IH (i + strlen (drop (Z.to_nat i) (prog_header s)) + 1) s)
        as (cs & out & Heq & Hout); [lia|lia|].
      exists cs, out. rewrite Heq. split; [reflexivity|exact Hout].
  - exists (cmd_set s), [Stderr (MsgNoDateString (cmd_set s))].
    rewrite set_cmd_set_same. split; [reflexivity|]. split; [|auto].
    repeat constructor. eexists; right; reflexivity.
Qed.

Lemma ps_display_determine_command_set_eq s :
  ps_display_determine_command_set s =
    match scan_prog_header (Z.to_nat PROG_HEADER_SIZE) 2 (before_scan s) with
    | Ok _ s' out => Ok tt s' (EnterDetermineCommandSet :: out)
    | Fault f out => Fault f (EnterDetermineCommandSet :: out)
    end.
Proof.
  unfold ps_display_determine_command_set, before_scan, terminated_header,
    terminator_offset.
  unfold bind at 1. unfold emit at 1. rewrite bind_get_eq.
  destruct s as [? ? ? ? ? ? ? ? ? ? ? ? hdr off ?].
  cbn [prog_byte_offset prog_header].
  destruct (PROG_HEADER_SIZE <=? off);
    cbn [bind modify ret prog_byte_offset prog_header set_prog_byte_offset
         set_prog_header set_cmd_set app];
    destruct (scan_prog_header _ _ _) as [[] ? ?|? ?]; reflexivity.
Qed.

Lemma ps_display_determine_command_set_total s :
  exists cs out,
    ps_display_determine_command_set s
    = Ok tt (set_cmd_set cs (before_scan s)) (EnterDetermineCommandSet :: out) /\
    Forall is_detector_warning out /\
    cs <> PSDISPLAY_CMD_SET_UNKNOWN.
Proof.
  rewrite ps_display_determine_command_set_eq.
  destruct (scan_prog_header_total (Z.to_nat PROG_HEADER_SIZE) 2 (before_scan s))
    as (cs & out & Heq & Hout & Hcs).
  - unfold before_scan, terminator_offset; simpl.
    destruct (Z.leb_spec PROG_HEADER_SIZE (prog_byte_offset s));
      unfold PROG_HEADER_SIZE in *; lia.
  - unfold PROG_HEADER_SIZE; lia.
  - exists cs, out. rewrite Heq. split; [reflexivity|]. split; [exact Hout|].
    destruct Hcs as [->|[->| ->]]; discriminate.
Qed.

(** ** Leaving programming mode *)

Lemma count_events_app p xs ys :
  count_events p (xs ++ ys) = (count_events p xs + count_events p ys)%nat.
Proof. induction xs as [|x xs IH]; simpl; [reflexivity|]. rewrite IH. lia. Qed.

Lemma count_events_stderr p out :
  (forall m, p (Stderr m) = false) -> Forall is_detector_warning out ->
  count_events p out = 0%nat.
Proof.
  intros Hp. induction 1 as [|e out [cs [-> | ->]] _ IH]; simpl;
    [reflexivity|..]; rewrite Hp, IH; reflexivity.
Qed.

Ltac psd_cbn :=
  cbn [bind ret get modify emit raise qemu_set_irq_intn qemu_set_irq_done
       fprintf_stderr ps_display_reset_state app
       redraw framebuffer col_index row_index state cmd parameter
       parameter_byte_offset scene sclk_value cs_value
       sclk_count_with_cs_high prog_header prog_byte_offset cmd_set
       set_redraw set_framebuffer set_col_index set_row_index set_state
       set_cmd set_parameter set_parameter_byte_offset set_scene
       set_sclk_value set_cs_value set_sclk_count_with_cs_high
       set_prog_header set_prog_byte_offset set_cmd_set].

(** A clock callback with chip-select high, outside programming mode. *)
Lemma sclk_cb_not_programming s level :
  cs_value s = true -> state s <> PSDISPLAYSTATE_PROGRAMMING ->
  exists s',
    ps_display_set_sclk_pin_cb level s
    = Ok tt s' (if 50 <? sclk_next_count s level then [IrqDone true] else []) /\
    state s' = state s /\ cs_value s' = true /\
    sclk_count_with_cs_high s' = sclk_next_count s level /\
    sclk_value s' = new_sclk_value level.
Proof.
  intros Hcs Hst. unfold ps_display_set_sclk_pin_cb, sclk_next_count, is_rising,
    new_sclk_value.
  destruct s as [? ? ? ? st ? ? ? ? sv cs cnt ? ? ?]; cbn [cs_value state] in *.
  subst cs. psd_cbn.
  destruct (negb (level =? 0) && negb (eqb (negb (level =? 0)) sv)); psd_cbn;
    (destruct (50 <? _); psd_cbn;
     [destruct st; [contradiction|..]|]; eexists; repeat split).
Qed.

(** In programming mode, counter still at or below 50. *)
Lemma sclk_cb_programming_stay s level :
  cs_value s = true -> state s = PSDISPLAYSTATE_PROGRAMMING ->
  sclk_next_count s level <= 50 ->
  exists s',
    ps_display_set_sclk_pin_cb level s = Ok tt s' [] /\
    state s' = PSDISPLAYSTATE_PROGRAMMING /\ cs_value s' = true /\
    sclk_count_with_cs_high s' = sclk_next_count s level /\
    sclk_value s' = new_sclk_value level.
Proof.
  intros Hcs Hst. unfold ps_display_set_sclk_pin_cb, sclk_next_count, is_rising,
    new_sclk_value.
  destruct s as [? ? ? ? st ? ? ? ? sv cs cnt ? ? ?]; cbn [cs_value state] in *.
  subst cs st. psd_cbn. cbn [sclk_value sclk_count_with_cs_high].
  destruct (negb (level =? 0) && negb (eqb (negb (level =? 0)) sv)); psd_cbn;
    intros Hle;
    match goal with
    | |- context [50 <? ?c] => destruct (Z.ltb_spec 50 c); [lia|]
    end; psd_cbn; eexists; repeat split.
Qed.

(** In programming mode, counter above 50: programming is declared
    complete and the detector runs. *)
Lemma sclk_cb_programming_exit s level :
  cs_value s = true -> state s = PSDISPLAYSTATE_PROGRAMMING ->
  50 < sclk_next_count s level ->
  exists s' out,
    ps_display_set_sclk_pin_cb level s
    = Ok tt s' ([IrqDone true; IrqIntn false; EnterDetermineCommandSet] ++ out) /\
    Forall is_detector_warning out /\
    state s' = PSDISPLAYSTATE_ACCEPTING_CMD /\ cs_value s' = true /\
    sclk_count_with_cs_high s' = sclk_next_count s level /\
    sclk_value s' = new_sclk_value level.
Proof.
  intros Hcs Hst. unfold ps_display_set_sclk_pin_cb, sclk_next_count, is_rising,
    new_sclk_value.
  destruct s as [? ? ? ? st ? ? ? ? sv cs cnt ? ? ?]; cbn [cs_value state] in *.
  subst cs st. psd_cbn. cbn [sclk_value sclk_count_with_cs_high].
  destruct (negb (level =? 0) && negb (eqb (negb (level =? 0)) sv)); psd_cbn;
    intros Hlt;
    match goal with
    | |- context [50 <? ?c] => destruct (Z.ltb_spec 50 c); [|lia]
    end; psd_cbn;
    match goal with
    | |- context [ps_display_determine_command_set ?st] =>
      destruct (ps_display_determine_command_set_total st)
        as (cs & out & -> & Hout & _)
    end; psd_cbn; rewrite app_nil_r; eexists _, out;
    (split; [reflexivity|]); repeat split; assumption.
Qed.

Lemma run_cons_Ok i rest s s1 o1 :
  step i s = Ok tt s1 o1 ->
  run (i :: rest) s =
    match run rest s1 with
    | Ok b s2 o2 => Ok b s2 (o1 ++ o2)
    | Fault f o2 => Fault f (o1 ++ o2)
    end.
Proof. intros H. cbn [run]. rewrite (bind_Ok _ _ _ _ _ _ H). reflexivity. Qed.

(** Once programming mode is left, clock callbacks re-drive the done
    line high when the counter is above 50 and do nothing else. *)
Lemma run_sclk_not_programming levels : forall s,
  cs_value s = true -> state s <> PSDISPLAYSTATE_PROGRAMMING ->
  exists s' out,
    run (map InSclkPin levels) s = Ok tt s' out /\
    state s' = state s /\
    count_events is_detect out = 0%nat /\
    count_events is_done_lower out = 0%nat.
Proof.
  induction levels as [|level rest IH]; intros s Hcs Hst.
  - exists s, []. repeat split.
  - destruct (sclk_cb_not_programming s level Hcs Hst)
      as (s1 & Hstep & Hst1 & Hcs1 & _ & _).
    destruct (IH s1 Hcs1) as (s2 & out & Hrun & Hst2 & Hdet & Hlow);
      [congruence|].
    cbn [map]. rewrite (run_cons_Ok (InSclkPin level) _ _ _ _ Hstep), Hrun.
    eexists _, _. split; [reflexivity|]. split; [congruence|].
    rewrite !count_events_app, Hdet, Hlow.
    destruct (50 <? _); split; reflexivity.
Qed.

Lemma edges_needed_le_52 c : 0 <= c -> (edges_needed c <= 52)%nat.
Proof.
  intros Hc. unfold edges_needed.
  destruct (c =? 4294967295); [lia|]. destruct (50 <? c); lia.
Qed.

Lemma run_sclk_programming levels : forall s,
  cs_value s = true -> state s = PSDISPLAYSTATE_PROGRAMMING ->
  0 <= sclk_count_with_cs_high s < 4294967296 ->
  (edges_needed (sclk_count_with_cs_high s)
   <= rising_edges (sclk_value s) levels)%nat ->
  exists s' out,
    run (map InSclkPin levels) s = Ok tt s' out /\
    state s' = PSDISPLAYSTATE_ACCEPTING_CMD /\
    count_events is_detect out = 1%nat /\
    count_events is_done_lower out = 0%nat /\
    (1 <= count_events is_done_raise out)%nat.
Proof.
  induction levels as [|level rest IH]; intros s Hcs Hst Hc Hedges.
  - exfalso. revert Hedges. unfold edges_needed. cbn [rising_edges].
    destruct (_ =? _); [lia|]. destruct (Z.ltb_spec 50 (sclk_count_with_cs_high s)); lia.
  - destruct (Z.lt_ge_cases 50 (sclk_next_count s level)) as [Hgt|Hle].
    + destruct (sclk_cb_programming_exit s level Hcs Hst Hgt)
        as (s1 & out1 & Hstep & Hout1 & Hst1 & Hcs1 & _ & _).
      destruct (run_sclk_not_programming rest s1 Hcs1)
        as (s2 & out2 & Hrun & Hst2 & Hdet & Hlow); [congruence|].
      cbn [map]. rewrite (run_cons_Ok (InSclkPin level) _ _ _ _ Hstep), Hrun.
      eexists _, _. split; [reflexivity|]. split; [congruence|].
      rewrite !count_events_app, Hdet, Hlow.
      rewrite !(count_events_stderr _ out1) by (auto; reflexivity).
      repeat split; cbn; lia.
    + destruct (sclk_cb_programming_stay s level Hcs Hst Hle)
        as (s1 & Hstep & Hst1 & Hcs1 & Hc1 & Hsv1).
      destruct (IH s1 Hcs1 Hst1) as (s2 & out & Hrun & Hst2 & Hcounts).
      * rewrite Hc1. unfold sclk_next_count, u32.
        destruct (is_rising _ _); [|exact Hc].
        apply Z.mod_pos_bound. lia.
      * rewrite Hc1, Hsv1. revert Hedges Hle. cbn [rising_edges].
        unfold sclk_next_count, edges_needed, u32.
        destruct (is_rising (sclk_value s) level);
          repeat match goal with
                 | |- context [?a =? ?b] => destruct (Z.eqb_spec a b)
                 | |- context [?a <? ?b] => destruct (Z.ltb_spec a b)
                 end; intros; Z.div_mod_to_equations; lia.
      * cbn [map]. rewrite (run_cons_Ok (InSclkPin level) _ _ _ _ Hstep), Hrun.
        exists s2, out. split; [reflexivity|]. split; [exact Hst2|exact Hcounts].
Qed.

(** The claim of C1 that programming-complete is signalled exactly once
    fails: from reset with chip-select raised, 52 rising edges (103
    callbacks, rising and falling alternating) drive the done line three
    times, at the 51st rising edge and at both callbacks after it. *)
Lemma C1_programming_complete_signalled_thrice :
  let s := set_cs_value true initial_state in
  let levels := clock_pulses 51 ++ [1] in
  rising_edges (sclk_value s) levels = 52%nat /\
  count_events is_done_raise (events (run (map InSclkPin levels) s)) = 3%nat /\
  count_events is_done_raise (events (run (map InSclkPin levels) s)) <> 1%nat.
Proof.
  split; [vm_compute; reflexivity|].
  assert (H : count_events is_done_raise
                (events (run (map InSclkPin (clock_pulses 51 ++ [1]))
                             (set_cs_value true initial_state))) = 3%nat)
    by (vm_compute; reflexivity).
  cbv zeta. rewrite H. split; [reflexivity|discriminate].
Qed.

(** C1 (amended). From the programming state with chip-select high, a
    sequence of clock callbacks holding 52 or more rising edges runs
    without fault, leaves the decoder accepting commands and invokes the
    command-set detector exactly once, however many callbacks follow.
    The programming-complete (done) line is driven high at least once
    and never driven low; once programming mode is left, every clock
    callback with chip-select high drives it high again when it finds the
    counter above 50, and emits nothing else. *)
Theorem C1_programming_exit_detects_once (s : PSDisplayGlobals) (levels : list Z) :
  state s = PSDISPLAYSTATE_PROGRAMMING ->
  cs_value s = true ->
  0 <= sclk_count_with_cs_high s < 4294967296 ->
  (52 <= rising_edges (sclk_value s) levels)%nat ->
  let r := run (map InSclkPin levels) s in
  faulted r = None /\
  option_map state (final_state r) = Some PSDISPLAYSTATE_ACCEPTING_CMD /\
  count_events is_detect (events r) = 1%nat /\
  (1 <= count_events is_done_raise (events r))%nat /\
  count_events is_done_lower (events r) = 0%nat /\
  (forall s1 level,
      cs_value s1 = true -> state s1 <> PSDISPLAYSTATE_PROGRAMMING ->
      events (ps_display_set_sclk_pin_cb level s1)
      = if 50 <? sclk_next_count s1 level then [IrqDone true] else []).
Proof.
  intros Hst Hcs Hc Hedges r. subst r.
  destruct (run_sclk_programming levels s Hcs Hst Hc)
    as (s' & out & -> & Hst' & Hdet & Hlow & Hraise).
  - pose proof (edges_needed_le_52 (sclk_count_with_cs_high s)). lia.
  - cbn [faulted final_state events option_map]. rewrite Hst'.
    repeat (split; [auto; fail|]).
    intros s1 level Hcs1 Hst1.
    destruct (sclk_cb_not_programming s1 level Hcs1 Hst1) as (s2 & -> & _).
    reflexivity.
Qed.

(** C1 at power-on with chip-select raised, on 52 clock pulses. *)
Lemma C1_programming_exit_detects_once_witness :
  let r := run (map InSclkPin (clock_pulses 52))
               (set_cs_value true initial_state) in
  faulted r = None /\
  option_map state (final_state r) = Some PSDISPLAYSTATE_ACCEPTING_CMD /\
  count_events is_detect (events r) = 1%nat /\
  (1 <= count_events is_done_raise (events r))%nat /\
  count_events is_done_lower (events r) = 0%nat.
Proof.
  pose proof (C1_programming_exit_detects_once
                (set_cs_value true initial_state) (clock_pulses 52)
                eq_refl eq_refl) as H.
  assert (Hc : 0 <= sclk_count_with_cs_high (set_cs_value true initial_state)
               < 4294967296)
    by (cbn [sclk_count_with_cs_high set_cs_value initial_state]; lia).
  assert (He : (52 <= rising_edges (sclk_value (set_cs_value true initial_state))
                        (clock_pulses 52))%nat)
    by (vm_compute; lia).
  destruct (H Hc He) as (H1 & H2 & H3 & H4 & H5 & _).
  repeat split; assumption.
Defined.

(** ** Column transfers (command set 1) *)

Lemma step_transfer_Ok d s a s' o :
  ps_display_transfer d s = Ok a s' o -> step (InTransfer d) s = Ok tt s' o.
Proof.
  intros H. cbn [step]. rewrite (bind_Ok _ _ _ _ _ _ H). cbn [ret].
  rewrite app_nil_r. reflexivity.
Qed.

Lemma u8_u32 d : u8 (u32 d) = d mod 256.
Proof.
  unfold u8, u32. Z.div_mod_to_equations. lia.
Qed.

Ltac psd_geometry :=
  unfold FRAMEBUFFER_SIZE, SNOWY_BYTES_PER_ROW, SNOWY_NUM_ROWS, SNOWY_NUM_COLS,
    SNOWY_ROWS_SKIPPED_AT_TOP, SNOWY_ROWS_SKIPPED_AT_BOTTOM in *.

Ltac split_comparisons :=
  repeat match goal with
         | |- context [?a <=? ?b] => destruct (Z.leb_spec a b)
         | |- context [?a <? ?b] => destruct (Z.ltb_spec a b)
         end.

(** The FrameData opcode. *)
Lemma transfer_frame_data s :
  accepting_cmd_under PSDISPLAY_CMD_SET_1 s ->
  ps_display_transfer PSDISPLAYCMD1_FRAME_DATA s
  = Ok 0 (set_state PSDISPLAYSTATE_ACCEPTING_LINENO
            (set_cmd PSDISPLAYCMD1_FRAME_DATA s)) [IrqIntn true].
Proof. intros H. concrete_state s H. reflexivity. Qed.

(** The column index byte. *)
Lemma transfer_lineno s d :
  cs_value s = false -> state s = PSDISPLAYSTATE_ACCEPTING_LINENO ->
  ps_display_transfer d s
  = Ok 0 (set_state PSDISPLAYSTATE_ACCEPTING_DATA
            (set_row_index (SNOWY_NUM_ROWS + SNOWY_ROWS_SKIPPED_AT_BOTTOM - 1)
               (set_col_index (if SNOWY_NUM_COLS <=? u32 d then 0 else u32 d) s)))
         (if SNOWY_NUM_COLS <=? u32 d
          then [Stderr (MsgInvalidColumn (u32 d)); IrqIntn true]
          else [IrqIntn true]).
Proof.
  intros Hcs Hst. destruct s; cbn [cs_value state] in *; subst.
  unfold ps_display_transfer, accept_lineno. psd_cbn.
  destruct (SNOWY_NUM_COLS <=? u32 d); reflexivity.
Qed.

(** A data byte, by position of the row cursor. *)
Lemma transfer_data_padding s d :
  cs_value s = false -> state s = PSDISPLAYSTATE_ACCEPTING_DATA ->
  SNOWY_NUM_ROWS <= row_index s \/
  - SNOWY_ROWS_SKIPPED_AT_TOP < row_index s < 0 ->
  ps_display_transfer d s = Ok 0 (set_row_index (row_index s - 1) s) [].
Proof.
  intros Hcs Hst Hrow. destruct s; cbn [cs_value state row_index] in *; subst.
  unfold ps_display_transfer, accept_data. psd_cbn.
  split_comparisons; psd_geometry; try lia; reflexivity.
Qed.

Lemma transfer_data_visible s d :
  cs_value s = false -> state s = PSDISPLAYSTATE_ACCEPTING_DATA ->
  0 <= row_index s < SNOWY_NUM_ROWS -> 0 <= col_index s < SNOWY_NUM_COLS ->
  ps_display_transfer d s
  = Ok 0 (set_row_index (row_index s - 1)
            (set_framebuffer
               (<[Z.to_nat (row_index s * SNOWY_BYTES_PER_ROW + col_index s)
                  := d mod 256]> (framebuffer s)) s)) [].
Proof.
  intros Hcs Hst Hrow Hcol. rewrite <- u8_u32.
  destruct s; cbn [cs_value state row_index col_index framebuffer] in *; subst.
  unfold ps_display_transfer, accept_data, fb_store. psd_cbn.
  split_comparisons; psd_geometry; try lia; reflexivity.
Qed.

Lemma transfer_data_last s d :
  cs_value s = false -> state s = PSDISPLAYSTATE_ACCEPTING_DATA ->
  row_index s <= - SNOWY_ROWS_SKIPPED_AT_TOP ->
  ps_display_transfer d s
  = Ok 0 (set_state PSDISPLAYSTATE_ACCEPTING_LINENO s) [IrqIntn false].
Proof.
  intros Hcs Hst Hrow. destruct s; cbn [cs_value state row_index] in *; subst.
  unfold ps_display_transfer, accept_data. psd_cbn.
  split_comparisons; psd_geometry; try lia; reflexivity.
Qed.

Lemma run_app_Ok xs ys s s1 o1 :
  run xs s = Ok tt s1 o1 ->
  run (xs ++ ys) s =
    match run ys s1 with
    | Ok b s2 o2 => Ok b s2 (o1 ++ o2)
    | Fault f o2 => Fault f (o1 ++ o2)
    end.
Proof.
  intros H. rewrite run_app.
  exact (bind_Ok (run xs) (fun _ => run ys) s tt s1 o1 H).
Qed.

Ltac psd_side :=
  repeat match goal with x := _ : PSDisplayGlobals |- _ => subst x end;
  psd_cbn; psd_geometry; lia.

(** A run of bytes that all fall in one padding area. *)
Lemma run_data_padding ds : forall s,
  cs_value s = false -> state s = PSDISPLAYSTATE_ACCEPTING_DATA ->
  SNOWY_NUM_ROWS + Z.of_nat (length ds) - 1 <= row_index s \/
  (row_index s < 0 /\
   - SNOWY_ROWS_SKIPPED_AT_TOP < row_index s - Z.of_nat (length ds) + 1) ->
  run (map InTransfer ds) s
  = Ok tt (set_row_index (row_index s - Z.of_nat (length ds)) s) [].
Proof.
  induction ds as [|d ds IH]; intros s Hcs Hst Hrow.
  - cbn [length map run ret]. rewrite Z.sub_0_r. destruct s; reflexivity.
  - cbn [length map] in *.
    rewrite (run_cons_Ok (InTransfer d) _ _ _ _
               (step_transfer_Ok _ _ _ _ _
                  (transfer_data_padding s d Hcs Hst ltac:(psd_geometry; lia)))).
    rewrite IH; [|exact Hcs|exact Hst|cbn [row_index set_row_index]; lia].
    cbn [row_index set_row_index app].
    replace (row_index s - 1 - Z.of_nat (length ds))
      with (row_index s - Z.of_nat (S (length ds))) by lia.
    reflexivity.
Qed.

(** A run of bytes that all fall in the visible area. *)
Lemma run_data_visible ds : forall s,
  cs_value s = false -> state s = PSDISPLAYSTATE_ACCEPTING_DATA ->
  0 <= col_index s < SNOWY_NUM_COLS ->
  row_index s < SNOWY_NUM_ROWS ->
  Z.of_nat (length ds) - 1 <= row_index s ->
  run (map InTransfer ds) s
  = Ok tt (set_row_index (row_index s - Z.of_nat (length ds))
             (set_framebuffer
                (write_column (framebuffer s) (col_index s) (row_index s) ds) s))
          [].
Proof.
  induction ds as [|d ds IH]; intros s Hcs Hst Hcol Hrow Hlen.
  - cbn [length map run ret write_column]. rewrite Z.sub_0_r.
    destruct s; reflexivity.
  - cbn [length map write_column] in *.
    rewrite (run_cons_Ok (InTransfer d) _ _ _ _
               (step_transfer_Ok _ _ _ _ _
                  (transfer_data_visible s d Hcs Hst ltac:(lia) Hcol))).
    rewrite IH; [|exact Hcs|exact Hst|exact Hcol
                 |cbn [row_index set_row_index]; lia
                 |cbn [row_index set_row_index]; lia].
    cbn [row_index col_index framebuffer set_row_index set_framebuffer app].
    replace (row_index s - 1 - Z.of_nat (length ds))
      with (row_index s - Z.of_nat (S (length ds))) by lia.
    reflexivity.
Qed.

(** Cells that [write_column] leaves alone. *)
Lemma write_column_lookup_other ds : forall fb col row (i : nat),
  0 <= col -> Z.of_nat (length ds) - 1 <= row ->
  (forall r, row - Z.of_nat (length ds) < r <= row ->
             Z.of_nat i <> r * SNOWY_BYTES_PER_ROW + col) ->
  write_column fb col row ds !! i = fb !! i.
Proof.
  induction ds as [|d ds IH]; intros fb col row i Hcol Hlen Hi;
    cbn [write_column length] in *; [reflexivity|].
  rewrite IH; [|exact Hcol|lia|intros r Hr; apply Hi; lia].
  apply list_lookup_insert_ne.
  specialize (Hi row ltac:(lia)). psd_geometry. lia.
Qed.

(** Cells that [write_column] fills: byte [k] lands [k] rows up. *)
Lemma write_column_lookup_written ds : forall fb col row (k : nat),
  0 <= col < SNOWY_NUM_COLS ->
  Z.of_nat (length ds) - 1 <= row -> row < SNOWY_NUM_ROWS ->
  Z.of_nat (length fb) = FRAMEBUFFER_SIZE ->
  (k < length ds)%nat ->
  write_column fb col row ds
    !! Z.to_nat ((row - Z.of_nat k) * SNOWY_BYTES_PER_ROW + col)
  = (fun d => d mod 256) <$> ds !! k.
Proof.
  induction ds as [|d ds IH]; intros fb col row k Hcol Hlen Hrow Hfb Hk;
    cbn [write_column length] in *; [lia|].
  destruct k as [|k].
  - rewrite write_column_lookup_other;
      [|lia|lia|intros r Hr; psd_geometry; lia].
    rewrite Z.sub_0_r. cbn [lookup list_lookup fmap option_fmap option_map].
    apply list_lookup_insert_eq. psd_geometry. lia.
  - replace (row - Z.of_nat (S k)) with (row - 1 - Z.of_nat k) by lia.
    rewrite IH; [reflexivity|exact Hcol|lia|lia| |lia].
    rewrite length_insert. exact Hfb.
Qed.

(** One whole column: index byte, 16 bytes of bottom padding, 172
    visible bytes, 16 bytes of top padding, and the byte that closes the
    line.  The done interrupt is asserted by the closing byte, not
    before. *)
Lemma run_column s c bottom visible top last :
  cs_value s = false -> state s = PSDISPLAYSTATE_ACCEPTING_LINENO ->
  0 <= c < SNOWY_NUM_COLS ->
  length bottom = 16%nat -> length visible = 172%nat -> length top = 16%nat ->
  exists s5 s6,
    run (map InTransfer (c :: bottom ++ visible ++ top)) s
      = Ok tt s5 [IrqIntn true] /\
    state s5 = PSDISPLAYSTATE_ACCEPTING_DATA /\
    run (map InTransfer (c :: bottom ++ visible ++ top ++ [last])) s
      = Ok tt s6 [IrqIntn true; IrqIntn false] /\
    state s6 = PSDISPLAYSTATE_ACCEPTING_LINENO /\
    framebuffer s6 = write_column (framebuffer s) c 171 visible /\
    col_index s6 = c /\ cs_value s6 = false /\ cmd_set s6 = cmd_set s.
Proof.
  intros Hcs Hst Hc Hb Hv Ht.
  assert (Hu : u32 c = c) by (unfold u32; apply Z.mod_small; psd_geometry; lia).
  pose proof (transfer_lineno s c Hcs Hst) as H1. rewrite Hu in H1.
  destruct (Z.leb_spec SNOWY_NUM_COLS c) as [?|_]; [lia|].
  set (s2 := set_state PSDISPLAYSTATE_ACCEPTING_DATA
               (set_row_index _ (set_col_index c s))) in H1.
  assert (H2 : run (map InTransfer bottom) s2 = Ok tt (set_row_index 171 s2) []).
  { rewrite run_data_padding; [|exact Hcs|reflexivity|].
    - rewrite Hb. reflexivity.
    - left. rewrite Hb. psd_side. }
  set (s3 := set_row_index 171 s2) in H2.
  assert (H3 : run (map InTransfer visible) s3
               = Ok tt (set_row_index (-1)
                          (set_framebuffer
                             (write_column (framebuffer s) c 171 visible) s3)) []).
  { rewrite run_data_visible; [|exact Hcs|reflexivity|exact Hc| |].
    - rewrite Hv. reflexivity.
    - psd_side.
    - rewrite Hv. psd_side. }
  set (s4 := set_row_index (-1) _) in H3.
  assert (H4 : run (map InTransfer top) s4 = Ok tt (set_row_index (-17) s4) []).
  { rewrite run_data_padding; [|exact Hcs|reflexivity|].
    - rewrite Ht. reflexivity.
    - right. rewrite Ht. psd_side. }
  set (s5 := set_row_index (-17) s4) in H4.
  assert (H5 : ps_display_transfer last s5
               = Ok 0 (set_state PSDISPLAYSTATE_ACCEPTING_LINENO s5)
                   [IrqIntn false]).
  { apply transfer_data_last; [exact Hcs|reflexivity|psd_side]. }
  exists s5, (set_state PSDISPLAYSTATE_ACCEPTING_LINENO s5).
  cbn [map]. rewrite !map_app.
  rewrite !(run_cons_Ok (InTransfer c) _ _ _ _ (step_transfer_Ok _ _ _ _ _ H1)).
  rewrite !(run_app_Ok _ _ _ _ _ H2), !(run_app_Ok _ _ _ _ _ H3).
  rewrite H4, (run_app_Ok _ _ _ _ _ H4). cbn [map].
  rewrite (run_cons_Ok (InTransfer last) _ _ _ _
             (step_transfer_Ok _ _ _ _ _ H5)).
  repeat split; try reflexivity. exact Hcs.
Qed.

(** C2. Under the Development dialect (command set 1), from the
    accepting-command state with chip-select asserted throughout, the
    FrameData opcode, the column index 0 and then 16 + 172 + 17 = 205 data
    bytes run without fault and leave a framebuffer in which column 0
    holds the 172 visible bytes, the first of them in the bottom row (171)
    and the last in the top row (0), and every cell outside column 0 is as
    before: the 33 padding bytes appear nowhere.  The done interrupt is
    asserted by the last byte and not earlier, and the decoder is back in
    the accepting-line-number state. *)
Theorem C2_column_zero_transfer
    (s : PSDisplayGlobals) (bottom visible top : list Z) :
  accepting_cmd_under PSDISPLAY_CMD_SET_1 s ->
  Z.of_nat (length (framebuffer s)) = FRAMEBUFFER_SIZE ->
  Z.of_nat (length bottom) = SNOWY_ROWS_SKIPPED_AT_BOTTOM ->
  Z.of_nat (length visible) = SNOWY_NUM_ROWS ->
  Z.of_nat (length top) = SNOWY_ROWS_SKIPPED_AT_TOP ->
  let bytes := [PSDISPLAYCMD1_FRAME_DATA; 0] ++ bottom ++ visible ++ top in
  let r := run (map InTransfer bytes) s in
  (exists fb,
      option_map framebuffer (final_state r) = Some fb /\
      (forall k : nat, (k < 172)%nat ->
         fb !! ((171 - k) * 148)%nat = (fun d => d mod 256) <$> visible !! k) /\
      (forall i : nat, (i mod 148 <> 0)%nat -> fb !! i = framebuffer s !! i)) /\
  option_map state (final_state r) = Some PSDISPLAYSTATE_ACCEPTING_LINENO /\
  events r = [IrqIntn true; IrqIntn true; IrqIntn false] /\
  events (run (map InTransfer (removelast bytes)) s)
    = [IrqIntn true; IrqIntn true].
Proof.
  intros Hs Hfb Hb Hv Ht bytes r.
  assert (Htop : exists top' last, top = top' ++ [last] /\ length top' = 16%nat).
  { assert (Hne : top <> []) by (intros ->; discriminate Ht).
    pose proof (app_removelast_last 0 Hne) as Heq.
    exists (removelast top), (List.last top 0). split; [exact Heq|].
    apply (f_equal (@length Z)) in Heq. rewrite length_app in Heq.
    cbn [length] in Heq. unfold SNOWY_ROWS_SKIPPED_AT_TOP in Ht. lia. }
  destruct Htop as (top' & last & -> & Ht').
  pose proof (transfer_frame_data s Hs) as H0.
  destruct Hs as (Hst & Hset & Hcs).
  destruct (run_column
              (set_state PSDISPLAYSTATE_ACCEPTING_LINENO
                 (set_cmd PSDISPLAYCMD1_FRAME_DATA s))
              0 bottom visible top' last Hcs eq_refl)
    as (s5 & s6 & Hrun5 & Hst5 & Hrun6 & Hst6 & Hfb6 & _);
    [psd_geometry; lia..|].
  assert (Hbytes : bytes = PSDISPLAYCMD1_FRAME_DATA
                           :: (0 :: bottom ++ visible ++ top' ++ [last]))
    by reflexivity.
  assert (Hbytes' : removelast bytes = PSDISPLAYCMD1_FRAME_DATA
                           :: (0 :: bottom ++ visible ++ top')).
  { rewrite Hbytes.
    change (PSDISPLAYCMD1_FRAME_DATA :: 0 :: bottom ++ visible ++ top' ++ [last])
      with ((PSDISPLAYCMD1_FRAME_DATA :: 0 :: bottom) ++ visible ++ top' ++ [last]).
    rewrite !app_assoc, removelast_last, <- !app_assoc. reflexivity. }
  subst r. rewrite Hbytes', Hbytes.
  cbn [map] in *.
  rewrite !(run_cons_Ok (InTransfer PSDISPLAYCMD1_FRAME_DATA) _ _ _ _
              (step_transfer_Ok _ _ _ _ _ H0)).
  rewrite Hrun5, Hrun6. cbn [final_state events option_map app].
  rewrite Hst6. repeat split; try reflexivity.
  exists (framebuffer s6). split; [reflexivity|]. rewrite Hfb6.
  cbn [framebuffer set_state set_cmd]. split.
  - intros k Hk.
    rewrite <- (write_column_lookup_written visible (framebuffer s) 0 171 k);
      [|psd_geometry; lia..].
    f_equal. psd_geometry. lia.
  - intros i Hi. apply write_column_lookup_other; [lia|psd_geometry; lia|].
    intros r0 _ Heq. apply Hi. psd_geometry.
    apply Nat2Z.inj. rewrite Nat2Z.inj_mod, Heq. cbn.
    rewrite Z.add_0_r. apply Z.mod_mul. lia.
Qed.

(** C2 with the visible bytes 0, 1, ..., 171 between paddings of 0xAA and
    0xBB. *)
Lemma C2_column_zero_transfer_witness :
  let visible := map Z.of_nat (seq 0 172) in
  let bytes := [PSDISPLAYCMD1_FRAME_DATA; 0]
               ++ replicate 16 0xAA ++ visible ++ replicate 17 0xBB in
  let r := run (map InTransfer bytes) (idle_state PSDISPLAY_CMD_SET_1) in
  (exists fb,
      option_map framebuffer (final_state r) = Some fb /\
      (forall k : nat, (k < 172)%nat ->
         fb !! ((171 - k) * 148)%nat = (fun d => d mod 256) <$> visible !! k) /\
      (forall i : nat, (i mod 148 <> 0)%nat ->
         fb !! i = framebuffer (idle_state PSDISPLAY_CMD_SET_1) !! i)) /\
  option_map state (final_state r) = Some PSDISPLAYSTATE_ACCEPTING_LINENO /\
  events r = [IrqIntn true; IrqIntn true; IrqIntn false] /\
  events (run (map InTransfer (removelast bytes))
              (idle_state PSDISPLAY_CMD_SET_1))
    = [IrqIntn true; IrqIntn true].
Proof.
  apply (C2_column_zero_transfer (idle_state PSDISPLAY_CMD_SET_1)
           (replicate 16 0xAA) (map Z.of_nat (seq 0 172)) (replicate 17 0xBB)).
  - repeat split; reflexivity.
  - vm_compute. reflexivity.
  - vm_compute. reflexivity.
  - vm_compute. reflexivity.
  - vm_compute. reflexivity.
Defined.

(** ** The bitmap blit *)

Lemma land_bit_test b k :
  0 <= k -> negb (Z.land b (Z.shiftl 1 k) =? 0) = Z.testbit b k.
Proof.
  intros Hk. rewrite Z.shiftl_1_l.
  destruct (Z.testbit b k) eqn:Hbit.
  - destruct (Z.eqb_spec (Z.land b (2 ^ k)) 0) as [H0|]; [|reflexivity].
    apply (f_equal (fun z => Z.testbit z k)) in H0.
    rewrite Z.land_spec, Hbit, Z.pow2_bits_true, Z.bits_0 in H0 by exact Hk.
    discriminate.
  - destruct (Z.eqb_spec (Z.land b (2 ^ k)) 0) as [|Hne]; [reflexivity|].
    exfalso. apply Hne. apply Z.bits_inj'. intros n Hn.
    rewrite Z.land_spec, Z.bits_0, Z.pow2_bits_eqb by exact Hk.
    destruct (Z.eqb_spec k n) as [->|]; [rewrite Hbit|];
      auto using andb_false_r.
Qed.

Lemma splash_index_range i :
  0 <= i < 4096 -> 0 <= splash_index i < FRAMEBUFFER_SIZE.
Proof.
  intros Hi. unfold splash_index. psd_geometry.
  Z.div_mod_to_equations. lia.
Qed.

Lemma splash_index_inj i j :
  0 <= i -> 0 <= j -> splash_index i = splash_index j -> i = j.
Proof.
  unfold splash_index. psd_geometry. intros Hi Hj.
  Z.div_mod_to_equations. lia.
Qed.

(** One pixel of the splash blit. *)
Lemma draw_bitmap_pixel_splash bits i s :
  (512 <= length bits)%nat -> 0 <= i < 4096 ->
  draw_bitmap_pixel bits 8 68 128 i s
  = Ok tt (set_framebuffer
             (<[Z.to_nat (splash_index i) := lsb_first_color bits i]>
                (framebuffer s)) s) [].
Proof.
  intros Hlen Hi. unfold draw_bitmap_pixel, lsb_first_color.
  assert (Hlt : (Z.to_nat (i / 8) < length bits)%nat)
    by (Z.div_mod_to_equations; lia).
  destruct (lookup_lt_is_Some_2 bits _ Hlt) as [b Hb].
  rewrite Hb, (nth_lookup_Some _ _ _ _ Hb).
  rewrite land_bit_test by (Z.div_mod_to_equations; lia).
  pose proof (splash_index_range i Hi) as Hr. revert Hr.
  unfold ps_display_set_pixel, fb_store, splash_index, u8, u32.
  rewrite (Z.mod_small (8 + i mod 128) 256) by (Z.div_mod_to_equations; lia).
  rewrite (Z.mod_small (68 + i / 128) 256) by (Z.div_mod_to_equations; lia).
  intros Hr.
  rewrite (Z.mod_small _ 4294967296) by (psd_geometry; lia).
  destruct (Z.leb_spec 0 ((68 + i / 128) * SNOWY_BYTES_PER_ROW + (8 + i mod 128)));
    [|lia].
  destruct (Z.ltb_spec ((68 + i / 128) * SNOWY_BYTES_PER_ROW + (8 + i mod 128))
              FRAMEBUFFER_SIZE); [|lia].
  destruct (Z.testbit b (i mod 8)); reflexivity.
Qed.

(** The pixels [i .. i + n - 1] of the splash blit. *)
Lemma draw_bitmap_loop_splash bits n : forall i s,
  (512 <= length bits)%nat -> 0 <= i -> i + Z.of_nat n <= 4096 ->
  Z.of_nat (length (framebuffer s)) = FRAMEBUFFER_SIZE ->
  exists fb,
    draw_bitmap_loop n bits 8 68 128 i s = Ok tt (set_framebuffer fb s) [] /\
    length fb = length (framebuffer s) /\
    (forall j, i <= j < i + Z.of_nat n ->
       fb !! Z.to_nat (splash_index j) = Some (lsb_first_color bits j)) /\
    (forall k : nat,
       (forall j, i <= j < i + Z.of_nat n -> k <> Z.to_nat (splash_index j)) ->
       fb !! k = framebuffer s !! k).
Proof.
  induction n as [|n IH]; intros i s Hlen Hi Hn Hfb.
  - exists (framebuffer s). cbn [draw_bitmap_loop ret].
    split; [destruct s; reflexivity|]. split; [reflexivity|].
    split; [intros j Hj; lia|reflexivity].
  - cbn [draw_bitmap_loop].
    rewrite (bind_Ok _ _ _ _ _ _
               (draw_bitmap_pixel_splash bits i s Hlen ltac:(lia))).
    destruct (IH (i + 1)
                (set_framebuffer
                   (<[Z.to_nat (splash_index i) := lsb_first_color bits i]>
                      (framebuffer s)) s) Hlen)
      as (fb & Hrun & Hfblen & Hin & Hout);
      [lia|lia|cbn [framebuffer set_framebuffer]; rewrite length_insert; exact Hfb|].
    cbn [framebuffer set_framebuffer] in *. rewrite length_insert in Hfblen.
    exists fb. rewrite Hrun. split; [reflexivity|]. split; [exact Hfblen|].
    pose proof (splash_index_range i ltac:(lia)) as Hri.
    split.
    + intros j Hj. destruct (Z.eq_dec j i) as [->|Hne].
      * rewrite Hout.
        -- apply list_lookup_insert_eq. lia.
        -- intros j Hj' Heq. apply Z2Nat.inj in Heq;
             [|lia|pose proof (splash_index_range j ltac:(lia)); lia].
           apply splash_index_inj in Heq; lia.
      * apply Hin. lia.
    + intros k Hk. rewrite Hout by (intros j Hj; apply Hk; lia).
      apply list_lookup_insert_ne. intros Heq. apply (Hk i); [lia|congruence].
Qed.

(** The claim of C6 that the blit reads each byte most-significant bit
    first fails on the splash logo itself.  Pixel 50 of the top bitmap
    row comes from byte 6 = 0x38 (bits 3, 4, 5 set): the code tests bit
    50 mod 8 = 2, which is clear, and writes black; read bit 7 first the
    pixel would be bit 5, set, hence red. *)
Lemma C6_splash_blit_not_msb_first :
  exists fb,
    draw_scene PSDISPLAYSCENE_SPLASH (idle_state PSDISPLAY_CMD_SET_0)
    = Ok tt (set_framebuffer fb (idle_state PSDISPLAY_CMD_SET_0)) [] /\
    fb !! Z.to_nat (splash_index 50) = Some SNOWY_COLOR_BLACK /\
    msb_first_color ps_display_get_pebble_logo 50 = SNOWY_COLOR_RED /\
    fb !! Z.to_nat (splash_index 50)
    <> Some (msb_first_color ps_display_get_pebble_logo 50).
Proof.
  destruct (draw_bitmap_loop_splash ps_display_get_pebble_logo 4096 0
              (idle_state PSDISPLAY_CMD_SET_0))
    as (fb & Hrun & _ & Hin & _).
  - vm_compute. lia.
  - lia.
  - lia.
  - cbn [idle_state framebuffer set_cmd_set set_state initial_state].
    rewrite length_replicate. apply Z2Nat.id. discriminate.
  - exists fb. split; [exact Hrun|].
    specialize (Hin 50 ltac:(lia)).
    assert (Hlsb : lsb_first_color ps_display_get_pebble_logo 50
                   = SNOWY_COLOR_BLACK) by (vm_compute; reflexivity).
    assert (Hmsb : msb_first_color ps_display_get_pebble_logo 50
                   = SNOWY_COLOR_RED) by (vm_compute; reflexivity).
    rewrite Hlsb in Hin. rewrite Hmsb, Hin.
    split; [reflexivity|]. split; [reflexivity|discriminate].
Qed.

(** C6 (amended). The blit used by the Splash scene takes the 128 x 32
    source bitmap one bit per pixel, row-major, least-significant bit of
    each byte first (pixel [i] is bit [i mod 8] of byte [i / 8]), and
    writes the red encoding for a set bit and the black encoding for a
    clear bit at column 8 + i mod 128 of row 68 + i / 128; it touches no
    other cell and no other field, and emits nothing. *)
Theorem C6_splash_blit_lsb_first (bits : list Z) (s : PSDisplayGlobals) :
  (512 <= length bits)%nat ->
  Z.of_nat (length (framebuffer s)) = FRAMEBUFFER_SIZE ->
  draw_scene PSDISPLAYSCENE_SPLASH
    = ps_display_draw_bitmap ps_display_get_pebble_logo 8 68 128 32 /\
  exists fb,
    ps_display_draw_bitmap bits 8 68 128 32 s = Ok tt (set_framebuffer fb s) [] /\
    (forall row col, 0 <= row < 32 -> 0 <= col < 128 ->
       fb !! Z.to_nat ((68 + row) * SNOWY_BYTES_PER_ROW + (8 + col))
       = Some (lsb_first_color bits (row * 128 + col))) /\
    (forall k : nat,
       (forall row col, 0 <= row < 32 -> 0 <= col < 128 ->
          k <> Z.to_nat ((68 + row) * SNOWY_BYTES_PER_ROW + (8 + col))) ->
       fb !! k = framebuffer s !! k).
Proof.
  intros Hlen Hfb. split; [reflexivity|].
  destruct (draw_bitmap_loop_splash bits 4096 0 s Hlen) as
    (fb & Hrun & _ & Hin & Hout); [lia|lia|exact Hfb|].
  exists fb. split; [exact Hrun|]. split.
  - intros row col Hrow Hcol.
    rewrite <- (Hin (row * 128 + col)) by lia. unfold splash_index.
    psd_geometry. do 2 f_equal. Z.div_mod_to_equations. lia.
  - intros k Hk. apply Hout. intros j Hj. unfold splash_index.
    apply Hk; Z.div_mod_to_equations; lia.
Qed.

(** C6 on the splash logo. *)
Lemma C6_splash_blit_lsb_first_witness :
  exists fb,
    ps_display_draw_bitmap ps_display_get_pebble_logo 8 68 128 32
      (idle_state PSDISPLAY_CMD_SET_0)
    = Ok tt (set_framebuffer fb (idle_state PSDISPLAY_CMD_SET_0)) [] /\
    (forall row col, 0 <= row < 32 -> 0 <= col < 128 ->
       fb !! Z.to_nat ((68 + row) * SNOWY_BYTES_PER_ROW + (8 + col))
       = Some (lsb_first_color ps_display_get_pebble_logo (row * 128 + col))) /\
    (forall k : nat,
       (forall row col, 0 <= row < 32 -> 0 <= col < 128 ->
          k <> Z.to_nat ((68 + row) * SNOWY_BYTES_PER_ROW + (8 + col))) ->
       fb !! k = framebuffer (idle_state PSDISPLAY_CMD_SET_0) !! k).
Proof.
  apply (C6_splash_blit_lsb_first ps_display_get_pebble_logo
           (idle_state PSDISPLAY_CMD_SET_0)).
  - vm_compute. lia.
  - vm_compute. reflexivity.
Defined.

(** ** What the command-set detector returns *)

Lemma strlen_nul_free l : nul_free l -> strlen l = Z.of_nat (length l).
Proof.
  induction 1 as [|c l Hc _ IH]; cbn [strlen length]; [reflexivity|].
  destruct (Z.eqb_spec c 0); [contradiction|]. rewrite IH. lia.
Qed.

(** Against a literal without NUL, [strncmp] over the literal's length
    is 0 exactly when the literal is a prefix. *)
Lemma strncmp_nul_free lit : forall l,
  nul_free lit ->
  strncmp l lit (length lit) = 0 <-> take (length lit) l = lit.
Proof.
  induction lit as [|c lit IH]; intros l Hnf.
  - cbn. rewrite take_0. tauto.
  - inversion Hnf as [|? ? Hc Hnf']; subst. cbn [length strncmp hd tl].
    destruct l as [|x l]; cbn [hd tl take].
    + destruct (Z.eqb_spec 0 c) as [<-|_]; [contradiction|]. cbn [negb].
      split; [lia|discriminate].
    + destruct (Z.eqb_spec x c) as [->|Hne]; cbn [negb].
      * destruct (Z.eqb_spec c 0); [contradiction|].
        rewrite (IH l Hnf'). split; [intros ->; reflexivity|].
        intros [= Heq]. exact Heq.
      * split; [lia|]. intros [= Heq _]. contradiction.
Qed.

Lemma nul_free_c_str_date : nul_free (c_str "Date:").
Proof. repeat constructor; discriminate. Qed.

Lemma nul_free_cmd_sets sig cs :
  In (sig, cs) cmd_sets -> nul_free (c_str sig).
Proof.
  intros [[= <- <-]|[[= <- <-]|[]]]; repeat constructor; discriminate.
Qed.

Lemma strncmp_date l :
  strncmp l (c_str "Date:") 5 = 0 <-> starts_with "Date:" l.
Proof. apply (strncmp_nul_free (c_str "Date:")), nul_free_c_str_date. Qed.

Lemma strncmp_signature sig cs l :
  In (sig, cs) cmd_sets ->
  strncmp l (c_str sig) (Z.to_nat (strlen (c_str sig))) = 0 <-> starts_with sig l.
Proof.
  intros Hin. pose proof (nul_free_cmd_sets sig cs Hin) as Hnf.
  rewrite (strlen_nul_free _ Hnf), Nat2Z.id.
  apply strncmp_nul_free, Hnf.
Qed.

(** Every signature of the table begins with the marker. *)
Lemma signature_starts_with_date sig cs l :
  In (sig, cs) cmd_sets -> starts_with sig l -> starts_with "Date:" l.
Proof.
  unfold starts_with.
  intros Hin Hsig.
  destruct Hin as [[= <- <-]|[[= <- <-]|[]]];
    apply (f_equal (take 5)) in Hsig; rewrite take_take in Hsig; exact Hsig.
Qed.

(** The two signatures exclude each other, so the first match of the
    table is the only one. *)
Lemma find_cmd_set_signature sig cs l :
  In (sig, cs) cmd_sets -> starts_with sig l ->
  find_cmd_set l cmd_sets = Some cs.
Proof.
  intros Hin Hsig. unfold cmd_sets, find_cmd_set.
  destruct Hin as [[= <- <-]|[[= <- <-]|[]]].
  - apply (strncmp_signature _ PSDISPLAY_CMD_SET_0) in Hsig; [|left; reflexivity].
    rewrite Hsig. reflexivity.
  - destruct (Z.eqb_spec
      (strncmp l (c_str "Date: Dec 10 2014 08:30")
         (Z.to_nat (strlen (c_str "Date: Dec 10 2014 08:30")))) 0) as [H0|_].
    + apply (strncmp_signature _ PSDISPLAY_CMD_SET_0) in H0; [|left; reflexivity].
      unfold starts_with in *.
      apply (f_equal (take 7)) in H0. apply (f_equal (take 7)) in Hsig.
      rewrite take_take in H0, Hsig. vm_compute in H0, Hsig. congruence.
    + apply (strncmp_signature _ PSDISPLAY_CMD_SET_1) in Hsig;
        [|right; left; reflexivity].
      rewrite Hsig. reflexivity.
Qed.

Lemma find_cmd_set_none l :
  (forall sig cs, In (sig, cs) cmd_sets -> ~ starts_with sig l) ->
  find_cmd_set l cmd_sets = None.
Proof.
  intros Hno. unfold cmd_sets, find_cmd_set.
  destruct (Z.eqb_spec
      (strncmp l (c_str "Date: Dec 10 2014 08:30")
         (Z.to_nat (strlen (c_str "Date: Dec 10 2014 08:30")))) 0) as [H0|_].
  { apply (strncmp_signature _ PSDISPLAY_CMD_SET_0) in H0; [|left; reflexivity].
    destruct (Hno _ _ ltac:(left; reflexivity) H0). }
  destruct (Z.eqb_spec
      (strncmp l (c_str "Date: Sep 12 2014 16:56:21")
         (Z.to_nat (strlen (c_str "Date: Sep 12 2014 16:56:21")))) 0) as [H1|_].
  { apply (strncmp_signature _ PSDISPLAY_CMD_SET_1) in H1;
      [|right; left; reflexivity].
    destruct (Hno _ _ ltac:(right; left; reflexivity) H1). }
  reflexivity.
Qed.

Lemma scanned_range hdr off i : scanned hdr off i -> 2 <= i < off.
Proof.
  induction 1 as [|i _ IH _ Hlt]; [lia|].
  pose proof (strlen_nonneg (drop (Z.to_nat i) hdr)). lia.
Qed.

(** The scan from index 2 is the scan resumed at any visited position. *)
Lemma scan_reaches s i :
  scanned (prog_header s) (prog_byte_offset s) i ->
  forall fuel, prog_byte_offset s - 2 < Z.of_nat fuel ->
  exists fuel',
    prog_byte_offset s - i < Z.of_nat fuel' /\
    scan_prog_header fuel 2 s = scan_prog_header fuel' i s.
Proof.
  induction 1 as [|i Hi IH Hcmp Hlt]; intros fuel Hfuel.
  - exists fuel. split; [exact Hfuel|reflexivity].
  - destruct (IH fuel Hfuel) as (fuel' & Hfuel' & ->).
    pose proof (scanned_range _ _ _ Hi) as Hr.
    pose proof (strlen_nonneg (drop (Z.to_nat i) (prog_header s))).
    destruct fuel' as [|fuel']; [lia|]. exists fuel'. split; [lia|].
    rewrite scan_prog_header_S. cbv zeta.
    destruct (Z.ltb_spec i (prog_byte_offset s)); [|lia].
    destruct (Z.eqb_spec (strncmp (drop (Z.to_nat i) (prog_header s))
                            (c_str "Date:") 5) 0); [contradiction|].
    reflexivity.
Qed.

(** At a visited position that holds the marker the scan stops, with
    the table's verdict. *)
Lemma scan_marker_found s i :
  prog_byte_offset s < PROG_HEADER_SIZE ->
  scanned (prog_header s) (prog_byte_offset s) i ->
  starts_with "Date:" (drop (Z.to_nat i) (prog_header s)) ->
  scan_prog_header (Z.to_nat PROG_HEADER_SIZE) 2 s =
    match find_cmd_set (drop (Z.to_nat i) (prog_header s)) cmd_sets with
    | Some cs => Ok tt (set_cmd_set cs s) []
    | None => Ok tt s [Stderr (MsgUnknownDate (cmd_set s))]
    end.
Proof.
  intros Hoff Hi Hmark. pose proof (scanned_range _ _ _ Hi) as Hr.
  destruct (scan_reaches s i Hi (Z.to_nat PROG_HEADER_SIZE))
    as (fuel & Hfuel & ->); [unfold PROG_HEADER_SIZE in *; lia|].
  destruct fuel as [|fuel]; [lia|].
  rewrite scan_prog_header_S. cbv zeta.
  destruct (Z.ltb_spec i (prog_byte_offset s)); [|lia].
  apply strncmp_date in Hmark. rewrite Hmark. reflexivity.
Qed.

(** With no marker at any visited position the scan runs off the end. *)
Lemma scan_no_marker s :
  (forall i, scanned (prog_header s) (prog_byte_offset s) i ->
             ~ starts_with "Date:" (drop (Z.to_nat i) (prog_header s))) ->
  forall fuel i,
    prog_byte_offset s - i < Z.of_nat fuel -> (0 < fuel)%nat ->
    (i < prog_byte_offset s -> scanned (prog_header s) (prog_byte_offset s) i) ->
    scan_prog_header fuel i s = Ok tt s [Stderr (MsgNoDateString (cmd_set s))].
Proof.
  intros Hno. induction fuel as [|fuel IH]; intros i Hfuel Hpos Hi; [lia|].
  rewrite scan_prog_header_S. cbv zeta.
  destruct (Z.ltb_spec i (prog_byte_offset s)) as [Hlt|Hge]; [|reflexivity].
  specialize (Hi Hlt). pose proof (Hno i Hi) as Hnm.
  pose proof (strlen_nonneg (drop (Z.to_nat i) (prog_header s))).
  destruct (Z.eqb_spec (strncmp (drop (Z.to_nat i) (prog_header s))
                          (c_str "Date:") 5) 0) as [H0|Hne].
  { apply strncmp_date in H0. contradiction. }
  apply IH; [lia|lia|]. intros Hlt'. apply scanned_next; assumption.
Qed.

(** The terminator leaves the bytes before it as captured. *)
Lemma take_drop_insert_after {A} (l : list A) (i n k : nat) (v : A) :
  (i + n <= k)%nat ->
  take n (drop i (<[k := v]> l)) = take n (drop i l).
Proof.
  intros Hk. apply list_eq. intros j.
  destruct (decide (j < n)%nat) as [Hj|Hj].
  - rewrite !lookup_take_lt, !lookup_drop by exact Hj.
    apply list_lookup_insert_ne. lia.
  - rewrite !lookup_take_ge by lia. reflexivity.
Qed.

Lemma before_scan_offset s : prog_byte_offset (before_scan s) < PROG_HEADER_SIZE.
Proof.
  unfold before_scan, terminator_offset. psd_cbn.
  destruct (Z.leb_spec PROG_HEADER_SIZE (prog_byte_offset s));
    unfold PROG_HEADER_SIZE in *; lia.
Qed.

(** The claim of C5 fails when the signature is the tail of a full
    capture: 256 bytes are captured, the last 23 of them the
    command-set-0 signature at the scanned position 233; the terminator
    written at index 255 clobbers the signature's last byte and the
    detector falls back to command set 1. *)
Lemma C5_signature_at_end_of_capture_missed :
  let s := captured_signature_at_end in
  prog_byte_offset s = 256 /\
  starts_with "Date: Dec 10 2014 08:30" (drop 233 (prog_header s)) /\
  scanned (terminated_header s) (terminator_offset s) 233 /\
  option_map cmd_set (final_state (ps_display_determine_command_set s))
  = Some PSDISPLAY_CMD_SET_1 /\
  option_map cmd_set (final_state (ps_display_determine_command_set s))
  <> Some PSDISPLAY_CMD_SET_0.
Proof.
  cbv zeta. split; [vm_compute; reflexivity|].
  split; [vm_compute; reflexivity|]. split.
  - replace 233 with
      (2 + strlen (drop (Z.to_nat 2)
                     (terminated_header captured_signature_at_end)) + 1)
      by (vm_compute; reflexivity).
    apply scanned_next.
    + apply scanned_first. vm_compute. reflexivity.
    + vm_compute. discriminate.
    + vm_compute. reflexivity.
  - assert (H : option_map cmd_set
                  (final_state
                     (ps_display_determine_command_set captured_signature_at_end))
                = Some PSDISPLAY_CMD_SET_1) by (vm_compute; reflexivity).
    rewrite H. split; [reflexivity|discriminate].
Qed.

(** C5 (amended). Let the detector run on a controller that captured
    [prog_byte_offset s] bytes; it writes a terminator at index
    [terminator_offset s] (the capture count, or 255 when the buffer is
    full) and scans from index 2.
    - If a visited position holds the signature of a command set, all of
      it before the terminator, that command set is selected.
    - If a visited position holds the marker but no signature, command
      set 1 (the default) is selected and the unknown-date warning is
      written.
    - If no visited position holds the marker, command set 1 is selected
      and the no-date warning is written.
    In each case the detector returns. *)
Theorem C5_detector_verdict (s : PSDisplayGlobals) :
  let hdr := terminated_header s in
  let off := terminator_offset s in
  let r := ps_display_determine_command_set s in
  (forall i sig cs,
      In (sig, cs) cmd_sets ->
      scanned hdr off i ->
      starts_with sig (drop (Z.to_nat i) (prog_header s)) ->
      i + Z.of_nat (length (c_str sig)) <= off ->
      option_map cmd_set (final_state r) = Some cs /\
      events r = [EnterDetermineCommandSet]) /\
  (forall i,
      scanned hdr off i ->
      starts_with "Date:" (drop (Z.to_nat i) hdr) ->
      (forall sig cs, In (sig, cs) cmd_sets ->
                      ~ starts_with sig (drop (Z.to_nat i) hdr)) ->
      option_map cmd_set (final_state r) = Some PSDISPLAY_CMD_SET_1 /\
      events r = [EnterDetermineCommandSet;
                  Stderr (MsgUnknownDate PSDISPLAY_CMD_SET_1)]) /\
  ((forall i, scanned hdr off i ->
              ~ starts_with "Date:" (drop (Z.to_nat i) hdr)) ->
   option_map cmd_set (final_state r) = Some PSDISPLAY_CMD_SET_1 /\
   events r = [EnterDetermineCommandSet;
               Stderr (MsgNoDateString PSDISPLAY_CMD_SET_1)]).
Proof.
  intros hdr off r. subst r. rewrite ps_display_determine_command_set_eq.
  pose proof (before_scan_offset s) as Hoff.
  split; [|split].
  - intros i sig cs Hin Hi Hsig Hend.
    pose proof (scanned_range _ _ _ Hi) as Hr.
    assert (Hsig' : starts_with sig (drop (Z.to_nat i) hdr)).
    { unfold starts_with in *. subst hdr. unfold terminated_header.
      rewrite take_drop_insert_after; [exact Hsig|]. subst off. lia. }
    rewrite (scan_marker_found (before_scan s) i Hoff Hi
               (signature_starts_with_date _ _ _ Hin Hsig')).
    change (prog_header (before_scan s)) with hdr.
    rewrite (find_cmd_set_signature _ _ _ Hin Hsig'). split; reflexivity.
  - intros i Hi Hmark Hno.
    rewrite (scan_marker_found (before_scan s) i Hoff Hi Hmark).
    change (prog_header (before_scan s)) with hdr.
    rewrite (find_cmd_set_none _ Hno). split; reflexivity.
  - intros Hno.
    rewrite (scan_no_marker (before_scan s) Hno).
    + split; reflexivity.
    + unfold PROG_HEADER_SIZE in *. lia.
    + unfold PROG_HEADER_SIZE. lia.
    + intros Hlt. apply scanned_first. exact Hlt.
Qed.

(** C5 on three captures: the header of the December 2014 boot ROM, whose
    date is visited at index 54; a header with an unknown date; a header
    with no date. *)
Lemma C5_detector_verdict_witness :
  option_map cmd_set
    (final_state (ps_display_determine_command_set (capture header_dec_2014)))
  = Some PSDISPLAY_CMD_SET_0 /\
  events (ps_display_determine_command_set (capture header_unknown_date))
  = [EnterDetermineCommandSet; Stderr (MsgUnknownDate PSDISPLAY_CMD_SET_1)] /\
  events (ps_display_determine_command_set (capture header_no_date))
  = [EnterDetermineCommandSet; Stderr (MsgNoDateString PSDISPLAY_CMD_SET_1)].
Proof.
  split; [|split].
  - refine (proj1 (proj1 (C5_detector_verdict (capture header_dec_2014))
                     54 "Date: Dec 10 2014 08:30"%string PSDISPLAY_CMD_SET_0
                     _ _ _ _)).
    + left. reflexivity.
    + set (hdr := terminated_header (capture header_dec_2014)).
      set (off := terminator_offset (capture header_dec_2014)).
      assert (H2 : scanned hdr off 2)
        by (apply scanned_first; vm_compute; reflexivity).
      assert (H10 : scanned hdr off 10).
      { replace 10 with (2 + strlen (drop (Z.to_nat 2) hdr) + 1)
          by (vm_compute; reflexivity).
        apply scanned_next;
          [exact H2|vm_compute; discriminate|vm_compute; reflexivity]. }
      assert (H33 : scanned hdr off 33).
      { replace 33 with (10 + strlen (drop (Z.to_nat 10) hdr) + 1)
          by (vm_compute; reflexivity).
        apply scanned_next;
          [exact H10|vm_compute; discriminate|vm_compute; reflexivity]. }
      replace 54 with (33 + strlen (drop (Z.to_nat 33) hdr) + 1)
        by (vm_compute; reflexivity).
      apply scanned_next;
        [exact H33|vm_compute; discriminate|vm_compute; reflexivity].
    + vm_compute. reflexivity.
    + vm_compute. discriminate.
  - refine (proj2 (proj1 (proj2 (C5_detector_verdict (capture header_unknown_date)))
                     2 _ _ _)).
    + apply scanned_first. vm_compute. reflexivity.
    + vm_compute. reflexivity.
    + intros sig cs [[= <- <-]|[[= <- <-]|[]]]; vm_compute; discriminate.
  - refine (proj2 (proj2 (proj2 (C5_detector_verdict (capture header_no_date))) _)).
    assert (Honly : forall i,
               scanned (terminated_header (capture header_no_date))
                       (terminator_offset (capture header_no_date)) i -> i = 2).
    { induction 1 as [|i _ -> _ Hlt]; [reflexivity|].
      exfalso. vm_compute in Hlt. discriminate Hlt. }
    intros i Hi. rewrite (Honly i Hi). vm_compute. discriminate.
Defined.

(** ** Invariants of the reachable states *)

Lemma bind_Ok_inv {A B} (m : M A) (k : A -> M B) s b s2 o :
  bind m k s = Ok b s2 o ->
  exists a s1 o1 o2,
    m s = Ok a s1 o1 /\ k a s1 = Ok b s2 o2 /\ o = o1 ++ o2.
Proof.
  unfold bind. destruct (m s) as [a s1 o1|]; [|discriminate].
  destruct (k a s1) as [b' s2' o2|] eqn:Hk; [|discriminate].
  intros [= <- <- <-]. exists a, s1, o1, o2. auto.
Qed.

Lemma set_framebuffer_same s : set_framebuffer (framebuffer s) s = s.
Proof. destruct s; reflexivity. Qed.

(** The splash blit returns on every state. *)
Lemma draw_bitmap_loop_splash_total bits n : forall i s,
  (512 <= length bits)%nat -> 0 <= i -> i + Z.of_nat n <= 4096 ->
  exists fb, draw_bitmap_loop n bits 8 68 128 i s = Ok tt (set_framebuffer fb s) [].
Proof.
  induction n as [|n IH]; intros i s Hlen Hi Hn.
  - exists (framebuffer s). rewrite set_framebuffer_same. reflexivity.
  - cbn [draw_bitmap_loop].
    rewrite (bind_Ok _ _ _ _ _ _
               (draw_bitmap_pixel_splash bits i s Hlen ltac:(lia))).
    destruct (IH (i + 1)
                (set_framebuffer
                   (<[Z.to_nat (splash_index i) := lsb_first_color bits i]>
                      (framebuffer s)) s) Hlen) as (fb & ->); [lia|lia|].
    exists fb. reflexivity.
Qed.

Lemma draw_scene_total sc s :
  exists fb o,
    draw_scene sc s = Ok tt (set_framebuffer fb s) o /\
    (o = [] \/ o = [Stderr (MsgUnsupportedScene sc)]).
Proof.
  unfold draw_scene, fb_memset.
  destruct (sc =? PSDISPLAYSCENE_BLACK); [eexists _, _; split; [reflexivity|auto]|].
  destruct (sc =? PSDISPLAYSCENE_SPLASH).
  { unfold ps_display_draw_bitmap.
    destruct (draw_bitmap_loop_splash_total ps_display_get_pebble_logo
                (Z.to_nat (u32 (128 * 32))) 0 s) as (fb & ->);
      [vm_compute; lia|lia|vm_compute; discriminate|].
    eexists _, _; split; [reflexivity|auto]. }
  destruct (sc =? PSDISPLAYSCENE_UPDATE); [eexists _, _; split; [reflexivity|auto]|].
  destruct (sc =? PSDISPLAYSCENE_ERROR); [eexists _, _; split; [reflexivity|auto]|].
  exists (framebuffer s), [Stderr (MsgUnsupportedScene sc)].
  rewrite set_framebuffer_same. split; [reflexivity|auto].
Qed.

(** Case analysis on the tests of the code, then one closing step per
    path. *)
Ltac split_goal :=
  match goal with
  | |- context [if ?c then _ else _] =>
    lazymatch c with
    | Z.eqb ?a ?b => destruct (Z.eqb_spec a b)
    | Z.leb ?a ?b => destruct (Z.leb_spec a b)
    | Z.ltb ?a ?b => destruct (Z.ltb_spec a b)
    | _ => destruct c eqn:?
    end
  end.

Ltac close_goal Hcol Hscene Hset :=
  eexists _, _; split; [reflexivity|]; psd_cbn;
  split;
  [ split; [first [exact Hcol | psd_geometry; lia]|];
    split;
    [ let Heq := fresh "Heq" in
      intros Heq;
      first [ discriminate Heq
            | exact (Hscene Heq)
            | split; first [assumption | reflexivity] ]
    | let Hne := fresh "Hne" in
      intros Hne;
      first [ discriminate
            | exact (Hset Hne)
            | contradiction
            | apply Hset; discriminate ] ]
  | let Hin := fresh "Hin" in
    intros ? Hin; cbn [In] in Hin; intuition discriminate ].

Lemma transfer_ok s d :
  controller_invariant s ->
  exists s' out,
    ps_display_transfer d s = Ok 0 s' out /\
    controller_invariant s' /\ no_wrong_state out.
Proof.
  unfold controller_invariant, no_wrong_state. intros (Hcol & Hscene & Hset).
  destruct s as [rd fb col row st c p po sc sv cs cnt hdr off cset].
  cbn [col_index state cmd cmd_set] in *.
  unfold ps_display_transfer. psd_cbn.
  destruct cs.
  { destruct st; psd_cbn; close_goal Hcol Hscene Hset. }
  destruct st.
  - psd_cbn. split_goal; psd_cbn; close_goal Hcol Hscene Hset.
  - psd_cbn. destruct cset; psd_cbn.
    + exfalso. apply Hset; [discriminate|reflexivity].
    + unfold ps_display_execute_current_cmd_set0.
      repeat (psd_cbn; split_goal); psd_cbn; close_goal Hcol Hscene Hset.
    + unfold ps_display_execute_current_cmd_set1.
      repeat (psd_cbn; split_goal); psd_cbn; close_goal Hcol Hscene Hset.
  - unfold accept_param.
    repeat (psd_cbn; split_goal); psd_cbn; close_goal Hcol Hscene Hset.
  - destruct (Hscene eq_refl) as [-> ->].
    unfold ps_display_execute_current_cmd_set0. psd_cbn.
    repeat (split_goal; [discriminate|]).
    split_goal; [|contradiction]. psd_cbn.
    match goal with
    | |- context [draw_scene ?x ?st] =>
      destruct (draw_scene_total x st) as (fb1 & o1 & -> & Ho1)
    end.
    psd_cbn. eexists _, _. split; [reflexivity|]. psd_cbn.
    split; [split; [exact Hcol|split; [intros Heq; discriminate Heq|discriminate]]|].
    intros st Hin. rewrite app_nil_r in Hin.
    destruct Ho1 as [-> | ->]; cbn [In app] in Hin; intuition discriminate.
  - unfold accept_lineno.
    pose proof (Z.mod_pos_bound d 4294967296 eq_refl) as Hd. fold (u32 d) in Hd.
    repeat (psd_cbn; split_goal); psd_cbn; close_goal Hcol Hscene Hset.
  - unfold accept_data, fb_store.
    repeat (psd_cbn; split_goal); psd_cbn;
      try (psd_geometry; lia); close_goal Hcol Hscene Hset.
Qed.

Lemma detector_warnings_no_wrong_state out :
  Forall is_detector_warning out -> no_wrong_state out.
Proof.
  intros Hall st Hin. rewrite Forall_forall in Hall.
  apply list_elem_of_In in Hin.
  destruct (Hall _ Hin) as (cs & [H|H]); discriminate H.
Qed.

Lemma set_cs_ok s value :
  controller_invariant s ->
  exists s' out,
    ps_display_set_cs value s = Ok 0 s' out /\
    controller_invariant s' /\ no_wrong_state out.
Proof.
  unfold controller_invariant, no_wrong_state. intros (Hcol & Hscene & Hset).
  destruct s as [rd fb col row st c p po sc sv cs cnt hdr off cset].
  cbn [col_index state cmd cmd_set] in *.
  unfold ps_display_set_cs. psd_cbn.
  destruct value; [destruct st|]; psd_cbn; close_goal Hcol Hscene Hset.
Qed.

Lemma set_reset_pin_ok s level :
  controller_invariant s ->
  exists s' out,
    ps_display_set_reset_pin_cb level s = Ok tt s' out /\
    controller_invariant s' /\ no_wrong_state out.
Proof.
  unfold controller_invariant, no_wrong_state. intros (Hcol & Hscene & Hset).
  destruct s as [rd fb col row st c p po sc sv cs cnt hdr off cset].
  cbn [col_index state cmd cmd_set] in *.
  unfold ps_display_set_reset_pin_cb. psd_cbn.
  destruct (level =? 0); cbn [negb]; psd_cbn; close_goal Hcol Hscene Hset.
Qed.

Lemma set_sclk_pin_ok s level :
  controller_invariant s ->
  exists s' out,
    ps_display_set_sclk_pin_cb level s = Ok tt s' out /\
    controller_invariant s' /\ no_wrong_state out.
Proof.
  unfold controller_invariant. intros (Hcol & Hscene & Hset).
  destruct s as [rd fb col row st c p po sc sv cs cnt hdr off cset].
  cbn [col_index state cmd cmd_set] in *.
  unfold ps_display_set_sclk_pin_cb. psd_cbn.
  destruct cs; psd_cbn; [|unfold no_wrong_state; close_goal Hcol Hscene Hset].
  destruct (negb (level =? 0) && negb (eqb (negb (level =? 0)) sv)); psd_cbn;
    split_goal; psd_cbn;
    try (unfold no_wrong_state; close_goal Hcol Hscene Hset);
    (destruct st; psd_cbn;
     [|unfold no_wrong_state; close_goal Hcol Hscene Hset..]);
    match goal with
    | |- context [ps_display_determine_command_set ?st] =>
      destruct (ps_display_determine_command_set_total st)
        as (cs' & o & -> & Ho & Hcs')
    end; unfold before_scan; psd_cbn;
    (eexists _, _; split; [reflexivity|]); psd_cbn;
    (split; [split; [exact Hcol|split; [intros Heq; discriminate Heq
                                      |intros _; exact Hcs']]|]);
    intros st Hin; rewrite ?app_nil_r in Hin; cbn [In] in Hin;
    destruct Hin as [Hin|[Hin|[Hin|Hin]]]; try discriminate Hin;
    exact (detector_warnings_no_wrong_state o Ho st Hin).
Qed.

Lemma update_display_ok s :
  controller_invariant s ->
  exists s' out,
    ps_display_update_display s = Ok tt s' out /\
    controller_invariant s' /\ no_wrong_state out.
Proof.
  unfold controller_invariant, no_wrong_state. intros (Hcol & Hscene & Hset).
  destruct s as [rd fb col row st c p po sc sv cs cnt hdr off cset].
  cbn [col_index state cmd cmd_set] in *.
  unfold ps_display_update_display. psd_cbn.
  destruct rd; cbn [negb]; psd_cbn; close_goal Hcol Hscene Hset.
Qed.

(** Every input is handled, without [abort()] and without a store
    outside the framebuffer, and keeps the invariant; the wrong-state
    diagnostic of the draw-scene handler is not written. *)
Lemma step_ok s i :
  controller_invariant s ->
  exists s' out,
    step i s = Ok tt s' out /\ controller_invariant s' /\ no_wrong_state out.
Proof.
  intros Hinv. destruct i as [d|v|level|level| |]; cbn [step].
  - destruct (transfer_ok s d Hinv) as (s' & out & H & Hinv' & Hout).
    exists s', out. rewrite (bind_Ok _ _ _ _ _ _ H). cbn [ret].
    rewrite app_nil_r. auto.
  - destruct (set_cs_ok s v Hinv) as (s' & out & H & Hinv' & Hout).
    exists s', out. rewrite (bind_Ok _ _ _ _ _ _ H). cbn [ret].
    rewrite app_nil_r. auto.
  - apply set_reset_pin_ok, Hinv.
  - apply set_sclk_pin_ok, Hinv.
  - apply update_display_ok, Hinv.
  - exists (set_redraw true s), []. split; [reflexivity|].
    split; [exact Hinv|intros st []].
Qed.

Lemma controller_invariant_init : controller_invariant initial_state.
Proof.
  split; [cbn [col_index initial_state]; psd_geometry; lia|].
  split; [discriminate|]. intros H. exfalso. apply H. reflexivity.
Qed.

Lemma reachable_invariant s : reachable s -> controller_invariant s.
Proof.
  induction 1 as [|s i s' out _ IH Hstep]; [exact controller_invariant_init|].
  destruct (step_ok s i IH) as (s1 & o1 & H1 & Hinv & _).
  rewrite H1 in Hstep. injection Hstep as <- _. exact Hinv.
Qed.

Lemma reachable_run inputs : forall s s' out,
  reachable s -> run inputs s = Ok tt s' out -> reachable s'.
Proof.
  induction inputs as [|i rest IH]; intros s s' out Hs Hrun.
  - injection Hrun as <- _. exact Hs.
  - cbn [run] in Hrun.
    apply bind_Ok_inv in Hrun as ([] & s1 & o1 & o2 & H1 & H2 & _).
    exact (IH _ _ _ (reachable_step _ _ _ _ Hs H1) H2).
Qed.

Lemma reachable_state_after inputs : reachable (state_after inputs).
Proof.
  unfold state_after.
  destruct (run inputs initial_state) as [[] s out|] eqn:Hrun;
    [|exact reachable_init].
  exact (reachable_run _ _ _ _ reachable_init Hrun).
Qed.

(** C7. A column index of 148 or more received in the
    accepting-line-number state is replaced by 0 and the invalid-column
    diagnostic is written.  In every reachable state the column cursor
    is within [0, 148); a data byte received in the accepting-data state
    is handled without fault and either leaves the framebuffer as it was
    (padding, or the byte that closes the line) or stores the byte at
    row [row_index] in [0, 172) and column [col_index], an index inside
    the framebuffer. *)
Theorem C7_column_clamped_writes_in_bounds :
  (forall s d,
      cs_value s = false -> state s = PSDISPLAYSTATE_ACCEPTING_LINENO ->
      SNOWY_NUM_COLS <= u32 d ->
      exists s',
        ps_display_transfer d s
        = Ok 0 s' [Stderr (MsgInvalidColumn (u32 d)); IrqIntn true] /\
        col_index s' = 0 /\ state s' = PSDISPLAYSTATE_ACCEPTING_DATA) /\
  (forall s d,
      reachable s ->
      cs_value s = false -> state s = PSDISPLAYSTATE_ACCEPTING_DATA ->
      0 <= col_index s < SNOWY_NUM_COLS /\
      exists s' out,
        ps_display_transfer d s = Ok 0 s' out /\
        (framebuffer s' = framebuffer s \/
         (0 <= row_index s < SNOWY_NUM_ROWS /\
          0 <= row_index s * SNOWY_BYTES_PER_ROW + col_index s
            < FRAMEBUFFER_SIZE /\
          framebuffer s'
          = <[Z.to_nat (row_index s * SNOWY_BYTES_PER_ROW + col_index s)
              := d mod 256]> (framebuffer s)))).
Proof.
  split.
  - intros s d Hcs Hst Hd. rewrite (transfer_lineno s d Hcs Hst).
    destruct (Z.leb_spec SNOWY_NUM_COLS (u32 d)); [|lia].
    eexists. repeat split.
  - intros s d Hreach Hcs Hst.
    destruct (reachable_invariant s Hreach) as (Hcol & _).
    split; [exact Hcol|].
    destruct (Z_lt_le_dec (row_index s) 0) as [Hneg|Hnonneg].
    + destruct (Z_le_gt_dec (row_index s) (- SNOWY_ROWS_SKIPPED_AT_TOP)).
      * rewrite (transfer_data_last s d Hcs Hst) by assumption.
        eexists _, _. split; [reflexivity|]. left. reflexivity.
      * rewrite (transfer_data_padding s d Hcs Hst) by lia.
        eexists _, _. split; [reflexivity|]. left. reflexivity.
    + destruct (Z_lt_le_dec (row_index s) SNOWY_NUM_ROWS) as [Hvis|Hpad].
      * rewrite (transfer_data_visible s d Hcs Hst) by (assumption || lia).
        eexists _, _. split; [reflexivity|]. right.
        split; [lia|]. split; [psd_geometry; lia|reflexivity].
      * rewrite (transfer_data_padding s d Hcs Hst) by lia.
        eexists _, _. split; [reflexivity|]. left. reflexivity.
Qed.

(** C7 on the column index 200: clamped, and the state reached by
    sending it after a boot has its column cursor in range. *)
Lemma C7_column_clamped_writes_in_bounds_witness :
  (exists s',
      ps_display_transfer 200
        (set_state PSDISPLAYSTATE_ACCEPTING_LINENO (idle_state PSDISPLAY_CMD_SET_1))
      = Ok 0 s' [Stderr (MsgInvalidColumn (u32 200)); IrqIntn true] /\
      col_index s' = 0 /\ state s' = PSDISPLAYSTATE_ACCEPTING_DATA) /\
  0 <= col_index
         (state_after (boot [] ++ map InTransfer [PSDISPLAYCMD1_FRAME_DATA; 200]))
    < SNOWY_NUM_COLS.
Proof.
  split.
  - apply (proj1 C7_column_clamped_writes_in_bounds).
    + reflexivity.
    + reflexivity.
    + vm_compute. discriminate.
  - refine (proj1 (proj2 C7_column_clamped_writes_in_bounds
                     (state_after
                        (boot [] ++ map InTransfer [PSDISPLAYCMD1_FRAME_DATA; 200]))
                     0 _ _ _)).
    + apply reachable_state_after.
    + vm_compute. reflexivity.
    + vm_compute. reflexivity.
Defined.

(** C10. In every reachable state, if a scene byte is awaited then the
    stored command is DrawScene and the command set is 0.  From a
    reachable state no input makes the draw-scene handler write its
    wrong-state diagnostic: the handler runs only from the
    accepting-command and accepting-scene-byte states. *)
Theorem C10_scene_byte_only_for_draw_scene :
  (forall s,
      reachable s -> state s = PSDISPLAYSTATE_ACCEPTING_SCENE_BYTE ->
      cmd s = PSDISPLAYCMD0_DRAW_SCENE /\ cmd_set s = PSDISPLAY_CMD_SET_0) /\
  (forall s i st,
      reachable s -> ~ In (Stderr (MsgWrongState st)) (events (step i s))).
Proof.
  split.
  - intros s Hreach Hst.
    destruct (reachable_invariant s Hreach) as (_ & Hscene & _). auto.
  - intros s i st Hreach.
    destruct (step_ok s i (reachable_invariant s Hreach))
      as (s' & out & -> & _ & Hout).
    apply Hout.
Qed.

(** C10 on the state reached by booting with the December 2014 header
    and sending the DrawScene opcode. *)
Lemma C10_scene_byte_only_for_draw_scene_witness :
  let s := state_after (boot header_dec_2014
                        ++ [InTransfer PSDISPLAYCMD0_DRAW_SCENE]) in
  state s = PSDISPLAYSTATE_ACCEPTING_SCENE_BYTE /\
  cmd s = PSDISPLAYCMD0_DRAW_SCENE /\ cmd_set s = PSDISPLAY_CMD_SET_0 /\
  ~ In (Stderr (MsgWrongState PSDISPLAYSTATE_ACCEPTING_SCENE_BYTE))
       (events (step (InTransfer PSDISPLAYSCENE_BLACK) s)).
Proof.
  cbv zeta.
  assert (Hst : state (state_after (boot header_dec_2014
                                    ++ [InTransfer PSDISPLAYCMD0_DRAW_SCENE]))
                = PSDISPLAYSTATE_ACCEPTING_SCENE_BYTE)
    by (vm_compute; reflexivity).
  split; [exact Hst|].
  destruct (proj1 C10_scene_byte_only_for_draw_scene _
              (reachable_state_after _) Hst) as [Hcmd Hset].
  split; [exact Hcmd|]. split; [exact Hset|].
  apply (proj2 C10_scene_byte_only_for_draw_scene).
  apply reachable_state_after.
Defined.

(** * Further properties *)

Ltac destruct_state s :=
  destruct s as [rd0 fb0 col0 row0 st0 c0 p0 po0 sc0 sv0 cs0 cnt0 hdr0 off0 cset0].

Ltac psd_consts :=
  unfold PSDISPLAYCMD0_NULL, PSDISPLAYCMD0_SET_PARAMETER, PSDISPLAYCMD0_DISPLAY_OFF,
    PSDISPLAYCMD0_DISPLAY_ON, PSDISPLAYCMD0_DRAW_SCENE, PSDISPLAYCMD1_FRAME_BEGIN,
    PSDISPLAYCMD1_FRAME_DATA, PSDISPLAYCMD1_FRAME_END, PSDISPLAYSCENE_BLACK,
    PSDISPLAYSCENE_SPLASH, PSDISPLAYSCENE_UPDATE, PSDISPLAYSCENE_ERROR in *.

(** ** No fault from power-on *)

Lemma run_ok inputs : forall s,
  controller_invariant s ->
  exists s' out, run inputs s = Ok tt s' out /\ controller_invariant s'.
Proof.
  induction inputs as [|i rest IH]; intros s Hinv.
  - exists s, []. split; [reflexivity|exact Hinv].
  - destruct (step_ok s i Hinv) as (s1 & o1 & H1 & Hinv1 & _).
    destruct (IH s1 Hinv1) as (s2 & o2 & H2 & Hinv2).
    exists s2, (o1 ++ o2). rewrite (run_cons_Ok _ _ _ _ _ H1), H2. auto.
Qed.

(** X1. From a reachable state every sequence of inputs (transfers,
    chip-select changes, reset and clock callbacks, display refreshes) is
    handled to the end: [abort()] is not called, no store falls outside
    the framebuffer, no read outside the splash bitmap, and the scan of
    the detector ends.  The state reached is reachable again. *)
Theorem X1_reachable_runs_never_fault (s : PSDisplayGlobals) (inputs : list input) :
  reachable s ->
  faulted (run inputs s) = None /\
  exists s', final_state (run inputs s) = Some s' /\ reachable s'.
Proof.
  intros Hs.
  destruct (run_ok inputs s (reachable_invariant s Hs)) as (s' & out & Hrun & _).
  rewrite Hrun. split; [reflexivity|]. exists s'. split; [reflexivity|].
  exact (reachable_run _ _ _ _ Hs Hrun).
Qed.

(** X1 on a boot with the December 2014 header followed by the DrawScene
    opcode. *)
Lemma X1_reachable_runs_never_fault_witness :
  reachable initial_state /\
  faulted (run (boot header_dec_2014 ++ [InTransfer PSDISPLAYCMD0_DRAW_SCENE])
               initial_state) = None.
Proof.
  split; [exact reachable_init|].
  exact (proj1 (X1_reachable_runs_never_fault initial_state _ reachable_init)).
Defined.

(** ** The parameter offset stays below four *)

(** The blit keeps the size of the framebuffer and emits nothing. *)
Lemma draw_bitmap_loop_length n bits xo yo w : forall i s,
  match draw_bitmap_loop n bits xo yo w i s with
  | Ok _ s' out =>
    exists fb, s' = set_framebuffer fb s /\
               length fb = length (framebuffer s) /\ out = []
  | Fault _ _ => True
  end.
Proof.
  induction n as [|n IH]; intros i s.
  - exists (framebuffer s). cbn [draw_bitmap_loop ret].
    rewrite set_framebuffer_same. auto.
  - cbn [draw_bitmap_loop]. unfold bind at 1.
    assert (Hpix : match draw_bitmap_pixel bits xo yo w i s with
                   | Ok _ s1 o1 =>
                     exists fb, s1 = set_framebuffer fb s /\
                                length fb = length (framebuffer s) /\ o1 = []
                   | Fault _ _ => True
                   end).
    { unfold draw_bitmap_pixel, ps_display_set_pixel, fb_store.
      destruct (bits !! _); [|exact I].
      destruct (negb _); destruct (_ && _); try exact I;
        eexists; (split; [reflexivity|]); rewrite length_insert; auto. }
    destruct (draw_bitmap_pixel bits xo yo w i s) as [[] s1 o1|]; [|exact I].
    destruct Hpix as (fb1 & -> & Hl1 & ->).
    specialize (IH (i + 1) (set_framebuffer fb1 s)).
    destruct (draw_bitmap_loop n bits xo yo w (i + 1) (set_framebuffer fb1 s))
      as [[] s2 o2|]; [|exact I].
    destruct IH as (fb2 & -> & Hl2 & ->).
    exists fb2. split; [destruct_state s; reflexivity|].
    split; [|reflexivity]. rewrite Hl2. exact Hl1.
Qed.

Lemma draw_scene_length sc s :
  Z.of_nat (length (framebuffer s)) = FRAMEBUFFER_SIZE ->
  match draw_scene sc s with
  | Ok _ s' out =>
    exists fb, s' = set_framebuffer fb s /\
               Z.of_nat (length fb) = FRAMEBUFFER_SIZE /\
               (out = [] \/ out = [Stderr (MsgUnsupportedScene sc)])
  | Fault _ _ => True
  end.
Proof.
  intros Hlen. unfold draw_scene, fb_memset.
  assert (Hrep : forall c : Z,
             Z.of_nat (length (replicate (Z.to_nat FRAMEBUFFER_SIZE) c))
             = FRAMEBUFFER_SIZE).
  { intros c. rewrite length_replicate. apply Z2Nat.id. discriminate. }
  destruct (sc =? PSDISPLAYSCENE_BLACK);
    [eexists; split; [reflexivity|]; split; [apply Hrep|auto]|].
  destruct (sc =? PSDISPLAYSCENE_SPLASH).
  { unfold ps_display_draw_bitmap.
    pose proof (draw_bitmap_loop_length (Z.to_nat (u32 (128 * 32)))
                  ps_display_get_pebble_logo 8 68 128 0 s) as H.
    destruct (draw_bitmap_loop _ _ _ _ _ _ _) as [[] s' out|]; [|exact I].
    destruct H as (fb & -> & Hl & ->). exists fb. rewrite Hl. auto. }
  destruct (sc =? PSDISPLAYSCENE_UPDATE);
    [eexists; split; [reflexivity|]; split; [apply Hrep|auto]|].
  destruct (sc =? PSDISPLAYSCENE_ERROR);
    [eexists; split; [reflexivity|]; split; [apply Hrep|auto]|].
  exists (framebuffer s). rewrite set_framebuffer_same. auto.
Qed.

Ltac dec_unfold :=
  psd_cbn; cbn [keeps_decoder_invariant];
  unfold decoder_invariant, no_param_overflow; psd_cbn.

Ltac close_dec Hlen :=
  dec_unfold;
  first
    [ exact I
    | split;
      [ split;
        [ let Heq := fresh "Heq" in
          intros Heq;
          first [discriminate Heq | lia
                | (unfold u32 in *; Z.div_mod_to_equations; lia)]
        | first [exact Hlen | rewrite length_insert; exact Hlen] ]
      | let Hin := fresh "Hin" in
        intros Hin; cbn [In app] in Hin; intuition discriminate ] ].

Lemma transfer_keeps_decoder_invariant s d :
  decoder_invariant s -> keeps_decoder_invariant (ps_display_transfer d s).
Proof.
  intros (Hpar & Hlen). destruct_state s.
  cbn [state parameter_byte_offset framebuffer] in *.
  unfold ps_display_transfer. psd_cbn.
  destruct cs0.
  { destruct st0; psd_cbn; try (specialize (Hpar eq_refl)); close_dec Hlen. }
  destruct st0.
  - psd_cbn. split_goal; close_dec Hlen.
  - psd_cbn. destruct cset0; psd_cbn.
    + exact I.
    + unfold ps_display_execute_current_cmd_set0.
      repeat (psd_cbn; split_goal); close_dec Hlen.
    + unfold ps_display_execute_current_cmd_set1.
      repeat (psd_cbn; split_goal); close_dec Hlen.
  - specialize (Hpar eq_refl). unfold accept_param.
    repeat (psd_cbn; split_goal); try (exfalso; lia); close_dec Hlen.
  - unfold ps_display_execute_current_cmd_set0. psd_cbn.
    repeat (split_goal; [close_dec Hlen|]); psd_cbn.
    split_goal; [|close_dec Hlen]. psd_cbn.
    match goal with
    | |- context [draw_scene ?x ?st] =>
      pose proof (draw_scene_length x st Hlen) as Hd;
      destruct (draw_scene x st) as [[] s1 o1|]; [|exact I]
    end.
    destruct Hd as (fb1 & -> & Hl1 & Ho1). dec_unfold.
    split; [split; [intros Heq; discriminate Heq|exact Hl1]|].
    intros Hin. rewrite app_nil_r in Hin.
    destruct Ho1 as [-> | ->]; cbn [In app] in Hin; intuition discriminate.
  - unfold accept_lineno. repeat (psd_cbn; split_goal); close_dec Hlen.
  - unfold accept_data, fb_store. repeat (psd_cbn; split_goal); close_dec Hlen.
Qed.

Lemma detector_warnings_no_param_overflow out :
  Forall is_detector_warning out -> no_param_overflow out.
Proof.
  intros Hall Hin. rewrite Forall_forall in Hall.
  apply list_elem_of_In in Hin.
  destruct (Hall _ Hin) as (cs & [H|H]); discriminate H.
Qed.

Lemma set_cs_keeps_decoder_invariant s value :
  decoder_invariant s -> keeps_decoder_invariant (ps_display_set_cs value s).
Proof.
  intros (Hpar & Hlen). destruct_state s.
  cbn [state parameter_byte_offset framebuffer] in *.
  unfold ps_display_set_cs. psd_cbn.
  destruct value; [destruct st0|]; try (specialize (Hpar eq_refl)); close_dec Hlen.
Qed.

Lemma set_reset_pin_keeps_decoder_invariant s level :
  decoder_invariant s ->
  keeps_decoder_invariant (ps_display_set_reset_pin_cb level s).
Proof.
  intros (Hpar & Hlen). destruct_state s.
  cbn [state parameter_byte_offset framebuffer] in *.
  unfold ps_display_set_reset_pin_cb. psd_cbn.
  destruct (level =? 0); cbn [negb]; destruct st0;
    try (specialize (Hpar eq_refl)); close_dec Hlen.
Qed.

Lemma set_sclk_pin_keeps_decoder_invariant s level :
  decoder_invariant s ->
  keeps_decoder_invariant (ps_display_set_sclk_pin_cb level s).
Proof.
  intros (Hpar & Hlen). destruct_state s.
  cbn [state parameter_byte_offset framebuffer] in *.
  unfold ps_display_set_sclk_pin_cb. psd_cbn.
  destruct cs0; psd_cbn;
    [|destruct st0; try (specialize (Hpar eq_refl)); close_dec Hlen].
  destruct (negb (level =? 0) && negb (eqb (negb (level =? 0)) sv0)); psd_cbn;
    split_goal; psd_cbn;
    (destruct st0; try (specialize (Hpar eq_refl)); psd_cbn;
     try close_dec Hlen);
    match goal with
    | |- context [ps_display_determine_command_set ?st] =>
      destruct (ps_display_determine_command_set_total st)
        as (cs' & o & -> & Ho & _)
    end; unfold before_scan; dec_unfold;
    (split; [split; [intros Heq; discriminate Heq|exact Hlen]|]);
    intros Hin; rewrite ?app_nil_r in Hin; cbn [In] in Hin;
    destruct Hin as [Hin|[Hin|[Hin|Hin]]]; try discriminate Hin;
    exact (detector_warnings_no_param_overflow o Ho Hin).
Qed.

Lemma step_keeps_decoder_invariant s i :
  decoder_invariant s -> keeps_decoder_invariant (step i s).
Proof.
  intros Hinv. destruct i as [d|v|level|level| |]; cbn [step].
  - pose proof (transfer_keeps_decoder_invariant s d Hinv) as H.
    unfold bind. destruct (ps_display_transfer d s); [|exact I].
    cbn [ret keeps_decoder_invariant] in *. rewrite app_nil_r. exact H.
  - pose proof (set_cs_keeps_decoder_invariant s v Hinv) as H.
    unfold bind. destruct (ps_display_set_cs v s); [|exact I].
    cbn [ret keeps_decoder_invariant] in *. rewrite app_nil_r. exact H.
  - apply set_reset_pin_keeps_decoder_invariant, Hinv.
  - apply set_sclk_pin_keeps_decoder_invariant, Hinv.
  - destruct Hinv as (Hpar & Hlen). destruct_state s.
    cbn [state parameter_byte_offset framebuffer] in *.
    unfold ps_display_update_display. psd_cbn.
    destruct rd0; cbn [negb]; destruct st0; try (specialize (Hpar eq_refl));
      close_dec Hlen.
  - destruct Hinv as (Hpar & Hlen). destruct_state s.
    cbn [state parameter_byte_offset framebuffer] in *.
    unfold ps_display_invalidate_display.
    destruct st0; try (specialize (Hpar eq_refl)); close_dec Hlen.
Qed.

Lemma decoder_invariant_init : decoder_invariant initial_state.
Proof.
  split; [intros H; discriminate H|].
  cbn [framebuffer initial_state]. rewrite length_replicate.
  apply Z2Nat.id. discriminate.
Qed.

Lemma reachable_decoder_invariant s : reachable s -> decoder_invariant s.
Proof.
  induction 1 as [|s i s' out _ IH Hstep]; [exact decoder_invariant_init|].
  pose proof (step_keeps_decoder_invariant s i IH) as H.
  rewrite Hstep in H. exact (proj1 H).
Qed.

(** X2. In every reachable state that awaits a parameter byte, fewer
    than four bytes have been taken ([parameter_byte_offset] is 0, 1, 2 or
    3), so the byte is stored in the accumulator; from a reachable state
    no input makes the controller write its diagnostic of a fifth
    parameter byte. *)
Theorem X2_parameter_never_overflows :
  (forall s,
      reachable s -> state s = PSDISPLAYSTATE_ACCEPTING_PARAM ->
      0 <= parameter_byte_offset s < 4) /\
  (forall s i,
      reachable s -> ~ In (Stderr MsgTooManyParamBytes) (events (step i s))).
Proof.
  split.
  - intros s Hs. exact (proj1 (reachable_decoder_invariant s Hs)).
  - intros s i Hs.
    pose proof (step_keeps_decoder_invariant s i
                  (reachable_decoder_invariant s Hs)) as H.
    destruct (step_ok s i (reachable_invariant s Hs)) as (s' & out & Hstep & _).
    rewrite Hstep in *. exact (proj2 H).
Qed.

(** X2 on the state reached by booting with the December 2014 header and
    sending SetParameter and one parameter byte. *)
Lemma X2_parameter_never_overflows_witness :
  let s := state_after (boot header_dec_2014
                        ++ map InTransfer [PSDISPLAYCMD0_SET_PARAMETER; 0x12]) in
  state s = PSDISPLAYSTATE_ACCEPTING_PARAM /\
  0 <= parameter_byte_offset s < 4 /\
  ~ In (Stderr MsgTooManyParamBytes) (events (step (InTransfer 0x34) s)).
Proof.
  cbv zeta.
  assert (Hst : state (state_after
                         (boot header_dec_2014
                          ++ map InTransfer [PSDISPLAYCMD0_SET_PARAMETER; 0x12]))
                = PSDISPLAYSTATE_ACCEPTING_PARAM)
    by (vm_compute; reflexivity).
  split; [exact Hst|]. split.
  - exact (proj1 X2_parameter_never_overflows _ (reachable_state_after _) Hst).
  - apply (proj2 X2_parameter_never_overflows). apply reachable_state_after.
Defined.

(** ** Bytes received while chip-select is high *)

Lemma transfer_deselected s d :
  cs_value s = true ->
  ps_display_transfer d s = Ok 0 s (deselected_warnings s 1).
Proof.
  intros Hcs. unfold deselected_warnings. destruct_state s.
  cbn [cs_value state] in *. subst cs0.
  unfold ps_display_transfer. psd_cbn. destruct st0; reflexivity.
Qed.

(** X3. While chip-select is high (not asserted) the controller ignores
    incoming data: a transfer returns 0 and leaves every field of the
    state as it was, and so does any run of transfers.  Outside
    programming mode each ignored byte is reported on stderr; in
    programming mode none is. *)
Theorem X3_transfers_ignored_while_deselected
    (s : PSDisplayGlobals) (ds : list Z) :
  cs_value s = true ->
  run (map InTransfer ds) s = Ok tt s (deselected_warnings s (length ds)) /\
  forall d, ps_display_transfer d s = Ok 0 s (deselected_warnings s 1).
Proof.
  intros Hcs. split; [|intros d; exact (transfer_deselected s d Hcs)].
  induction ds as [|d ds IH].
  - unfold deselected_warnings. destruct (state s); reflexivity.
  - cbn [map length].
    rewrite (run_cons_Ok _ _ _ _ _
               (step_transfer_Ok _ _ _ _ _ (transfer_deselected s d Hcs))), IH.
    unfold deselected_warnings. destruct (state s); reflexivity.
Qed.

(** X3 on three bytes sent to an idle controller whose chip-select is
    high. *)
Lemma X3_transfers_ignored_while_deselected_witness :
  let s := set_cs_value true (idle_state PSDISPLAY_CMD_SET_0) in
  cs_value s = true /\
  run (map InTransfer [0x01; 0x02; 0x03]) s
  = Ok tt s (deselected_warnings s 3).
Proof.
  cbv zeta. split; [reflexivity|].
  exact (proj1 (X3_transfers_ignored_while_deselected
                  (set_cs_value true (idle_state PSDISPLAY_CMD_SET_0))
                  [0x01; 0x02; 0x03] eq_refl)).
Defined.

(** ** Capture of the programming data *)

Lemma transfer_programming s d :
  cs_value s = false -> state s = PSDISPLAYSTATE_PROGRAMMING ->
  ps_display_transfer d s =
    Ok 0 (if prog_byte_offset s <? PROG_HEADER_SIZE
          then set_prog_byte_offset (prog_byte_offset s + 1)
                 (set_prog_header
                    (<[Z.to_nat (prog_byte_offset s) := data_byte d]>
                       (prog_header s)) s)
          else s) [].
Proof.
  intros Hcs Hst. destruct_state s.
  cbn [cs_value state] in *. subst cs0 st0.
  unfold ps_display_transfer, data_byte. psd_cbn.
  destruct (off0 <? PROG_HEADER_SIZE); reflexivity.
Qed.

(** X4. In programming mode with chip-select asserted, a run of
    transfers is captured into [prog_header] from the current offset on
    until the 256-byte buffer is full; bytes beyond that are dropped.
    With [n] the number of bytes that still fit, the offset advances by
    [n], the [n] bytes stored are the low 8 bits of the first [n] words
    received, every other byte of the buffer and every other field is
    unchanged, and nothing is emitted. *)
Theorem X4_programming_capture_saturates (bytes : list Z) :
  forall s : PSDisplayGlobals,
    state s = PSDISPLAYSTATE_PROGRAMMING -> cs_value s = false ->
    0 <= prog_byte_offset s <= PROG_HEADER_SIZE ->
    Z.of_nat (length (prog_header s)) = PROG_HEADER_SIZE ->
    let off := prog_byte_offset s in
    let n := Z.min (Z.of_nat (length bytes)) (PROG_HEADER_SIZE - off) in
    exists hdr,
      run (map InTransfer bytes) s
      = Ok tt (set_prog_byte_offset (off + n) (set_prog_header hdr s)) [] /\
      length hdr = length (prog_header s) /\
      (forall k : nat, Z.of_nat k < n ->
         hdr !! (Z.to_nat off + k)%nat = data_byte <$> bytes !! k) /\
      (forall i : nat, Z.of_nat i < off \/ off + n <= Z.of_nat i ->
         hdr !! i = prog_header s !! i).
Proof.
  induction bytes as [|d rest IH]; intros s Hst Hcs Hoff Hlen off n.
  - exists (prog_header s). subst n off. cbn [length map run ret].
    rewrite Z.min_l by lia. rewrite Z.add_0_r.
    split; [destruct_state s; reflexivity|]. split; [reflexivity|].
    split; [intros k Hk; lia|reflexivity].
  - pose proof (transfer_programming s d Hcs Hst) as H1. fold off in H1.
    cbn [map]. rewrite (run_cons_Ok _ _ _ _ _ (step_transfer_Ok _ _ _ _ _ H1)).
    destruct (Z.ltb_spec off PROG_HEADER_SIZE) as [Hlt|Hge].
    + set (s1 := set_prog_byte_offset (off + 1) _) in *.
      destruct (IH s1) as (hdr & Hrun & Hhl & Hin & Hout).
      * exact Hst.
      * exact Hcs.
      * subst s1. psd_cbn. lia.
      * subst s1. psd_cbn. rewrite length_insert. exact Hlen.
      * rewrite Hrun. subst s1.
        cbn [prog_byte_offset prog_header set_prog_byte_offset set_prog_header]
          in *.
        exists hdr. rewrite length_insert in Hhl.
        assert (Hn : off + 1 + Z.min (Z.of_nat (length rest))
                                 (PROG_HEADER_SIZE - (off + 1))
                     = off + n) by (subst n; cbn [length]; lia).
        rewrite Hn in *.
        split; [destruct_state s; reflexivity|]. split; [exact Hhl|]. split.
        -- intros [|k] Hk.
           ++ rewrite Nat.add_0_r, Hout by lia.
              cbn [lookup list_lookup fmap option_fmap option_map].
              apply list_lookup_insert_eq. unfold PROG_HEADER_SIZE in *. lia.
           ++ replace (Z.to_nat off + S k)%nat
                with (Z.to_nat (off + 1) + k)%nat by lia.
              rewrite Hin by lia. reflexivity.
        -- intros i Hi. rewrite Hout by lia. apply list_lookup_insert_ne. lia.
    + destruct (IH s Hst Hcs Hoff Hlen) as (hdr & Hrun & Hhl & Hin & Hout).
      rewrite Hrun. fold off in Hrun, Hin, Hout |- *. exists hdr.
      assert (Hn : Z.min (Z.of_nat (length rest)) (PROG_HEADER_SIZE - off) = n)
        by (subst n; cbn [length]; lia).
      rewrite Hn in *. split; [reflexivity|]. split; [exact Hhl|].
      split; [|exact Hout]. intros k Hk. exfalso. lia.
Qed.

(** X4 on 300 bytes sent after power-on: 256 are kept. *)
Lemma X4_programming_capture_saturates_witness :
  exists hdr,
    run (map InTransfer (replicate 300 0x41)) initial_state
    = Ok tt (set_prog_byte_offset 256 (set_prog_header hdr initial_state)) [] /\
    hdr !! 255%nat = Some 0x41.
Proof.
  destruct (X4_programming_capture_saturates (replicate 300 0x41) initial_state)
    as (hdr & Hrun & _ & Hin & _).
  - reflexivity.
  - reflexivity.
  - cbn [prog_byte_offset initial_state]. unfold PROG_HEADER_SIZE. lia.
  - reflexivity.
  - exists hdr. split; [exact Hrun|].
    exact (Hin 255%nat eq_refl).
Defined.

(** ** Opcodes *)

(** X5. Under either command set, an opcode that the set does not
    implement (above DrawScene = 4 under command set 0, above
    FrameEnd = 2 under command set 1) is reported on stderr with its
    value and completed at once: the done interrupt is deasserted and
    asserted again, the decoder stays in the accepting-command state, and
    nothing but the stored opcode and the parameter offset changes. *)
Theorem X5_unsupported_opcode
    (s : PSDisplayGlobals) (cmds : PDisplayCmdSet) (d : Z) :
  accepting_cmd_under cmds s ->
  cmds <> PSDISPLAY_CMD_SET_UNKNOWN ->
  supported_opcode cmds (data_byte d) = false ->
  ps_display_transfer d s
  = Ok 0 (command_done (set_cmd (data_byte d) s))
      [IrqIntn true; Stderr (MsgUnsupportedCmd (data_byte d)); IrqIntn false].
Proof.
  intros H Hcmds Hsup. pose proof (data_byte_range d) as Hb. fold (data_byte d) in Hb.
  concrete_state s H. unfold ps_display_transfer, command_done.
  fold (data_byte d). psd_cbn.
  destruct cmds; [contradiction| |]; cbn [supported_opcode] in Hsup;
    apply Z.leb_gt in Hsup; psd_consts.
  - unfold ps_display_execute_current_cmd_set0. psd_cbn. psd_consts.
    repeat (split_goal; [lia|]). reflexivity.
  - unfold ps_display_execute_current_cmd_set1. psd_cbn. psd_consts.
    repeat (split_goal; [lia|]). reflexivity.
Qed.

(** X5 on the byte 9 under command set 0. *)
Lemma X5_unsupported_opcode_witness :
  ps_display_transfer 9 (idle_state PSDISPLAY_CMD_SET_0)
  = Ok 0 (command_done (set_cmd (data_byte 9) (idle_state PSDISPLAY_CMD_SET_0)))
      [IrqIntn true; Stderr (MsgUnsupportedCmd (data_byte 9)); IrqIntn false].
Proof.
  apply (X5_unsupported_opcode (idle_state PSDISPLAY_CMD_SET_0)
           PSDISPLAY_CMD_SET_0 9).
  - repeat split; reflexivity.
  - discriminate.
  - reflexivity.
Defined.

(** X6. Under command set 0 the opcodes Null, DisplayOff and DisplayOn
    are acknowledged and do nothing: the done interrupt is deasserted and
    asserted again, and framebuffer, redraw flag and every other field
    but the stored opcode and the parameter offset stay as they were.
    Under command set 1 the opcode FrameBegin only stores the opcode and
    deasserts the done interrupt, which it does not assert again. *)
Theorem X6_commands_without_effect (s : PSDisplayGlobals) (d : Z) :
  (accepting_cmd_under PSDISPLAY_CMD_SET_0 s ->
   data_byte d = PSDISPLAYCMD0_NULL \/ data_byte d = PSDISPLAYCMD0_DISPLAY_OFF
   \/ data_byte d = PSDISPLAYCMD0_DISPLAY_ON ->
   ps_display_transfer d s
   = Ok 0 (command_done (set_cmd (data_byte d) s))
       [IrqIntn true; IrqIntn false]) /\
  (accepting_cmd_under PSDISPLAY_CMD_SET_1 s ->
   data_byte d = PSDISPLAYCMD1_FRAME_BEGIN ->
   ps_display_transfer d s = Ok 0 (set_cmd (data_byte d) s) [IrqIntn true]).
Proof.
  split; intros H Hd; concrete_state s H;
    unfold ps_display_transfer, command_done; fold (data_byte d); psd_cbn.
  - unfold ps_display_execute_current_cmd_set0. psd_cbn.
    destruct Hd as [-> | [-> | ->]]; reflexivity.
  - unfold ps_display_execute_current_cmd_set1. psd_cbn. rewrite Hd. reflexivity.
Qed.

(** X6 on DisplayOff under command set 0 and FrameBegin under command
    set 1. *)
Lemma X6_commands_without_effect_witness :
  ps_display_transfer PSDISPLAYCMD0_DISPLAY_OFF (idle_state PSDISPLAY_CMD_SET_0)
  = Ok 0 (command_done
            (set_cmd (data_byte PSDISPLAYCMD0_DISPLAY_OFF)
               (idle_state PSDISPLAY_CMD_SET_0)))
      [IrqIntn true; IrqIntn false] /\
  ps_display_transfer PSDISPLAYCMD1_FRAME_BEGIN (idle_state PSDISPLAY_CMD_SET_1)
  = Ok 0 (set_cmd (data_byte PSDISPLAYCMD1_FRAME_BEGIN)
            (idle_state PSDISPLAY_CMD_SET_1))
      [IrqIntn true].
Proof.
  split.
  - apply (proj1 (X6_commands_without_effect (idle_state PSDISPLAY_CMD_SET_0)
                    PSDISPLAYCMD0_DISPLAY_OFF)).
    + repeat split; reflexivity.
    + right. left. reflexivity.
  - apply (proj2 (X6_commands_without_effect (idle_state PSDISPLAY_CMD_SET_1)
                    PSDISPLAYCMD1_FRAME_BEGIN)).
    + repeat split; reflexivity.
    + reflexivity.
Defined.

(** X7. Under command set 0, SetParameter followed by any four words
    leaves in the accumulator the low bytes of the four words, first byte
    least significant, whatever the accumulator held; the fourth byte
    asserts the done interrupt and returns the decoder to the
    accepting-command state.  After fewer than four bytes the decoder
    still awaits parameter bytes, has counted the bytes taken, and has not
    asserted done. *)
Theorem X7_set_parameter_any_bytes (s : PSDisplayGlobals) (d0 d1 d2 d3 : Z) :
  accepting_cmd_under PSDISPLAY_CMD_SET_0 s ->
  let r := run (map InTransfer [PSDISPLAYCMD0_SET_PARAMETER; d0; d1; d2; d3]) s in
  option_map parameter (final_state r)
  = Some (data_byte d0 + 256 * data_byte d1 + 65536 * data_byte d2
          + 16777216 * data_byte d3) /\
  option_map state (final_state r) = Some PSDISPLAYSTATE_ACCEPTING_CMD /\
  events r = [IrqIntn true; IrqIntn false] /\
  (forall ds : list Z, (length ds < 4)%nat ->
     let r' := run (map InTransfer (PSDISPLAYCMD0_SET_PARAMETER :: ds)) s in
     option_map state (final_state r') = Some PSDISPLAYSTATE_ACCEPTING_PARAM /\
     option_map parameter_byte_offset (final_state r')
     = Some (Z.of_nat (length ds)) /\
     events r' = [IrqIntn true]).
Proof.
  intros H r. subst r.
  pose proof (set_parameter_little_endian s d0 d1 d2 d3 H) as Hpar.
  split; [exact Hpar|]. concrete_state s H.
  split; [reflexivity|]. split; [reflexivity|].
  intros ds Hlen r'. subst r'.
  destruct ds as [|a [|b [|c' [|e ds]]]]; cbn [length] in Hlen; try lia;
    repeat split; reflexivity.
Qed.

(** X7 on the bytes 0x78, 0x56, 0x34, 0x12. *)
Lemma X7_set_parameter_any_bytes_witness :
  option_map parameter
    (final_state
       (run (map InTransfer [PSDISPLAYCMD0_SET_PARAMETER; 0x78; 0x56; 0x34; 0x12])
            (idle_state PSDISPLAY_CMD_SET_0)))
  = Some 0x12345678.
Proof.
  refine (proj1 (X7_set_parameter_any_bytes (idle_state PSDISPLAY_CMD_SET_0)
                   0x78 0x56 0x34 0x12 _)).
  repeat split; reflexivity.
Defined.

(** ** Scenes *)

Lemma transfer_draw_scene s :
  accepting_cmd_under PSDISPLAY_CMD_SET_0 s ->
  ps_display_transfer PSDISPLAYCMD0_DRAW_SCENE s
  = Ok 0 (set_state PSDISPLAYSTATE_ACCEPTING_SCENE_BYTE
            (set_cmd PSDISPLAYCMD0_DRAW_SCENE s)) [IrqIntn true].
Proof. intros H. concrete_state s H. reflexivity. Qed.

Lemma transfer_scene_byte s d :
  cs_value s = false -> state s = PSDISPLAYSTATE_ACCEPTING_SCENE_BYTE ->
  cmd s = PSDISPLAYCMD0_DRAW_SCENE ->
  ps_display_transfer d s
  = match draw_scene (data_byte d) (set_scene (data_byte d) s) with
    | Ok _ s1 o1 => Ok 0 (set_redraw true (command_done s1)) (o1 ++ [IrqIntn false])
    | Fault f o1 => Fault f o1
    end.
Proof.
  intros Hcs Hst Hcmd. destruct_state s.
  cbn [cs_value state cmd] in *. subst cs0 st0 c0.
  unfold ps_display_transfer, ps_display_execute_current_cmd_set0, command_done.
  fold (data_byte d). psd_cbn.
  change (PSDISPLAYCMD0_DRAW_SCENE =? PSDISPLAYCMD0_NULL) with false.
  change (PSDISPLAYCMD0_DRAW_SCENE =? PSDISPLAYCMD0_SET_PARAMETER) with false.
  change (PSDISPLAYCMD0_DRAW_SCENE =? PSDISPLAYCMD0_DISPLAY_OFF) with false.
  change (PSDISPLAYCMD0_DRAW_SCENE =? PSDISPLAYCMD0_DISPLAY_ON) with false.
  change (PSDISPLAYCMD0_DRAW_SCENE =? PSDISPLAYCMD0_DRAW_SCENE) with true.
  cbv iota. psd_cbn.
  destruct (draw_scene _ _) as [[] s1 o1|f o1]; psd_cbn;
    rewrite ?app_nil_r; reflexivity.
Qed.

(** X8. Under command set 0, DrawScene followed by a scene byte above
    Error = 3 draws nothing: the framebuffer is left as it was and the
    scene number is reported on stderr.  The command still completes as a
    drawn scene does: the redraw flag is set, the done interrupt is
    asserted and the decoder returns to the accepting-command state. *)
Theorem X8_draw_scene_unsupported (s : PSDisplayGlobals) (d : Z) :
  accepting_cmd_under PSDISPLAY_CMD_SET_0 s ->
  PSDISPLAYSCENE_ERROR < data_byte d ->
  run (map InTransfer [PSDISPLAYCMD0_DRAW_SCENE; d]) s
  = Ok tt (scene_drawn (data_byte d) s)
      [IrqIntn true; Stderr (MsgUnsupportedScene (data_byte d)); IrqIntn false].
Proof.
  intros H Hd. pose proof (transfer_draw_scene s H) as H1.
  destruct H as (Hst & Hset & Hcs). cbn [map].
  rewrite (run_cons_Ok _ _ _ _ _ (step_transfer_Ok _ _ _ _ _ H1)).
  assert (H2 : ps_display_transfer d
                 (set_state PSDISPLAYSTATE_ACCEPTING_SCENE_BYTE
                    (set_cmd PSDISPLAYCMD0_DRAW_SCENE s))
               = Ok 0 (scene_drawn (data_byte d) s)
                   [Stderr (MsgUnsupportedScene (data_byte d)); IrqIntn false]).
  { rewrite transfer_scene_byte; [|exact Hcs|reflexivity|reflexivity].
    unfold draw_scene. psd_consts.
    repeat (split_goal; [lia|]). psd_cbn.
    unfold scene_drawn, command_done. destruct_state s. reflexivity. }
  rewrite (run_cons_Ok _ _ _ _ _ (step_transfer_Ok _ _ _ _ _ H2)).
  reflexivity.
Qed.

(** X8 on the scene byte 7. *)
Lemma X8_draw_scene_unsupported_witness :
  run (map InTransfer [PSDISPLAYCMD0_DRAW_SCENE; 7])
      (idle_state PSDISPLAY_CMD_SET_0)
  = Ok tt (scene_drawn (data_byte 7) (idle_state PSDISPLAY_CMD_SET_0))
      [IrqIntn true; Stderr (MsgUnsupportedScene (data_byte 7)); IrqIntn false].
Proof.
  apply (X8_draw_scene_unsupported (idle_state PSDISPLAY_CMD_SET_0) 7).
  - repeat split; reflexivity.
  - reflexivity.
Defined.

(** X9. Under command set 0, DrawScene followed by the scene byte Black,
    Update or Error fills the whole framebuffer with one colour, black,
    green (0x30) or blue (0x0C) in that order, sets the redraw flag,
    asserts the done interrupt and returns the decoder to the
    accepting-command state; no other field but the stored opcode and
    scene changes. *)
Theorem X9_draw_scene_fill (s : PSDisplayGlobals) (d : Z) :
  accepting_cmd_under PSDISPLAY_CMD_SET_0 s ->
  forall colour,
    (data_byte d = PSDISPLAYSCENE_BLACK /\ colour = SNOWY_COLOR_BLACK) \/
    (data_byte d = PSDISPLAYSCENE_UPDATE /\ colour = SNOWY_COLOR_GREEN) \/
    (data_byte d = PSDISPLAYSCENE_ERROR /\ colour = SNOWY_COLOR_BLUE) ->
    run (map InTransfer [PSDISPLAYCMD0_DRAW_SCENE; d]) s
    = Ok tt (set_framebuffer (replicate (Z.to_nat FRAMEBUFFER_SIZE) colour)
               (scene_drawn (data_byte d) s))
        [IrqIntn true; IrqIntn false].
Proof.
  intros H colour Hd. pose proof (transfer_draw_scene s H) as H1.
  destruct H as (Hst & Hset & Hcs). cbn [map].
  rewrite (run_cons_Ok _ _ _ _ _ (step_transfer_Ok _ _ _ _ _ H1)).
  assert (H2 : ps_display_transfer d
                 (set_state PSDISPLAYSTATE_ACCEPTING_SCENE_BYTE
                    (set_cmd PSDISPLAYCMD0_DRAW_SCENE s))
               = Ok 0 (set_framebuffer
                         (replicate (Z.to_nat FRAMEBUFFER_SIZE) colour)
                         (scene_drawn (data_byte d) s))
                   [IrqIntn false]).
  { rewrite transfer_scene_byte; [|exact Hcs|reflexivity|reflexivity].
    unfold draw_scene, fb_memset, scene_drawn, command_done.
    destruct Hd as [[-> ->]|[[-> ->]|[-> ->]]]; destruct_state s; reflexivity. }
  rewrite (run_cons_Ok _ _ _ _ _ (step_transfer_Ok _ _ _ _ _ H2)).
  reflexivity.
Qed.

(** X9 on the Update scene. *)
Lemma X9_draw_scene_fill_witness :
  run (map InTransfer [PSDISPLAYCMD0_DRAW_SCENE; PSDISPLAYSCENE_UPDATE])
      (idle_state PSDISPLAY_CMD_SET_0)
  = Ok tt (set_framebuffer
             (replicate (Z.to_nat FRAMEBUFFER_SIZE) SNOWY_COLOR_GREEN)
             (scene_drawn (data_byte PSDISPLAYSCENE_UPDATE)
                (idle_state PSDISPLAY_CMD_SET_0)))
      [IrqIntn true; IrqIntn false].
Proof.
  apply (X9_draw_scene_fill (idle_state PSDISPLAY_CMD_SET_0)
           PSDISPLAYSCENE_UPDATE).
  - repeat split; reflexivity.
  - right. left. split; reflexivity.
Defined.

(** ** Frames (command set 1) *)

Lemma split_last_byte (top : list Z) n :
  length top = S n -> exists top' last, top = top' ++ [last] /\ length top' = n.
Proof.
  intros Hlen. assert (Hne : top <> []) by (intros ->; discriminate Hlen).
  pose proof (app_removelast_last 0 Hne) as Heq.
  exists (removelast top), (List.last top 0). split; [exact Heq|].
  apply (f_equal (@length Z)) in Heq. rewrite length_app in Heq.
  cbn [length] in Heq. lia.
Qed.

Lemma run_one_column s k :
  cs_value s = false -> state s = PSDISPLAYSTATE_ACCEPTING_LINENO ->
  valid_column k ->
  exists s',
    run (map InTransfer (column_bytes k)) s = Ok tt s' (column_events k) /\
    state s' = PSDISPLAYSTATE_ACCEPTING_LINENO /\
    framebuffer s' = store_column (framebuffer s) k /\
    cs_value s' = false.
Proof.
  intros Hcs Hst (Hc & Hb & Hv & Ht).
  destruct (split_last_byte (col_top k) 16) as (top' & last & Htop & Ht');
    [unfold SNOWY_ROWS_SKIPPED_AT_TOP in Ht; lia|].
  destruct (run_column s (col_no k) (col_bottom k) (col_visible k) top' last
              Hcs Hst Hc)
    as (s5 & s6 & _ & _ & Hrun & Hst6 & Hfb & _ & Hcs6 & _);
    [psd_geometry; lia..|].
  exists s6. unfold column_bytes, store_column. rewrite Htop, Hrun.
  repeat split; assumption.
Qed.

(** X10. In the accepting-line-number state with chip-select asserted,
    a column index [c] below 148 followed by 16 + 172 + 17 data bytes
    stores the 172 visible bytes (low 8 bits of each) in column [c], the
    first of them in the bottom row (171) and the last in the top row
    (0), and leaves every cell of the other columns as it was.  The done
    interrupt is deasserted by the index byte and asserted by the last
    data byte, after which the next column index is awaited. *)
Theorem X10_column_transfer (s : PSDisplayGlobals) (k : column) :
  cs_value s = false -> state s = PSDISPLAYSTATE_ACCEPTING_LINENO ->
  Z.of_nat (length (framebuffer s)) = FRAMEBUFFER_SIZE ->
  valid_column k ->
  let r := run (map InTransfer (column_bytes k)) s in
  (exists fb,
      option_map framebuffer (final_state r) = Some fb /\
      (forall row, 0 <= row < SNOWY_NUM_ROWS ->
         fb !! Z.to_nat (row * SNOWY_BYTES_PER_ROW + col_no k)
         = (fun d => d mod 256)
             <$> col_visible k !! Z.to_nat (SNOWY_NUM_ROWS - 1 - row)) /\
      (forall i : nat, Z.of_nat i mod SNOWY_BYTES_PER_ROW <> col_no k ->
         fb !! i = framebuffer s !! i)) /\
  option_map state (final_state r) = Some PSDISPLAYSTATE_ACCEPTING_LINENO /\
  events r = [IrqIntn true; IrqIntn false].
Proof.
  intros Hcs Hst Hfb Hk r. subst r.
  destruct (run_one_column s k Hcs Hst Hk) as (s' & -> & Hst' & Hfb' & _).
  destruct Hk as (Hc & Hb & Hv & Ht).
  cbn [final_state events option_map]. rewrite Hst', Hfb'.
  split; [|split; reflexivity].
  exists (store_column (framebuffer s) k). split; [reflexivity|].
  unfold store_column. split.
  - intros row Hrow.
    rewrite <- (write_column_lookup_written (col_visible k) (framebuffer s)
                  (col_no k) (SNOWY_NUM_ROWS - 1)
                  (Z.to_nat (SNOWY_NUM_ROWS - 1 - row)));
      [|psd_geometry; lia..].
    f_equal. psd_geometry. lia.
  - intros i Hi. apply write_column_lookup_other; [lia|psd_geometry; lia|].
    intros r0 _ Heq. apply Hi. rewrite Heq. psd_geometry.
    rewrite Z.add_comm, Z.mod_add by lia. apply Z.mod_small. lia.
Qed.

(** X10 on column 5, visible bytes 0, 1, ..., 171. *)
Lemma X10_column_transfer_witness :
  let s := set_state PSDISPLAYSTATE_ACCEPTING_LINENO
             (idle_state PSDISPLAY_CMD_SET_1) in
  let r := run (map InTransfer (column_bytes (example_column 5))) s in
  option_map state (final_state r) = Some PSDISPLAYSTATE_ACCEPTING_LINENO /\
  events r = [IrqIntn true; IrqIntn false].
Proof.
  refine (proj2 (X10_column_transfer
                   (set_state PSDISPLAYSTATE_ACCEPTING_LINENO
                      (idle_state PSDISPLAY_CMD_SET_1))
                   (example_column 5) eq_refl eq_refl _ _)).
  - vm_compute. reflexivity.
  - repeat split; vm_compute; congruence.
Defined.

Ltac frame_data_events :=
  repeat (apply List.Forall_cons;
          [first [left; reflexivity | right; left; reflexivity
                 | right; right; eexists; reflexivity]|]);
  apply List.Forall_nil.

Lemma frame_data_update_id s :
  frame_data_update (framebuffer s) (col_index s) (row_index s) (state s) s = s.
Proof. destruct_state s. reflexivity. Qed.

Lemma frame_data_update_twice fb c r st fb' c' r' st' s :
  frame_data_update fb' c' r' st' (frame_data_update fb c r st s)
  = frame_data_update fb' c' r' st' s.
Proof. destruct_state s. reflexivity. Qed.

(** One byte in frame-data mode, whatever the position of the cursor. *)
Lemma transfer_frame_data_byte s d :
  cs_value s = false -> in_frame_data s ->
  (state s = PSDISPLAYSTATE_ACCEPTING_DATA -> 0 <= col_index s < SNOWY_NUM_COLS) ->
  exists fb c r st out,
    ps_display_transfer d s = Ok 0 (frame_data_update fb c r st s) out /\
    (st = PSDISPLAYSTATE_ACCEPTING_LINENO \/ st = PSDISPLAYSTATE_ACCEPTING_DATA) /\
    0 <= c < SNOWY_NUM_COLS /\
    Forall is_frame_data_event out.
Proof.
  intros Hcs [Hst|Hst] Hcol; [|specialize (Hcol Hst)].
  - rewrite (transfer_lineno s d Hcs Hst).
    pose proof (Z.mod_pos_bound d 4294967296 eq_refl) as Hd. fold (u32 d) in Hd.
    exists (framebuffer s), (if SNOWY_NUM_COLS <=? u32 d then 0 else u32 d),
      (SNOWY_NUM_ROWS + SNOWY_ROWS_SKIPPED_AT_BOTTOM - 1),
      PSDISPLAYSTATE_ACCEPTING_DATA,
      (if SNOWY_NUM_COLS <=? u32 d
       then [Stderr (MsgInvalidColumn (u32 d)); IrqIntn true]
       else [IrqIntn true]).
    split; [unfold frame_data_update; destruct_state s; reflexivity|].
    split; [auto|]. destruct (Z.leb_spec SNOWY_NUM_COLS (u32 d)).
    + split; [psd_geometry; lia|]. frame_data_events.
    + split; [lia|]. frame_data_events.
  - destruct (Z_lt_le_dec (row_index s) 0) as [Hneg|Hnonneg].
    + destruct (Z_le_gt_dec (row_index s) (- SNOWY_ROWS_SKIPPED_AT_TOP)).
      * rewrite (transfer_data_last s d Hcs Hst) by assumption.
        exists (framebuffer s), (col_index s), (row_index s),
          PSDISPLAYSTATE_ACCEPTING_LINENO, [IrqIntn false].
        split; [unfold frame_data_update; destruct_state s; reflexivity|].
        split; [auto|]. split; [exact Hcol|]. frame_data_events.
      * rewrite (transfer_data_padding s d Hcs Hst) by lia.
        exists (framebuffer s), (col_index s), (row_index s - 1),
          PSDISPLAYSTATE_ACCEPTING_DATA, [].
        split; [unfold frame_data_update; destruct_state s;
                cbn [state] in Hst; subst; reflexivity|].
        split; [auto|]. split; [exact Hcol|]. frame_data_events.
    + destruct (Z_lt_le_dec (row_index s) SNOWY_NUM_ROWS) as [Hvis|Hpad].
      * rewrite (transfer_data_visible s d Hcs Hst) by (assumption || lia).
        exists (<[Z.to_nat (row_index s * SNOWY_BYTES_PER_ROW + col_index s)
                  := d mod 256]> (framebuffer s)), (col_index s),
          (row_index s - 1), PSDISPLAYSTATE_ACCEPTING_DATA, [].
        split; [unfold frame_data_update; destruct_state s;
                cbn [state] in Hst; subst; reflexivity|].
        split; [auto|]. split; [exact Hcol|]. frame_data_events.
      * rewrite (transfer_data_padding s d Hcs Hst) by lia.
        exists (framebuffer s), (col_index s), (row_index s - 1),
          PSDISPLAYSTATE_ACCEPTING_DATA, [].
        split; [unfold frame_data_update; destruct_state s;
                cbn [state] in Hst; subst; reflexivity|].
        split; [auto|]. split; [exact Hcol|]. frame_data_events.
Qed.

Lemma run_frame_data ds : forall s,
  cs_value s = false -> in_frame_data s ->
  (state s = PSDISPLAYSTATE_ACCEPTING_DATA -> 0 <= col_index s < SNOWY_NUM_COLS) ->
  exists fb c r st out,
    run (map InTransfer ds) s = Ok tt (frame_data_update fb c r st s) out /\
    (st = PSDISPLAYSTATE_ACCEPTING_LINENO \/ st = PSDISPLAYSTATE_ACCEPTING_DATA) /\
    Forall is_frame_data_event out.
Proof.
  induction ds as [|d ds IH]; intros s Hcs Hin Hcol.
  - exists (framebuffer s), (col_index s), (row_index s), (state s), [].
    rewrite frame_data_update_id. split; [reflexivity|].
    split; [exact Hin|apply List.Forall_nil].
  - destruct (transfer_frame_data_byte s d Hcs Hin Hcol)
      as (fb1 & c1 & r1 & st1 & o1 & H1 & Hst1 & Hc1 & Ho1).
    destruct (IH (frame_data_update fb1 c1 r1 st1 s))
      as (fb2 & c2 & r2 & st2 & o2 & H2 & Hst2 & Ho2).
    + destruct_state s. exact Hcs.
    + unfold in_frame_data. destruct_state s. exact Hst1.
    + intros _. destruct_state s. exact Hc1.
    + cbn [map].
      rewrite (run_cons_Ok _ _ _ _ _ (step_transfer_Ok _ _ _ _ _ H1)), H2.
      rewrite frame_data_update_twice.
      exists fb2, c2, r2, st2, (o1 ++ o2). split; [reflexivity|].
      split; [exact Hst2|]. apply Forall_app. split; assumption.
Qed.

(** X11. Once frame data are being received (a column index or a data
    byte is awaited) and chip-select stays asserted, no byte takes the
    decoder out of frame-data mode: whatever bytes follow, they run
    without fault, change nothing but the framebuffer, the column and row
    cursors and the alternation between the two states, and emit nothing
    but changes of the done interrupt and invalid-column diagnostics.  In
    particular no byte is decoded as an opcode and the redraw flag is not
    set. *)
Theorem X11_frame_data_left_only_by_chip_select
    (s : PSDisplayGlobals) (ds : list Z) :
  cs_value s = false -> in_frame_data s ->
  (state s = PSDISPLAYSTATE_ACCEPTING_DATA -> 0 <= col_index s < SNOWY_NUM_COLS) ->
  exists fb c r st out,
    run (map InTransfer ds) s = Ok tt (frame_data_update fb c r st s) out /\
    in_frame_data (frame_data_update fb c r st s) /\
    Forall is_frame_data_event out.
Proof.
  intros Hcs Hin Hcol.
  destruct (run_frame_data ds s Hcs Hin Hcol)
    as (fb & c & r & st & out & H & Hst & Ho).
  exists fb, c, r, st, out. split; [exact H|]. split; [|exact Ho].
  unfold in_frame_data. destruct_state s. exact Hst.
Qed.

(** X11 on the bytes 200, 2 (FrameEnd), 0, 1 sent when a column index is
    awaited. *)
Lemma X11_frame_data_left_only_by_chip_select_witness :
  let s := set_state PSDISPLAYSTATE_ACCEPTING_LINENO
             (idle_state PSDISPLAY_CMD_SET_1) in
  exists fb c r st out,
    run (map InTransfer [200; PSDISPLAYCMD1_FRAME_END; 0; 1]) s
    = Ok tt (frame_data_update fb c r st s) out /\
    in_frame_data (frame_data_update fb c r st s) /\
    Forall is_frame_data_event out.
Proof.
  apply (X11_frame_data_left_only_by_chip_select
           (set_state PSDISPLAYSTATE_ACCEPTING_LINENO
              (idle_state PSDISPLAY_CMD_SET_1))
           [200; PSDISPLAYCMD1_FRAME_END; 0; 1]).
  - reflexivity.
  - left. reflexivity.
  - intros H. discriminate H.
Defined.

Lemma run_columns cols : forall s,
  cs_value s = false -> state s = PSDISPLAYSTATE_ACCEPTING_LINENO ->
  Forall valid_column cols ->
  exists fb c r,
    run (map InTransfer (concat (map column_bytes cols))) s
    = Ok tt (frame_data_update fb c r PSDISPLAYSTATE_ACCEPTING_LINENO s)
        (concat (map column_events cols)) /\
    fb = fold_left store_column cols (framebuffer s).
Proof.
  induction cols as [|k cols IH]; intros s Hcs Hst Hvalid.
  - exists (framebuffer s), (col_index s), (row_index s). rewrite <- Hst at 1.
    rewrite frame_data_update_id. split; reflexivity.
  - inversion Hvalid as [|? ? Hk Hrest]; subst.
    destruct (run_one_column s k Hcs Hst Hk) as (s1 & H1 & Hst1 & Hfb1 & Hcs1).
    destruct (run_frame_data (column_bytes k) s Hcs (or_introl Hst))
      as (fb1 & c1 & r1 & st1 & o1 & H1' & _); [rewrite Hst; discriminate|].
    rewrite H1 in H1'. injection H1' as Hs1 _.
    destruct (IH s1 Hcs1 Hst1 Hrest) as (fb2 & c2 & r2 & H2 & Hfb2).
    cbn [map concat]. rewrite map_app, (run_app_Ok _ _ _ _ _ H1), H2.
    exists fb2, c2, r2. rewrite Hs1, frame_data_update_twice.
    split; [reflexivity|]. cbn [fold_left]. rewrite <- Hfb1. exact Hfb2.
Qed.

(** X12. One frame under command set 1.  From the accepting-command
    state with chip-select asserted: FrameBegin, FrameData, any number of
    well-formed columns (index below 148, 16 + 172 + 17 data bytes), a
    chip-select pulse, FrameEnd, and a display refresh run without fault.
    The framebuffer ends as the columns stored one after the other, in
    the order sent; the refresh reports the update and clears the redraw
    flag that FrameEnd set; the decoder accepts the next command.  The
    done interrupt is deasserted by both opcodes, is deasserted and
    asserted once per column, is asserted by the rise of chip-select, and
    is deasserted and asserted by FrameEnd. *)
Theorem X12_frame_protocol (s : PSDisplayGlobals) (cols : list column) :
  accepting_cmd_under PSDISPLAY_CMD_SET_1 s ->
  Forall valid_column cols ->
  exists s',
    run (frame_script cols) s
    = Ok tt s'
        ([IrqIntn true; IrqIntn true] ++ concat (map column_events cols)
         ++ [IrqIntn false; IrqIntn true; IrqIntn false; GfxUpdate]) /\
    framebuffer s' = fold_left store_column cols (framebuffer s) /\
    accepting_cmd_under PSDISPLAY_CMD_SET_1 s' /\
    redraw s' = false.
Proof.
  intros H Hvalid. unfold frame_script.
  assert (H1 : ps_display_transfer PSDISPLAYCMD1_FRAME_BEGIN s
               = Ok 0 (set_cmd PSDISPLAYCMD1_FRAME_BEGIN s) [IrqIntn true])
    by (concrete_state s H; reflexivity).
  assert (H2 : ps_display_transfer PSDISPLAYCMD1_FRAME_DATA
                 (set_cmd PSDISPLAYCMD1_FRAME_BEGIN s)
               = Ok 0 (set_state PSDISPLAYSTATE_ACCEPTING_LINENO
                         (set_cmd PSDISPLAYCMD1_FRAME_DATA s)) [IrqIntn true])
    by (concrete_state s H; reflexivity).
  destruct H as (Hst & Hset & Hcs).
  destruct (run_columns cols
              (set_state PSDISPLAYSTATE_ACCEPTING_LINENO
                 (set_cmd PSDISPLAYCMD1_FRAME_DATA s)))
    as (fb & c & r & H3 & Hfb); [exact Hcs|reflexivity|exact Hvalid|].
  cbn [framebuffer set_state set_cmd] in Hfb. subst fb.
  exists (set_redraw false
            (command_done
               (set_cmd PSDISPLAYCMD1_FRAME_END
                  (frame_data_update
                     (fold_left store_column cols (framebuffer s)) c r
                     PSDISPLAYSTATE_ACCEPTING_CMD s)))).
  cbn [map app].
  rewrite (run_cons_Ok _ _ _ _ _ (step_transfer_Ok _ _ _ _ _ H1)).
  rewrite (run_cons_Ok _ _ _ _ _ (step_transfer_Ok _ _ _ _ _ H2)).
  rewrite (run_app_Ok _ _ _ _ _ H3).
  destruct_state s. cbn [state cmd_set cs_value] in *. subst.
  unfold frame_data_update, command_done.
  split; [reflexivity|]. repeat split.
Qed.

(** X12 on a frame of two columns, 5 and 147. *)
Lemma X12_frame_protocol_witness :
  exists s',
    run (frame_script [example_column 5; example_column 147])
        (idle_state PSDISPLAY_CMD_SET_1)
    = Ok tt s'
        ([IrqIntn true; IrqIntn true]
         ++ concat (map column_events [example_column 5; example_column 147])
         ++ [IrqIntn false; IrqIntn true; IrqIntn false; GfxUpdate]) /\
    framebuffer s'
    = fold_left store_column [example_column 5; example_column 147]
        (framebuffer (idle_state PSDISPLAY_CMD_SET_1)) /\
    accepting_cmd_under PSDISPLAY_CMD_SET_1 s' /\
    redraw s' = false.
Proof.
  apply (X12_frame_protocol (idle_state PSDISPLAY_CMD_SET_1)
           [example_column 5; example_column 147]).
  - repeat split; reflexivity.
  - repeat apply List.Forall_cons; [..|apply List.Forall_nil];
      repeat split; vm_compute; congruence.
Defined.

(** ** Chip-select and clock *)

(** X13. A chip-select pulse (raised, then lowered) cancels whatever
    command is in progress: outside programming mode it asserts the done
    interrupt and leaves the decoder accepting a command with the
    parameter offset at 0 and chip-select asserted; framebuffer, redraw
    flag, parameter, command set and every other field stay as they
    were.  In programming mode the pulse only leaves chip-select
    asserted: no other field changes and nothing is emitted. *)
Theorem X13_chip_select_cancels_command (s : PSDisplayGlobals) :
  run [InSetCs true; InSetCs false] s
  = match state s with
    | PSDISPLAYSTATE_PROGRAMMING => Ok tt (set_cs_value false s) []
    | _ => Ok tt (set_cs_value false (command_done s)) [IrqIntn false]
    end.
Proof.
  destruct_state s. unfold command_done. destruct st0; reflexivity.
Qed.

Lemma sclk_cb_selected s level :
  cs_value s = false ->
  ps_display_set_sclk_pin_cb level s
  = Ok tt (set_sclk_value (new_sclk_value level) s) [].
Proof.
  intros Hcs. destruct_state s. cbn [cs_value] in Hcs. subst cs0. reflexivity.
Qed.

(** X14. While chip-select is asserted (low), clock callbacks count
    nothing: whatever the levels and however many, the counter, the
    decoder state and every other field stay as they were, nothing is
    emitted, and only the remembered clock level follows the last
    callback. *)
Theorem X14_clock_not_counted_while_selected (levels : list Z) :
  forall s : PSDisplayGlobals,
    cs_value s = false ->
    run (map InSclkPin levels) s
    = Ok tt (set_sclk_value (last_sclk_value (sclk_value s) levels) s) [].
Proof.
  induction levels as [|level rest IH]; intros s Hcs.
  - destruct_state s. reflexivity.
  - cbn [map].
    rewrite (run_cons_Ok (InSclkPin level) _ _ _ _ (sclk_cb_selected s level Hcs)).
    rewrite IH by (destruct_state s; exact Hcs).
    destruct_state s. reflexivity.
Qed.

(** X14 on 60 clock pulses after power-on, chip-select low. *)
Lemma X14_clock_not_counted_while_selected_witness :
  run (map InSclkPin (clock_pulses 60)) initial_state
  = Ok tt (set_sclk_value
             (last_sclk_value (sclk_value initial_state) (clock_pulses 60))
             initial_state) [].
Proof.
  exact (X14_clock_not_counted_while_selected (clock_pulses 60) initial_state
           eq_refl).
Defined.

Lemma run_sclk_programming_stay levels : forall s,
  cs_value s = true -> state s = PSDISPLAYSTATE_PROGRAMMING ->
  0 <= sclk_count_with_cs_high s ->
  sclk_count_with_cs_high s + Z.of_nat (rising_edges (sclk_value s) levels) <= 50 ->
  exists s',
    run (map InSclkPin levels) s = Ok tt s' [] /\
    state s' = PSDISPLAYSTATE_PROGRAMMING /\
    sclk_count_with_cs_high s'
    = sclk_count_with_cs_high s + Z.of_nat (rising_edges (sclk_value s) levels).
Proof.
  induction levels as [|level rest IH]; intros s Hcs Hst Hc Hedges.
  - exists s. cbn [rising_edges]. split; [reflexivity|]. split; [exact Hst|lia].
  - cbn [rising_edges] in *.
    assert (Hnext : sclk_next_count s level
                    = sclk_count_with_cs_high s
                      + Z.of_nat (if is_rising (sclk_value s) level then 1 else 0)).
    { unfold sclk_next_count, u32. destruct (is_rising _ _).
      - rewrite Z.mod_small; lia.
      - cbn. lia. }
    destruct (sclk_cb_programming_stay s level Hcs Hst)
      as (s1 & H1 & Hst1 & Hcs1 & Hc1 & Hsv1); [lia|].
    destruct (IH s1 Hcs1 Hst1) as (s2 & H2 & Hst2 & Hc2); [lia| |].
    + rewrite Hc1, Hsv1, Hnext. lia.
    + exists s2. cbn [map].
      rewrite (run_cons_Ok (InSclkPin level) _ _ _ _ H1), H2.
      split; [reflexivity|]. split; [exact Hst2|].
      rewrite Hc2, Hc1, Hsv1, Hnext. lia.
Qed.

(** X15. After a reset (counter at 0), with chip-select high,
    programming mode ends at the 51st rising clock edge and not before.
    Up to 50 rising edges leave the controller in programming mode with
    nothing emitted, the counter equal to the number of rising edges
    seen (falling edges and repeated levels are not counted).  With 51 or
    more the decoder accepts commands and the detector has run exactly
    once. *)
Theorem X15_programming_ends_at_51st_rising_edge
    (s : PSDisplayGlobals) (levels : list Z) :
  state s = PSDISPLAYSTATE_PROGRAMMING -> cs_value s = true ->
  sclk_count_with_cs_high s = 0 ->
  let r := run (map InSclkPin levels) s in
  let edges := rising_edges (sclk_value s) levels in
  ((edges <= 50)%nat ->
   events r = [] /\
   option_map state (final_state r) = Some PSDISPLAYSTATE_PROGRAMMING /\
   option_map sclk_count_with_cs_high (final_state r) = Some (Z.of_nat edges)) /\
  ((51 <= edges)%nat ->
   option_map state (final_state r) = Some PSDISPLAYSTATE_ACCEPTING_CMD /\
   count_events is_detect (events r) = 1%nat).
Proof.
  intros Hst Hcs Hc r edges. subst r edges. split; intros Hedges.
  - destruct (run_sclk_programming_stay levels s Hcs Hst)
      as (s' & -> & Hst' & Hc'); [lia|lia|].
    cbn [events final_state option_map]. rewrite Hst', Hc', Hc.
    repeat split.
  - destruct (run_sclk_programming levels s Hcs Hst)
      as (s' & out & -> & Hst' & Hdet & _).
    + rewrite Hc. lia.
    + rewrite Hc. exact Hedges.
    + cbn [events final_state option_map]. rewrite Hst'.
      split; [reflexivity|exact Hdet].
Qed.

(** X15 on 50 and on 51 clock pulses after power-on, chip-select high. *)
Lemma X15_programming_ends_at_51st_rising_edge_witness :
  let s := set_cs_value true initial_state in
  option_map state (final_state (run (map InSclkPin (clock_pulses 50)) s))
  = Some PSDISPLAYSTATE_PROGRAMMING /\
  option_map state (final_state (run (map InSclkPin (clock_pulses 51)) s))
  = Some PSDISPLAYSTATE_ACCEPTING_CMD.
Proof.
  cbv zeta. split.
  - refine (proj1 (proj2 (proj1 (X15_programming_ends_at_51st_rising_edge
                                   (set_cs_value true initial_state)
                                   (clock_pulses 50) eq_refl eq_refl eq_refl) _))).
    vm_compute. lia.
  - refine (proj1 (proj2 (X15_programming_ends_at_51st_rising_edge
                            (set_cs_value true initial_state)
                            (clock_pulses 51) eq_refl eq_refl eq_refl) _)).
    vm_compute. lia.
Defined.

(** ** The detector and the capture *)

(** X16. The detector returns on every state, whatever the buffer
    holds: its scan ends within the 256 positions of the buffer.  It
    leaves the capture count clamped to 255 at most, a NUL at that index,
    and command set 0 or command set 1 selected, never the unknown one;
    apart from its entry it emits at most diagnostics of its own. *)
Theorem X16_detector_always_returns (s : PSDisplayGlobals) :
  exists cs out,
    ps_display_determine_command_set s
    = Ok tt (set_cmd_set cs (before_scan s)) (EnterDetermineCommandSet :: out) /\
    (cs = PSDISPLAY_CMD_SET_0 \/ cs = PSDISPLAY_CMD_SET_1) /\
    Forall is_detector_warning out /\
    prog_byte_offset (before_scan s) < PROG_HEADER_SIZE.
Proof.
  destruct (ps_display_determine_command_set_total s)
    as (cs & out & H & Hout & Hcs).
  exists cs, out. split; [exact H|]. split; [|split; [exact Hout|]].
  - destruct cs; [contradiction|auto..].
  - apply before_scan_offset.
Qed.

(** X17. A capture of two bytes or fewer (none after a reset that no
    programming followed) is never scanned: the detector selects command
    set 1, the default, and reports that no date string was found. *)
Theorem X17_detector_short_capture (s : PSDisplayGlobals) :
  prog_byte_offset s <= 2 ->
  ps_display_determine_command_set s
  = Ok tt (before_scan s)
      [EnterDetermineCommandSet; Stderr (MsgNoDateString PSDISPLAY_CMD_SET_1)] /\
  cmd_set (before_scan s) = PSDISPLAY_CMD_SET_1.
Proof.
  intros Hoff. split; [|reflexivity].
  rewrite ps_display_determine_command_set_eq.
  change (Z.to_nat PROG_HEADER_SIZE) with (S 255). rewrite scan_prog_header_S.
  assert (Hlt : prog_byte_offset (before_scan s) <= 2).
  { unfold before_scan, terminator_offset. psd_cbn.
    destruct (Z.leb_spec PROG_HEADER_SIZE (prog_byte_offset s));
      unfold PROG_HEADER_SIZE in *; lia. }
  destruct (Z.ltb_spec 2 (prog_byte_offset (before_scan s))); [lia|].
  reflexivity.
Qed.

(** X17 at power-on, nothing captured. *)
Lemma X17_detector_short_capture_witness :
  ps_display_determine_command_set initial_state
  = Ok tt (before_scan initial_state)
      [EnterDetermineCommandSet; Stderr (MsgNoDateString PSDISPLAY_CMD_SET_1)].
Proof.
  refine (proj1 (X17_detector_short_capture initial_state _)).
  cbn [prog_byte_offset initial_state]. lia.
Defined.

Lemma same_c_string_tl c1 l1 c2 l2 m :
  same_c_string (c1 :: l1) (c2 :: l2) (S m) -> same_c_string l1 l2 m.
Proof.
  intros [H0 Hj]. split; [exact H0|]. intros j Hle. exact (Hj (S j) ltac:(lia)).
Qed.

Lemma same_c_string_hd l1 l2 m :
  same_c_string l1 l2 m ->
  exists c r1 r2, l1 = c :: r1 /\ l2 = c :: r2 /\ (m = 0%nat -> c = 0).
Proof.
  intros [H0 Hj]. specialize (Hj 0%nat ltac:(lia)).
  destruct l1 as [|c r1]; [rewrite lookup_nil in H0; discriminate|].
  destruct l2 as [|c' r2]; [discriminate|]. injection Hj as <-.
  exists c, r1, r2. repeat split. intros ->. injection H0 as ->. reflexivity.
Qed.

(** [strlen], [strncmp] and the table lookup read a string up to its NUL
    and no further. *)
Lemma strlen_same l1 : forall l2 m, same_c_string l1 l2 m -> strlen l1 = strlen l2.
Proof.
  induction l1 as [|c r1 IH]; intros l2 m H;
    destruct (same_c_string_hd _ _ _ H) as (c' & r1' & r2 & E1 & -> & Hm);
    [discriminate|].
  injection E1 as <- <-. cbn [strlen].
  destruct (Z.eqb_spec c 0); [reflexivity|].
  destruct m as [|m]; [specialize (Hm eq_refl); contradiction|].
  rewrite (IH r2 m (same_c_string_tl _ _ _ _ _ H)). reflexivity.
Qed.

Lemma strncmp_same n : forall l1 l2 lit m,
  same_c_string l1 l2 m -> strncmp l1 lit n = strncmp l2 lit n.
Proof.
  induction n as [|n IH]; intros l1 l2 lit m H; [reflexivity|].
  destruct (same_c_string_hd _ _ _ H) as (c & r1 & r2 & -> & -> & Hm).
  cbn [strncmp hd tl].
  destruct (negb (c =? hd 0 lit)); [reflexivity|].
  destruct (Z.eqb_spec c 0); [reflexivity|].
  destruct m as [|m]; [specialize (Hm eq_refl); contradiction|].
  exact (IH r1 r2 (tl lit) m (same_c_string_tl _ _ _ _ _ H)).
Qed.

Lemma find_cmd_set_same tbl : forall l1 l2 m,
  same_c_string l1 l2 m -> find_cmd_set l1 tbl = find_cmd_set l2 tbl.
Proof.
  induction tbl as [|[sig cs] tbl IH]; intros l1 l2 m H; [reflexivity|].
  cbn [find_cmd_set]. rewrite (strncmp_same _ l1 l2 _ m H), (IH l1 l2 m H).
  reflexivity.
Qed.

Lemma same_c_string_drop (h1 h2 : list Z) (off i : Z) :
  2 <= i < off ->
  h1 !! Z.to_nat off = Some 0 ->
  (forall j : nat, 2 <= Z.of_nat j <= off -> h1 !! j = h2 !! j) ->
  same_c_string (drop (Z.to_nat i) h1) (drop (Z.to_nat i) h2) (Z.to_nat (off - i)).
Proof.
  intros Hi H0 Hagree. split.
  - rewrite lookup_drop. replace (Z.to_nat i + Z.to_nat (off - i))%nat
      with (Z.to_nat off) by lia. exact H0.
  - intros j Hj. rewrite !lookup_drop. apply Hagree. lia.
Qed.

(** The scan gives the same verdict on two controllers whose buffers
    agree from index 2 up to the terminator. *)
Lemma scan_prog_header_same fuel : forall i s1 s2,
  2 <= i ->
  prog_byte_offset s1 = prog_byte_offset s2 ->
  cmd_set s1 = cmd_set s2 ->
  prog_header s1 !! Z.to_nat (prog_byte_offset s1) = Some 0 ->
  (forall j : nat, 2 <= Z.of_nat j <= prog_byte_offset s1 ->
     prog_header s1 !! j = prog_header s2 !! j) ->
  verdict (scan_prog_header fuel i s1) = verdict (scan_prog_header fuel i s2).
Proof.
  induction fuel as [|fuel IH]; intros i s1 s2 Hi Hoff Hset H0 Hagree;
    [reflexivity|].
  rewrite !scan_prog_header_S. cbv zeta. rewrite <- Hoff, <- Hset.
  destruct (Z.ltb_spec i (prog_byte_offset s1)) as [Hlt|Hge];
    [|unfold verdict; cbn [final_state events option_map];
      rewrite Hset; reflexivity].
  pose proof (same_c_string_drop _ _ _ i (conj Hi Hlt) H0 Hagree) as Hsame.
  rewrite <- (strncmp_same 5 _ _ _ _ Hsame), <- (find_cmd_set_same _ _ _ _ Hsame),
    <- (strlen_same _ _ _ Hsame).
  destruct (strncmp _ _ 5 =? 0).
  - destruct (find_cmd_set _ _); unfold verdict;
      cbn [final_state events option_map cmd_set set_cmd_set];
      rewrite ?Hset; reflexivity.
  - apply IH; try assumption.
    pose proof (strlen_nonneg (drop (Z.to_nat i) (prog_header s1))). lia.
Qed.

Lemma terminated_header_lookup s :
  Z.of_nat (length (prog_header s)) = PROG_HEADER_SIZE ->
  terminated_header s !! Z.to_nat (terminator_offset s) = Some 0.
Proof.
  intros Hlen. unfold terminated_header. apply list_lookup_insert_eq.
  unfold terminator_offset, PROG_HEADER_SIZE in *.
  destruct (Z.leb_spec 256 (prog_byte_offset s)); lia.
Qed.

Lemma verdict_determine_command_set s :
  verdict (ps_display_determine_command_set s)
  = (fst (verdict (scan_prog_header (Z.to_nat PROG_HEADER_SIZE) 2 (before_scan s))),
     EnterDetermineCommandSet
     :: snd (verdict (scan_prog_header (Z.to_nat PROG_HEADER_SIZE) 2
                        (before_scan s)))).
Proof.
  rewrite ps_display_determine_command_set_eq. unfold verdict.
  destruct (scan_prog_header _ 2 (before_scan s)) as [[] ? ?|? ?]; reflexivity.
Qed.

Lemma determine_command_set_same s1 s2 :
  Z.of_nat (length (prog_header s1)) = PROG_HEADER_SIZE ->
  Z.of_nat (length (prog_header s2)) = PROG_HEADER_SIZE ->
  terminator_offset s1 = terminator_offset s2 ->
  (forall j : nat, 2 <= Z.of_nat j < terminator_offset s1 ->
     prog_header s1 !! j = prog_header s2 !! j) ->
  verdict (ps_display_determine_command_set s1)
  = verdict (ps_display_determine_command_set s2).
Proof.
  intros Hl1 Hl2 Hoff Hagree. rewrite !verdict_determine_command_set.
  rewrite (scan_prog_header_same (Z.to_nat PROG_HEADER_SIZE) 2
             (before_scan s1) (before_scan s2)); [reflexivity|lia|..].
  - unfold before_scan. psd_cbn. exact Hoff.
  - reflexivity.
  - unfold before_scan. psd_cbn. apply terminated_header_lookup, Hl1.
  - unfold before_scan. psd_cbn. intros j Hj.
    destruct (Z.eq_dec (Z.of_nat j) (terminator_offset s1)) as [Heq|Hne].
    + replace j with (Z.to_nat (terminator_offset s1)) by lia.
      rewrite terminated_header_lookup by exact Hl1.
      rewrite Hoff, terminated_header_lookup by exact Hl2. reflexivity.
    + unfold terminated_header. rewrite <- Hoff.
      rewrite !list_lookup_insert_ne by lia. apply Hagree. lia.
Qed.

(** X18. The detector reads the captured bytes only, the first two
    excepted: on two controllers with the same (clamped) capture count
    whose buffers hold the same bytes from index 2 up to that count, it
    selects the same command set and emits the same diagnostics.  Bytes
    0 and 1 and whatever an earlier programming left in the buffer beyond
    the capture count have no influence. *)
Theorem X18_detector_reads_captured_bytes_only (s1 s2 : PSDisplayGlobals) :
  Z.of_nat (length (prog_header s1)) = PROG_HEADER_SIZE ->
  Z.of_nat (length (prog_header s2)) = PROG_HEADER_SIZE ->
  terminator_offset s1 = terminator_offset s2 ->
  (forall j : nat, 2 <= Z.of_nat j < terminator_offset s1 ->
     prog_header s1 !! j = prog_header s2 !! j) ->
  option_map cmd_set (final_state (ps_display_determine_command_set s1))
  = option_map cmd_set (final_state (ps_display_determine_command_set s2)) /\
  events (ps_display_determine_command_set s1)
  = events (ps_display_determine_command_set s2).
Proof.
  intros Hl1 Hl2 Hoff Hagree.
  pose proof (determine_command_set_same s1 s2 Hl1 Hl2 Hoff Hagree) as H.
  unfold verdict in H. injection H as Hset Hev. split; assumption.
Qed.

(** X18 on the capture of the December 2014 header and the same capture
    with byte 0 and byte 200 overwritten. *)
Lemma X18_detector_reads_captured_bytes_only_witness :
  prog_header capture_with_stale_bytes <> prog_header (capture header_dec_2014) /\
  events (ps_display_determine_command_set (capture header_dec_2014))
  = events (ps_display_determine_command_set capture_with_stale_bytes).
Proof.
  split; [vm_compute; discriminate|].
  refine (proj2 (X18_detector_reads_captured_bytes_only
                   (capture header_dec_2014) capture_with_stale_bytes _ _ _ _)).
  - vm_compute. reflexivity.
  - vm_compute. reflexivity.
  - reflexivity.
  - intros j Hj.
    assert (Hoff : terminator_offset (capture header_dec_2014) < 200)
      by (vm_compute; reflexivity).
    unfold capture_with_stale_bytes. cbn [prog_header set_prog_header].
    rewrite !list_lookup_insert_ne by lia. reflexivity.
Defined.

(** ** From programming to the first command *)

(** The detector reads the capture only. *)
Lemma scan_prog_header_cong fuel : forall i s1 s2,
  prog_header s1 = prog_header s2 ->
  prog_byte_offset s1 = prog_byte_offset s2 ->
  cmd_set s1 = cmd_set s2 ->
  verdict (scan_prog_header fuel i s1) = verdict (scan_prog_header fuel i s2).
Proof.
  induction fuel as [|fuel IH]; intros i s1 s2 Hh Ho Hc; [reflexivity|].
  rewrite !scan_prog_header_S. cbv zeta. rewrite <- Hh, <- Ho, <- Hc.
  destruct (i <? prog_byte_offset s1);
    [|unfold verdict; cbn [final_state events option_map]; rewrite Hc; reflexivity].
  destruct (strncmp _ _ 5 =? 0); [|apply IH; assumption].
  destruct (find_cmd_set _ _); unfold verdict;
    cbn [final_state events option_map cmd_set set_cmd_set]; rewrite ?Hc;
    reflexivity.
Qed.

Lemma determine_command_set_cong s1 s2 :
  prog_header s1 = prog_header s2 ->
  prog_byte_offset s1 = prog_byte_offset s2 ->
  verdict (ps_display_determine_command_set s1)
  = verdict (ps_display_determine_command_set s2).
Proof.
  intros Hh Ho. rewrite !verdict_determine_command_set.
  rewrite (scan_prog_header_cong (Z.to_nat PROG_HEADER_SIZE) 2
             (before_scan s1) (before_scan s2)); [reflexivity|..];
    unfold before_scan, terminated_header, terminator_offset; psd_cbn;
    rewrite ?Hh, ?Ho; reflexivity.
Qed.

(** A clock callback while chip-select is high. *)
Lemma sclk_cb_deselected s level :
  cs_value s = true ->
  ps_display_set_sclk_pin_cb level s =
    let s1 := set_sclk_count_with_cs_high (sclk_next_count s level) s in
    let nv := new_sclk_value level in
    if 50 <? sclk_next_count s level then
      match state s with
      | PSDISPLAYSTATE_PROGRAMMING =>
        match ps_display_determine_command_set (command_done s1) with
        | Ok _ s2 o =>
          Ok tt (set_sclk_value nv s2) ([IrqDone true; IrqIntn false] ++ o)
        | Fault f o => Fault f ([IrqDone true; IrqIntn false] ++ o)
        end
      | _ => Ok tt (set_sclk_value nv s1) [IrqDone true]
      end
    else Ok tt (set_sclk_value nv s1) [].
Proof.
  intros Hcs. destruct_state s. cbn [cs_value] in Hcs. subst cs0.
  unfold ps_display_set_sclk_pin_cb, sclk_next_count, is_rising, new_sclk_value,
    command_done.
  psd_cbn.
  destruct (negb (level =? 0) && negb (eqb (negb (level =? 0)) sv0)); psd_cbn;
    (destruct (50 <? _); psd_cbn; [|reflexivity]);
    (destruct st0; psd_cbn; try reflexivity);
    destruct (ps_display_determine_command_set _) as [[] ? ?|? ?]; psd_cbn;
    rewrite ?app_nil_r; reflexivity.
Qed.

Lemma run_sclk_keeps_cmd_set levels : forall s,
  cs_value s = true -> state s <> PSDISPLAYSTATE_PROGRAMMING ->
  exists s' out,
    run (map InSclkPin levels) s = Ok tt s' out /\
    cmd_set s' = cmd_set s /\ state s' = state s /\ cs_value s' = true.
Proof.
  induction levels as [|level rest IH]; intros s Hcs Hst.
  - exists s, []. repeat split. exact Hcs.
  - pose proof (sclk_cb_deselected s level Hcs) as H1. cbv zeta in H1.
    assert (H1' : exists o1,
               ps_display_set_sclk_pin_cb level s
               = Ok tt (set_sclk_value (new_sclk_value level)
                          (set_sclk_count_with_cs_high
                             (sclk_next_count s level) s)) o1).
    { rewrite H1. destruct (50 <? _); [|eexists; reflexivity].
      destruct (state s); [contradiction|eexists; reflexivity..]. }
    destruct H1' as (o1 & H1').
    destruct (IH (set_sclk_value (new_sclk_value level)
                    (set_sclk_count_with_cs_high (sclk_next_count s level) s)))
      as (s2 & o2 & H2 & Hset & Hst2 & Hcs2).
    + destruct_state s. exact Hcs.
    + destruct_state s. exact Hst.
    + cbn [map]. rewrite (run_cons_Ok (InSclkPin level) _ _ _ _ H1'), H2.
      exists s2, (o1 ++ o2). split; [reflexivity|].
      rewrite Hset, Hst2. destruct_state s. repeat split. exact Hcs2.
Qed.

Lemma run_sclk_programming_verdict levels : forall s,
  cs_value s = true -> state s = PSDISPLAYSTATE_PROGRAMMING ->
  0 <= sclk_count_with_cs_high s < 4294967296 ->
  (edges_needed (sclk_count_with_cs_high s)
   <= rising_edges (sclk_value s) levels)%nat ->
  exists s' out,
    run (map InSclkPin levels) s = Ok tt s' out /\
    state s' = PSDISPLAYSTATE_ACCEPTING_CMD /\ cs_value s' = true /\
    Some (cmd_set s')
    = option_map cmd_set (final_state (ps_display_determine_command_set s)).
Proof.
  induction levels as [|level rest IH]; intros s Hcs Hst Hc Hedges.
  - exfalso. revert Hedges. unfold edges_needed. cbn [rising_edges].
    destruct (_ =? _); [lia|].
    destruct (Z.ltb_spec 50 (sclk_count_with_cs_high s)); lia.
  - pose proof (sclk_cb_deselected s level Hcs) as H1. cbv zeta in H1.
    rewrite Hst in H1.
    set (s1 := set_sclk_count_with_cs_high (sclk_next_count s level) s) in *.
    destruct (Z.ltb_spec 50 (sclk_next_count s level)) as [Hgt|Hle].
    + destruct (ps_display_determine_command_set_total (command_done s1))
        as (cs & o & Hdet & _ & _).
      pose proof (determine_command_set_cong (command_done s1) s) as Hcong.
      rewrite Hdet in H1, Hcong.
      specialize (Hcong ltac:(subst s1; destruct_state s; reflexivity)
                        ltac:(subst s1; destruct_state s; reflexivity)).
      destruct (run_sclk_keeps_cmd_set rest
                  (set_sclk_value (new_sclk_value level)
                     (set_cmd_set cs (before_scan (command_done s1)))))
        as (s2 & o2 & H2 & Hset2 & Hst2 & Hcs2).
      * subst s1. destruct_state s. exact Hcs.
      * subst s1. destruct_state s. discriminate.
      * cbn [map]. rewrite (run_cons_Ok (InSclkPin level) _ _ _ _ H1), H2.
        eexists _, _. split; [reflexivity|]. rewrite Hst2, Hset2.
        split; [subst s1; destruct_state s; reflexivity|].
        split; [exact Hcs2|].
        unfold verdict in Hcong. injection Hcong as Hcong _.
        rewrite <- Hcong. subst s1. destruct_state s. reflexivity.
    + destruct (IH (set_sclk_value (new_sclk_value level) s1))
        as (s2 & o2 & H2 & Hst2 & Hcs2 & Hset2).
      * subst s1. destruct_state s. exact Hcs.
      * subst s1. destruct_state s. exact Hst.
      * subst s1. destruct_state s.
        cbn [sclk_count_with_cs_high set_sclk_value set_sclk_count_with_cs_high]
          in *.
        unfold sclk_next_count, u32.
        cbn [sclk_count_with_cs_high sclk_value].
        destruct (is_rising _ _); [|exact Hc].
        apply Z.mod_pos_bound. lia.
      * subst s1. destruct_state s.
        cbn [sclk_count_with_cs_high sclk_value set_sclk_value
             set_sclk_count_with_cs_high] in *.
        revert Hedges Hle. cbn [rising_edges].
        unfold sclk_next_count, edges_needed, u32.
        cbn [sclk_count_with_cs_high sclk_value].
        destruct (is_rising sv0 level);
          repeat match goal with
                 | |- context [?a =? ?b] => destruct (Z.eqb_spec a b)
                 | |- context [?a <? ?b] => destruct (Z.ltb_spec a b)
                 end; intros; Z.div_mod_to_equations; lia.
      * cbn [map]. rewrite (run_cons_Ok (InSclkPin level) _ _ _ _ H1), H2.
        exists s2, ([] ++ o2). split; [reflexivity|]. split; [exact Hst2|].
        split; [exact Hcs2|]. rewrite Hset2.
        pose proof (determine_command_set_cong
                      (set_sclk_value (new_sclk_value level) s1) s) as Hcong.
        specialize (Hcong ltac:(subst s1; destruct_state s; reflexivity)
                          ltac:(subst s1; destruct_state s; reflexivity)).
        unfold verdict in Hcong. injection Hcong as Hcong _. exact Hcong.
Qed.

(** X19. When clock callbacks with chip-select high end programming
    mode, the command set in force afterwards is the verdict of the
    detector on the capture as it stood: the callbacks before the exit do
    not touch the capture, and those after it neither run the detector
    again nor change the command set. *)
Theorem X19_programming_exit_selects_detector_verdict
    (s : PSDisplayGlobals) (levels : list Z) :
  state s = PSDISPLAYSTATE_PROGRAMMING -> cs_value s = true ->
  0 <= sclk_count_with_cs_high s < 4294967296 ->
  (edges_needed (sclk_count_with_cs_high s)
   <= rising_edges (sclk_value s) levels)%nat ->
  let r := run (map InSclkPin levels) s in
  option_map cmd_set (final_state r)
  = option_map cmd_set (final_state (ps_display_determine_command_set s)) /\
  option_map state (final_state r) = Some PSDISPLAYSTATE_ACCEPTING_CMD.
Proof.
  intros Hst Hcs Hc Hedges r. subst r.
  destruct (run_sclk_programming_verdict levels s Hcs Hst Hc Hedges)
    as (s' & out & -> & Hst' & _ & Hset).
  cbn [final_state option_map]. rewrite Hst'. split; [exact Hset|reflexivity].
Qed.

(** X19 on the capture of the December 2014 header, chip-select raised,
    and 60 clock pulses. *)
Lemma X19_programming_exit_selects_detector_verdict_witness :
  let s := set_cs_value true (capture header_dec_2014) in
  option_map cmd_set (final_state (run (map InSclkPin (clock_pulses 60)) s))
  = option_map cmd_set (final_state (ps_display_determine_command_set s)).
Proof.
  cbv zeta.
  refine (proj1 (X19_programming_exit_selects_detector_verdict
                   (set_cs_value true (capture header_dec_2014))
                   (clock_pulses 60) _ eq_refl _ _)).
  - vm_compute. reflexivity.
  - vm_compute. split; congruence.
  - vm_compute. lia.
Defined.

Lemma reset_pin_asserted s :
  ps_display_set_reset_pin_cb 0 s
  = Ok tt (set_prog_byte_offset 0
             (set_state PSDISPLAYSTATE_PROGRAMMING
                (set_sclk_count_with_cs_high 0 s)))
      [IrqDone false; IrqIntn true].
Proof. destruct_state s. reflexivity. Qed.

(** Captured bytes change the capture only. *)
Lemma run_capture_keeps bytes : forall s,
  cs_value s = false -> state s = PSDISPLAYSTATE_PROGRAMMING ->
  exists hdr off,
    run (map InTransfer bytes) s
    = Ok tt (set_prog_byte_offset off (set_prog_header hdr s)) [].
Proof.
  induction bytes as [|d rest IH]; intros s Hcs Hst.
  - exists (prog_header s), (prog_byte_offset s). destruct_state s. reflexivity.
  - pose proof (transfer_programming s d Hcs Hst) as H1. cbn [map].
    rewrite (run_cons_Ok _ _ _ _ _ (step_transfer_Ok _ _ _ _ _ H1)).
    destruct (prog_byte_offset s <? PROG_HEADER_SIZE).
    + destruct (IH (set_prog_byte_offset (prog_byte_offset s + 1)
                      (set_prog_header
                         (<[Z.to_nat (prog_byte_offset s) := data_byte d]>
                            (prog_header s)) s)))
        as (hdr & off & ->);
        [destruct_state s; exact Hcs|destruct_state s; exact Hst|].
      exists hdr, off. destruct_state s. reflexivity.
    + destruct (IH s Hcs Hst) as (hdr & off & ->). exists hdr, off. reflexivity.
Qed.

(** X20. The boot sequence, from any state with chip-select and clock
    low: reset asserted, the programming data transferred, chip-select
    raised, 51 clock pulses, chip-select lowered.  It runs without fault
    and leaves the decoder accepting commands with chip-select asserted,
    under the command set that the detector returns on the state reached
    after the reset and the capture; what command set was in force before
    the reset plays no part. *)
Theorem X20_boot_sequence (s : PSDisplayGlobals) (header : list Z) :
  cs_value s = false -> sclk_value s = false ->
  exists s1 s',
    final_state (run (InResetPin 0 :: map InTransfer header) s) = Some s1 /\
    final_state (run (boot header) s) = Some s' /\
    accepting_cmd_under (cmd_set s') s' /\
    Some (cmd_set s')
    = option_map cmd_set (final_state (ps_display_determine_command_set s1)).
Proof.
  intros Hcs Hsv. unfold boot.
  pose proof (reset_pin_asserted s) as H0.
  set (s0 := set_prog_byte_offset 0 _) in H0.
  destruct (run_capture_keeps header s0) as (hdr & off & H1);
    [subst s0; destruct_state s; exact Hcs|reflexivity|].
  set (s1 := set_prog_byte_offset off (set_prog_header hdr s0)) in H1.
  assert (H2 : step (InSetCs true) s1 = Ok tt (set_cs_value true s1) [])
    by (subst s1 s0; destruct_state s; reflexivity).
  destruct (run_sclk_programming_verdict (clock_pulses 51) (set_cs_value true s1))
    as (s3 & o3 & H3 & Hst3 & Hcs3 & Hset3).
  { subst s1 s0. destruct_state s. reflexivity. }
  { subst s1 s0. destruct_state s. reflexivity. }
  { subst s1 s0. destruct_state s. cbn. lia. }
  { subst s1 s0. destruct_state s. cbn [sclk_value cs_value] in *. subst sv0.
    vm_compute. lia. }
  assert (H4 : step (InSetCs false) s3 = Ok tt (set_cs_value false s3) []).
  { destruct_state s3. cbn [state] in Hst3. subst st0. reflexivity. }
  exists s1, (set_cs_value false s3).
  split.
  { rewrite (run_cons_Ok (InResetPin 0) _ _ _ _ H0), H1. reflexivity. }
  split.
  { rewrite (run_cons_Ok (InResetPin 0) _ _ _ _ H0), (run_app_Ok _ _ _ _ _ H1).
    rewrite (run_cons_Ok (InSetCs true) _ _ _ _ H2), (run_app_Ok _ _ _ _ _ H3).
    rewrite (run_cons_Ok (InSetCs false) _ _ _ _ H4). reflexivity. }
  split.
  { destruct_state s3. cbn [state] in Hst3. subst st0. repeat split. }
  replace (cmd_set (set_cs_value false s3)) with (cmd_set s3)
    by (destruct_state s3; reflexivity).
  rewrite Hset3.
  pose proof (determine_command_set_cong (set_cs_value true s1) s1) as Hcong.
  specialize (Hcong ltac:(destruct_state s1; reflexivity)
                    ltac:(destruct_state s1; reflexivity)).
  unfold verdict in Hcong. injection Hcong as Hcong _. exact Hcong.
Qed.

(** X20 from the idle state of command set 1, with the December 2014
    header. *)
Lemma X20_boot_sequence_witness :
  exists s1 s',
    final_state (run (InResetPin 0 :: map InTransfer header_dec_2014)
                     (idle_state PSDISPLAY_CMD_SET_1)) = Some s1 /\
    final_state (run (boot header_dec_2014) (idle_state PSDISPLAY_CMD_SET_1))
    = Some s' /\
    accepting_cmd_under (cmd_set s') s' /\
    Some (cmd_set s')
    = option_map cmd_set (final_state (ps_display_determine_command_set s1)).
Proof.
  exact (X20_boot_sequence (idle_state PSDISPLAY_CMD_SET_1) header_dec_2014
           eq_refl eq_refl).
Defined.

(** ** The blit at any place *)

Lemma blit_coords w h i :
  0 < w -> 0 <= i < w * h -> 0 <= i mod w < w /\ 0 <= i / w < h.
Proof.
  intros Hw Hi. split; [apply Z.mod_pos_bound; lia|].
  split; [apply Z.div_pos; lia|]. apply Z.div_lt_upper_bound; lia.
Qed.

Lemma blit_index_range bits xo yo w h i :
  blit_fits bits xo yo w h -> 0 <= i < w * h ->
  0 <= blit_index xo yo w i < FRAMEBUFFER_SIZE /\
  0 <= xo + i mod w < 256 /\ 0 <= yo + i / w < 256.
Proof.
  intros (Hx & Hy & Hw & Hh & Hxw & Hyh & _) Hi.
  destruct (blit_coords w h i Hw Hi) as [Hm Hd].
  unfold blit_index. psd_geometry. nia.
Qed.

Lemma blit_index_inj bits xo yo w h i j :
  blit_fits bits xo yo w h -> 0 <= i < w * h -> 0 <= j < w * h ->
  blit_index xo yo w i = blit_index xo yo w j -> i = j.
Proof.
  intros (Hx & Hy & Hw & Hh & Hxw & Hyh & _) Hi Hj.
  destruct (blit_coords w h i Hw Hi) as [Hmi Hdi].
  destruct (blit_coords w h j Hw Hj) as [Hmj Hdj].
  unfold blit_index. psd_geometry. intros Heq.
  assert (Hq : i / w = j / w) by nia.
  assert (Hr : i mod w = j mod w) by nia.
  rewrite (Z.div_mod i w), (Z.div_mod j w) by lia. rewrite Hq, Hr. reflexivity.
Qed.

(** One pixel of a blit that fits. *)
Lemma draw_bitmap_pixel_fits bits xo yo w h i s :
  blit_fits bits xo yo w h -> 0 <= i < w * h ->
  draw_bitmap_pixel bits xo yo w i s
  = Ok tt (set_framebuffer
             (<[Z.to_nat (blit_index xo yo w i) := lsb_first_color bits i]>
                (framebuffer s)) s) [].
Proof.
  intros Hfit Hi.
  pose proof (blit_index_range bits xo yo w h i Hfit Hi) as (Hr & Hx & Hy).
  unfold draw_bitmap_pixel, lsb_first_color.
  assert (Hlt : (Z.to_nat (i / 8) < length bits)%nat).
  { destruct Hfit as (_ & _ & _ & _ & _ & _ & Hbits).
    assert (i / 8 < Z.of_nat (length bits)) by (apply Z.div_lt_upper_bound; lia).
    assert (0 <= i / 8) by (apply Z.div_pos; lia). lia. }
  destruct (lookup_lt_is_Some_2 bits _ Hlt) as [b Hb].
  rewrite Hb, (nth_lookup_Some _ _ _ _ Hb).
  rewrite land_bit_test by (apply Z.mod_pos_bound; lia).
  revert Hr. unfold ps_display_set_pixel, fb_store, blit_index, u8, u32.
  rewrite (Z.mod_small (xo + i mod w) 256) by lia.
  rewrite (Z.mod_small (yo + i / w) 256) by lia.
  intros Hr.
  rewrite (Z.mod_small _ 4294967296) by (psd_geometry; lia).
  destruct (Z.leb_spec 0 ((yo + i / w) * SNOWY_BYTES_PER_ROW + (xo + i mod w)));
    [|lia].
  destruct (Z.ltb_spec ((yo + i / w) * SNOWY_BYTES_PER_ROW + (xo + i mod w))
              FRAMEBUFFER_SIZE); [|lia].
  destruct (Z.testbit b (i mod 8)); reflexivity.
Qed.

(** The pixels [i .. i + n - 1] of a blit that fits. *)
Lemma draw_bitmap_loop_fits bits xo yo w h n : forall i s,
  blit_fits bits xo yo w h -> 0 <= i -> i + Z.of_nat n <= w * h ->
  Z.of_nat (length (framebuffer s)) = FRAMEBUFFER_SIZE ->
  exists fb,
    draw_bitmap_loop n bits xo yo w i s = Ok tt (set_framebuffer fb s) [] /\
    length fb = length (framebuffer s) /\
    (forall j, i <= j < i + Z.of_nat n ->
       fb !! Z.to_nat (blit_index xo yo w j) = Some (lsb_first_color bits j)) /\
    (forall k : nat,
       (forall j, i <= j < i + Z.of_nat n -> k <> Z.to_nat (blit_index xo yo w j)) ->
       fb !! k = framebuffer s !! k).
Proof.
  induction n as [|n IH]; intros i s Hfit Hi Hn Hfb.
  - exists (framebuffer s). cbn [draw_bitmap_loop ret].
    split; [destruct_state s; reflexivity|]. split; [reflexivity|].
    split; [intros j Hj; lia|reflexivity].
  - cbn [draw_bitmap_loop].
    rewrite (bind_Ok _ _ _ _ _ _
               (draw_bitmap_pixel_fits bits xo yo w h i s Hfit ltac:(lia))).
    destruct (IH (i + 1)
                (set_framebuffer
                   (<[Z.to_nat (blit_index xo yo w i) := lsb_first_color bits i]>
                      (framebuffer s)) s) Hfit)
      as (fb & Hrun & Hfblen & Hin & Hout);
      [lia|lia|cbn [framebuffer set_framebuffer]; rewrite length_insert; exact Hfb|].
    cbn [framebuffer set_framebuffer] in *. rewrite length_insert in Hfblen.
    exists fb. rewrite Hrun. split; [reflexivity|]. split; [exact Hfblen|].
    pose proof (blit_index_range bits xo yo w h i Hfit ltac:(lia)) as (Hri & _).
    split.
    + intros j Hj. destruct (Z.eq_dec j i) as [->|Hne].
      * rewrite Hout.
        -- apply list_lookup_insert_eq. lia.
        -- intros j Hj' Heq. apply Z2Nat.inj in Heq;
             [|lia
              |pose proof (blit_index_range bits xo yo w h j Hfit ltac:(lia)); lia].
           apply (blit_index_inj bits xo yo w h) in Heq; [lia|exact Hfit|lia|lia].
      * apply Hin. lia.
    + intros k Hk. rewrite Hout by (intros j Hj; apply Hk; lia).
      apply list_lookup_insert_ne. intros Heq. apply (Hk i); [lia|congruence].
Qed.

(** The framebuffer at power-on has the size of the array. *)
Lemma initial_framebuffer_length :
  Z.of_nat (length (framebuffer initial_state)) = FRAMEBUFFER_SIZE.
Proof.
  cbn [framebuffer initial_state]. rewrite length_replicate.
  apply Z2Nat.id. discriminate.
Qed.

(** X21. [ps_display_draw_bitmap] is safe and exact for every rectangle
    that lies on the screen: if the offsets are not negative, the width
    is positive, the rectangle ends within 148 columns and 172 rows and
    the bitmap holds a bit for each of its pixels, then the blit runs
    without fault, writes pixel ([row], [col]) of the bitmap (bit
    [(row * width + col) mod 8] of byte [(row * width + col) / 8]) at
    row [y_offset + row], column [x_offset + col] as red or black,
    leaves every cell outside the rectangle and every other field as it
    was, and emits nothing. *)
Theorem X21_draw_bitmap_within_screen
    (bits : list Z) (x_offset y_offset width height : Z) (s : PSDisplayGlobals) :
  blit_fits bits x_offset y_offset width height ->
  Z.of_nat (length (framebuffer s)) = FRAMEBUFFER_SIZE ->
  exists fb,
    ps_display_draw_bitmap bits x_offset y_offset width height s
    = Ok tt (set_framebuffer fb s) [] /\
    (forall row col, 0 <= row < height -> 0 <= col < width ->
       fb !! Z.to_nat ((y_offset + row) * SNOWY_BYTES_PER_ROW + (x_offset + col))
       = Some (lsb_first_color bits (row * width + col))) /\
    (forall k : nat,
       (forall row col, 0 <= row < height -> 0 <= col < width ->
          k <> Z.to_nat ((y_offset + row) * SNOWY_BYTES_PER_ROW
                         + (x_offset + col))) ->
       fb !! k = framebuffer s !! k).
Proof.
  intros Hfit Hfb. pose proof Hfit as (Hx & Hy & Hw & Hh & Hxw & Hyh & Hbits).
  unfold ps_display_draw_bitmap.
  assert (Hpix : u32 (width * height) = width * height).
  { unfold u32. apply Z.mod_small. psd_geometry. nia. }
  rewrite Hpix.
  destruct (draw_bitmap_loop_fits bits x_offset y_offset width height
              (Z.to_nat (width * height)) 0 s Hfit)
    as (fb & Hrun & _ & Hin & Hout); [lia|nia|exact Hfb|].
  exists fb. split; [exact Hrun|]. split.
  - intros row col Hrow Hcol.
    rewrite <- (Hin (row * width + col)) by nia. unfold blit_index.
    assert (Hq : (row * width + col) / width = row)
      by (rewrite Z.div_add_l by lia; rewrite Z.div_small by lia; lia).
    assert (Hr : (row * width + col) mod width = col)
      by (rewrite Z.add_comm, Z.mod_add by lia; apply Z.mod_small; lia).
    rewrite Hq, Hr. reflexivity.
  - intros k Hk. apply Hout. intros j Hj. unfold blit_index.
    destruct (blit_coords width height j Hw ltac:(nia)) as [Hm Hd].
    apply Hk; assumption.
Qed.

(** X21 on the logo drawn in the bottom right corner of the screen. *)
Lemma X21_draw_bitmap_within_screen_witness :
  blit_fits ps_display_get_pebble_logo 20 140 128 32 /\
  exists fb,
    ps_display_draw_bitmap ps_display_get_pebble_logo 20 140 128 32 initial_state
    = Ok tt (set_framebuffer fb initial_state) [].
Proof.
  assert (Hfit : blit_fits ps_display_get_pebble_logo 20 140 128 32)
    by (repeat split; vm_compute; congruence).
  split; [exact Hfit|].
  destruct (X21_draw_bitmap_within_screen ps_display_get_pebble_logo
              20 140 128 32 initial_state Hfit) as (fb & Hrun & _).
  - exact initial_framebuffer_length.
  - exists fb. exact Hrun.
Defined.

Lemma u8_add_256 a k : u8 (a + 256 * k) = u8 a.
Proof. unfold u8. rewrite Z.mul_comm. apply Z.mod_add. lia. Qed.

Lemma draw_bitmap_pixel_wrap bits xo yo w a b i s :
  draw_bitmap_pixel bits (xo + 256 * a) (yo + 256 * b) w i s
  = draw_bitmap_pixel bits xo yo w i s.
Proof.
  unfold draw_bitmap_pixel.
  replace (xo + 256 * a + i mod w) with (xo + i mod w + 256 * a) by lia.
  replace (yo + 256 * b + i / w) with (yo + i / w + 256 * b) by lia.
  rewrite !u8_add_256. reflexivity.
Qed.

Lemma draw_bitmap_loop_wrap bits xo yo w a b n : forall i s,
  draw_bitmap_loop n bits (xo + 256 * a) (yo + 256 * b) w i s
  = draw_bitmap_loop n bits xo yo w i s.
Proof.
  induction n as [|n IH]; intros i s; [reflexivity|].
  cbn [draw_bitmap_loop]. unfold bind. rewrite draw_bitmap_pixel_wrap.
  destruct (draw_bitmap_pixel bits xo yo w i s) as [[] s1 o1|]; [|reflexivity].
  rewrite IH. reflexivity.
Qed.

(** X22. The blit computes the coordinates of a pixel in 8 bits
    ([uint8_t x, y]): offsets that differ by multiples of 256 give the
    same blit, on every state and for every bitmap. *)
Theorem X22_draw_bitmap_coordinates_wrap
    (bits : list Z) (x_offset y_offset width height a b : Z)
    (s : PSDisplayGlobals) :
  ps_display_draw_bitmap bits (x_offset + 256 * a) (y_offset + 256 * b)
    width height s
  = ps_display_draw_bitmap bits x_offset y_offset width height s.
Proof. unfold ps_display_draw_bitmap. apply draw_bitmap_loop_wrap. Qed.

Lemma draw_bitmap_pixel_out_of_screen bits xo yo w i s :
  FRAMEBUFFER_SIZE <= blit_store_index xo yo w i ->
  draw_bitmap_pixel bits xo yo w i s = Fault OutOfBounds [].
Proof.
  intros Hout. unfold draw_bitmap_pixel, ps_display_set_pixel, fb_store.
  destruct (bits !! _); [|reflexivity].
  unfold blit_store_index in Hout.
  pose proof (Z.mod_pos_bound (yo + i / w) 256 eq_refl) as Hy.
  pose proof (Z.mod_pos_bound (xo + i mod w) 256 eq_refl) as Hx.
  fold (u8 (yo + i / w)) in Hy. fold (u8 (xo + i mod w)) in Hx.
  assert (Hu : u32 (u8 (yo + i / w) * SNOWY_BYTES_PER_ROW + u8 (xo + i mod w))
               = u8 (yo + i / w) * SNOWY_BYTES_PER_ROW + u8 (xo + i mod w)).
  { unfold u32. apply Z.mod_small. psd_geometry. lia. }
  rewrite Hu.
  destruct (Z.ltb_spec (u8 (yo + i / w) * SNOWY_BYTES_PER_ROW + u8 (xo + i mod w))
              FRAMEBUFFER_SIZE); [lia|].
  rewrite andb_false_r. destruct (negb _); reflexivity.
Qed.

Lemma draw_bitmap_pixel_fault bits xo yo w i s f o :
  draw_bitmap_pixel bits xo yo w i s = Fault f o -> f = OutOfBounds.
Proof.
  unfold draw_bitmap_pixel, ps_display_set_pixel, fb_store.
  destruct (bits !! _); [|intros [= <- _]; reflexivity].
  destruct (negb _); destruct (_ && _); intros [= <- _] || intros [=];
    reflexivity.
Qed.

Lemma draw_bitmap_loop_out_of_screen bits xo yo w i n : forall i0 s,
  FRAMEBUFFER_SIZE <= blit_store_index xo yo w i ->
  i0 <= i < i0 + Z.of_nat n ->
  faulted (draw_bitmap_loop n bits xo yo w i0 s) = Some OutOfBounds.
Proof.
  induction n as [|n IH]; intros i0 s Hout Hi; [lia|].
  cbn [draw_bitmap_loop]. unfold bind.
  destruct (draw_bitmap_pixel bits xo yo w i0 s) as [[] s1 o1|f o1] eqn:Hpix.
  - destruct (Z.eq_dec i0 i) as [->|Hne].
    + rewrite draw_bitmap_pixel_out_of_screen in Hpix by exact Hout. discriminate.
    + specialize (IH (i0 + 1) s1 Hout ltac:(lia)).
      destruct (draw_bitmap_loop n bits xo yo w (i0 + 1) s1);
        [discriminate|exact IH].
  - rewrite (draw_bitmap_pixel_fault _ _ _ _ _ _ _ _ Hpix). reflexivity.
Qed.

(** X23. The blit does not clip.  If one pixel of the bitmap has, with
    its coordinates cut to 8 bits, an index at or beyond the end of the
    framebuffer, the blit does not complete: it reads or writes outside
    an array (undefined behaviour in C), whatever the other pixels
    are. *)
Theorem X23_draw_bitmap_does_not_clip
    (bits : list Z) (x_offset y_offset width height i : Z)
    (s : PSDisplayGlobals) :
  0 <= i < u32 (width * height) ->
  FRAMEBUFFER_SIZE <= blit_store_index x_offset y_offset width i ->
  faulted (ps_display_draw_bitmap bits x_offset y_offset width height s)
  = Some OutOfBounds.
Proof.
  intros Hi Hout. unfold ps_display_draw_bitmap.
  apply (draw_bitmap_loop_out_of_screen bits x_offset y_offset width i);
    [exact Hout|lia].
Qed.

(** X23 on the logo drawn at row 150: its row 22 would be row 172. *)
Lemma X23_draw_bitmap_does_not_clip_witness :
  FRAMEBUFFER_SIZE <= blit_store_index 8 150 128 (22 * 128) /\
  faulted (ps_display_draw_bitmap ps_display_get_pebble_logo 8 150 128 32
             initial_state)
  = Some OutOfBounds.
Proof.
  assert (Hout : FRAMEBUFFER_SIZE <= blit_store_index 8 150 128 (22 * 128))
    by (vm_compute; discriminate).
  split; [exact Hout|].
  apply (X23_draw_bitmap_does_not_clip ps_display_get_pebble_logo
           8 150 128 32 (22 * 128) initial_state); [|exact Hout].
  split; [discriminate|reflexivity].
Defined.

(** ** Colours and the pixel loop *)

Lemma byte_cases (P : Z -> bool) :
  forallb P byte_values = true -> forall p, 0 <= p < 256 -> P p = true.
Proof.
  intros Hall p Hp. rewrite forallb_forall in Hall. apply Hall.
  unfold byte_values. apply in_map_iff. exists (Z.to_nat p).
  split; [lia|]. apply in_seq. lia.
Qed.

Lemma color_eqb_eq a b : color_eqb a b = true -> a = b.
Proof.
  destruct a, b. unfold color_eqb. cbn [red green blue].
  intros H. apply andb_prop in H as [H Hb]. apply andb_prop in H as [Hr Hg].
  apply Z.eqb_eq in Hr, Hg, Hb. congruence.
Qed.

(** X24. [ps_display_get_rgb] reads a framebuffer byte as three two-bit
    fields, red in bits 7-6, green in bits 5-4, blue in bits 3-2, and
    scales each to 0, 85, 170 or 255; bits 1-0 are ignored, and each
    component fits its [uint8_t] field. *)
Theorem X24_get_rgb_two_bit_channels (p : Z) :
  0 <= p < 256 ->
  ps_display_get_rgb p
  = {| red := 85 * (p / 64);
       green := 85 * (p / 16 mod 4);
       blue := 85 * (p / 4 mod 4) |}.
Proof.
  intros Hp. apply color_eqb_eq.
  apply (byte_cases
           (fun p => color_eqb (ps_display_get_rgb p)
                       {| red := 85 * (p / 64);
                          green := 85 * (p / 16 mod 4);
                          blue := 85 * (p / 4 mod 4) |}));
    [vm_compute; reflexivity|exact Hp].
Qed.

(** X24 on the colours the source names: white, red, green, blue. *)
Lemma X24_get_rgb_two_bit_channels_witness :
  ps_display_get_rgb SNOWY_COLOR_WHITE = {| red := 255; green := 255; blue := 255 |} /\
  ps_display_get_rgb SNOWY_COLOR_RED = {| red := 255; green := 0; blue := 0 |} /\
  ps_display_get_rgb SNOWY_COLOR_GREEN = {| red := 0; green := 255; blue := 0 |} /\
  ps_display_get_rgb SNOWY_COLOR_BLUE = {| red := 0; green := 0; blue := 255 |}.
Proof.
  split; [|split; [|split]].
  - refine (X24_get_rgb_two_bit_channels SNOWY_COLOR_WHITE _).
    split; [discriminate|reflexivity].
  - refine (X24_get_rgb_two_bit_channels SNOWY_COLOR_RED _).
    split; [discriminate|reflexivity].
  - refine (X24_get_rgb_two_bit_channels SNOWY_COLOR_GREEN _).
    split; [discriminate|reflexivity].
  - refine (X24_get_rgb_two_bit_channels SNOWY_COLOR_BLUE _).
    split; [discriminate|reflexivity].
Defined.









